(** * Tree-view sample providers: a shallow embedding

    The repository is a set of sample tree-view providers for an editor:
    a static string tree (testView), a JSON document outline
    (jsonOutline.ts), an FTP browser (ftpExplorer) and a local file-system
    explorer (fileExplorer).  Each provider is embedded below in a module
    of its own, named after the source file, with the functions keeping
    their source names.

    Conventions.
    - JavaScript [undefined]/[null] is [None]; a thrown exception or a
      rejected promise is [Err]; a normal return or a resolved promise is
      [Ok].
    - Calls that leave the program (the FTP client, the [fs] module) are
      nodes of a small free monad; a handler gives the outside world, and
      running a program yields its result together with the trace of the
      calls it made.
    - The editor API and the libraries [jsonc-parser], [path] and the
      editor's [Uri] are not part of the repository; the fragments of them
      that the providers call are modelled in the modules [Path], [Uri] and
      [Jsonc], each from the library's documented behaviour. *)

From Stdlib Require Import String Ascii List Bool Arith NArith Lia DecimalString.
Import ListNotations.
Local Open Scope string_scope.

Set Implicit Arguments.
Set Warnings "-register-all".

(** ** Results of fallible code *)

Inductive result (E A : Type) : Type :=
| Ok (a : A)
| Err (e : E).
Arguments Ok {E A} a.
Arguments Err {E A} e.

Definition is_ok {E A} (r : result E A) : bool :=
  match r with Ok _ => true | Err _ => false end.

(** The one run-time error the providers can raise by themselves: reading a
    property of [undefined]/[null], or iterating over [undefined]. *)
Inductive JsError : Type :=
| TypeError (msg : string).

(** ** JavaScript strings and association objects

    A JavaScript string is a sequence of UTF-16 code units.  The strings
    modelled here have all their units below 256, and a [string] holds one
    [ascii] per unit (not one per byte of an encoding), so that lengths and
    offsets count what they count in JavaScript. *)

Module Js.

(** [s.substring(0, n)]. *)
Definition substring0 (n : nat) (s : string) : string := String.substring 0 n s.

(** Truthiness of a string: the empty string is falsy. *)
Definition truthy_string (s : string) : bool :=
  match s with EmptyString => false | _ => true end.

(** Truthiness of a number that is a natural: [0] is falsy. *)
Definition truthy_nat (n : nat) : bool :=
  match n with 0 => false | S _ => true end.

(** Own-property lookup [o[k]] in an object, kept as the list of its
    properties in the order in which they were created (the order of
    declaration of an object literal or of a JSON text), each key once. *)
Fixpoint get {A} (k : string) (o : list (string * A)) : option A :=
  match o with
  | [] => None
  | (k', v) :: o' => if String.eqb k k' then Some v else get k o'
  end.

Definition digit (c : ascii) : option N :=
  let n := N_of_ascii c in
  if (N.leb 48 n && N.leb n 57)%bool then Some (n - 48)%N else None.

Fixpoint numeral (cs : list ascii) (acc : N) : option N :=
  match cs with
  | [] => Some acc
  | c :: cs' =>
      match digit c with
      | Some d => numeral cs' (10 * acc + d)%N
      | None => None
      end
  end.

(** A key that is an array index: the canonical decimal numeral, without a
    leading zero, of an integer below 2^32 - 1. *)
Definition array_index (k : string) : option N :=
  match list_ascii_of_string k with
  | [] => None
  | c :: cs =>
      if (Ascii.eqb c "0"%char && negb (Nat.eqb (List.length cs) 0))%bool then None
      else match numeral (c :: cs) 0 with
           | Some n => if N.ltb n 4294967295 then Some n else None
           | None => None
           end
  end.

Definition is_array_index (k : string) : bool :=
  match array_index k with Some _ => true | None => false end.

Fixpoint insert_index (x : N * string) (l : list (N * string)) : list (N * string) :=
  match l with
  | [] => [x]
  | y :: l' => if N.leb (fst x) (fst y) then x :: l else y :: insert_index x l'
  end.

(** The keys that are array indices, in ascending order of the index. *)
Definition index_keys (names : list string) : list string :=
  map snd
      (fold_right insert_index []
         (flat_map (fun k => match array_index k with
                             | Some n => [(n, k)]
                             | None => []
                             end) names)).

(** [Object.keys(o)]: the own keys; first those that are array indices, in
    ascending order, then the others in the order of their creation. *)
Definition keys {A} (o : list (string * A)) : list string :=
  (index_keys (map fst o)
   ++ filter (fun k => negb (is_array_index k)) (map fst o))%list.

(** [Object.keys(o).map(k => f(k, o[k]))] hands [f] the own properties of
    [o] in the order of [Object.keys]; [entries] lists them ([o[k]] is
    defined for every own key [k]). *)
Definition entries {A} (o : list (string * A)) : list (string * A) :=
  flat_map (fun k => match get k o with Some v => [(k, v)] | None => [] end) (keys o).

End Js.

(** ** testView: the static string tree *)

Module TestView.

(** The nested object literal [tree]: every value is again an object. *)
Inductive TreeObj : Type :=
| Obj (props : list (string * TreeObj)).

Definition props (t : TreeObj) : list (string * TreeObj) :=
  match t with Obj ps => ps end.

Definition tree : TreeObj :=
  Obj [ ("a", Obj [ ("aa", Obj [ ("aaa", Obj [ ("aaaa", Obj [ ("aaaaa",
                      Obj [ ("aaaaaa", Obj []) ]) ]) ]) ]);
                    ("ab", Obj []) ]);
        ("b", Obj [ ("ba", Obj []); ("bb", Obj []) ]) ].

(** Elements handed to the view are [Key] objects.  The view identifies
    an element by [treeItem.id], which [getTreeItem] sets to the key, so a
    NodeId is the key and two elements are the same node when their keys
    are equal. *)
Record Key : Type := new_Key { key : string }.

(** The loop of [getTreeElement]: [n] iterations remain, [i] is the loop
    counter. *)
Fixpoint getTreeElement_loop (element : string) (i n : nat) (parent : TreeObj)
  : option TreeObj :=
  match n with
  | 0 => Some parent
  | S n' =>
      match Js.get (Js.substring0 (i + 1) element) (props parent) with
      | None => None
      | Some p => getTreeElement_loop element (i + 1) n' p
      end
  end.

Definition getTreeElement (element : string) : option TreeObj :=
  getTreeElement_loop element 0 (String.length element) tree.

(** [getChildren(key)]; [undefined] is [None], and [!key] also holds for the
    empty string. *)
Definition getChildren (k : option string) : list string :=
  match k with
  | None => Js.keys (props tree)
  | Some k =>
      if negb (Js.truthy_string k) then Js.keys (props tree)
      else match getTreeElement k with
           | Some treeElement => Js.keys (props treeElement)
           | None => []
           end
  end.

Inductive TreeItemCollapsibleState : Type :=
| None_ | Collapsed | Expanded.

Record TreeItem : Type := mkTreeItem {
  label : string;
  highlights : option (nat * nat);
  tooltip : string;
  collapsibleState : TreeItemCollapsibleState;
  id : option string
}.

Definition getTreeItem (k : string) : TreeItem :=
  let treeElement := getTreeElement k in
  let n := String.length k in
  {| label := k;
     highlights := if Nat.ltb 1 n then Some (n - 2, n - 1) else None;
     tooltip := "Tooltip for " ++ k;
     collapsibleState :=
       match treeElement with
       | Some t => if Js.truthy_nat (List.length (Js.keys (props t)))
                   then Collapsed else None_
       | None => None_
       end;
     id := None |}.

(** [getNode] interns one [Key] object per key in the module-level [nodes]
    cache; with elements compared by key the cache is the identity. *)
Definition getNode (k : string) : Key := new_Key k.

(** The provider object returned by [aNodeWithIdTreeDataProvider]. *)
Module Provider.

Definition getChildren (element : option Key) : list Key :=
  map getNode (TestView.getChildren (option_map key element)).

Definition getTreeItem (element : Key) : TreeItem :=
  let treeItem := TestView.getTreeItem (key element) in
  {| label := label treeItem;
     highlights := highlights treeItem;
     tooltip := tooltip treeItem;
     collapsibleState := collapsibleState treeItem;
     id := Some (key element) |}.

Definition getParent (element : Key) : option Key :=
  let k := key element in
  let parentKey := Js.substring0 (String.length k - 1) k in
  if Js.truthy_string parentKey then Some (new_Key parentKey) else None.

End Provider.

(** Every key of the tree extends the key of the object it sits in by one
    character; [extends_by_one] is the check for one key, [wf_keys] the
    check for a whole object. *)
Definition extends_by_one (prefix k : string) : bool :=
  String.eqb (Js.substring0 (String.length k - 1) k) prefix
  && Nat.eqb (String.length k) (String.length prefix + 1).

Fixpoint wf_keys (prefix : string) (t : TreeObj) : bool :=
  match t with
  | Obj ps =>
      forallb (fun kt => extends_by_one prefix (fst kt) && wf_keys (fst kt) (snd kt)) ps
  end.

End TestView.

(** ** The [path] module (POSIX flavour)

    A model of the three functions of Node's [path] module that the
    providers call, following the documented algorithm of [path.posix]. *)

Module Path.

Definition slash : ascii := "/"%char.

Definition is_slash (c : ascii) : bool := Ascii.eqb c slash.

Fixpoint dropWhile {A} (f : A -> bool) (l : list A) : list A :=
  match l with
  | [] => []
  | x :: l' => if f x then dropWhile f l' else l
  end.

Fixpoint takeWhile {A} (f : A -> bool) (l : list A) : list A :=
  match l with
  | [] => []
  | x :: l' => if f x then x :: takeWhile f l' else []
  end.

(** [path.dirname]: scan from the end, skip trailing slashes, skip the last
    segment, and cut at the slash before it; the scan never looks at index
    0. *)
Definition dirname (p : string) : string :=
  match list_ascii_of_string p with
  | [] => "."
  | c0 :: rest =>
      let hasRoot := is_slash c0 in
      let r := dropWhile (fun c => negb (is_slash c)) (dropWhile is_slash (rev rest)) in
      match r with
      | [] => if hasRoot then "/" else "."
      | _ :: r' =>
          if hasRoot && Nat.eqb (List.length r) 1 then "//"
          else string_of_list_ascii (c0 :: rev r')
      end
  end.

(** [path.isAbsolute]. *)
Definition isAbsolute (p : string) : bool :=
  match p with
  | String c _ => is_slash c
  | EmptyString => false
  end.

(** [path.basename] without the extension argument. *)
Definition basename (p : string) : string :=
  let r := dropWhile is_slash (rev (list_ascii_of_string p)) in
  string_of_list_ascii (rev (takeWhile (fun c => negb (is_slash c)) r)).

(** Splitting at slashes, as [normalizeString] walks the segments. *)
Fixpoint split_segments (cs : list ascii) (cur : list ascii) : list string :=
  match cs with
  | [] => [string_of_list_ascii (rev cur)]
  | c :: cs' =>
      if is_slash c then string_of_list_ascii (rev cur) :: split_segments cs' []
      else split_segments cs' (c :: cur)
  end.

(** One step of [normalizeString]; [res] is the stack of kept segments, last
    one first. *)
Definition normalize_step (allowAboveRoot : bool) (res : list string) (seg : string)
  : list string :=
  if String.eqb seg "" || String.eqb seg "." then res
  else if String.eqb seg ".." then
    match res with
    | last :: res' =>
        if String.eqb last ".." then seg :: res else res'
    | [] => if allowAboveRoot then [seg] else []
    end
  else seg :: res.

Definition join_with_slash (segs : list string) : string :=
  String.concat "/" segs.

Definition last_is_slash (p : string) : bool :=
  match rev (list_ascii_of_string p) with
  | c :: _ => is_slash c
  | [] => false
  end.

(** [path.normalize]. *)
Definition normalize (p : string) : string :=
  match list_ascii_of_string p with
  | [] => "."
  | c0 :: _ =>
      let isAbsolute := is_slash c0 in
      let trailingSeparator := last_is_slash p in
      let segs := fold_left (normalize_step (negb isAbsolute))
                            (split_segments (list_ascii_of_string p) []) [] in
      let body := join_with_slash (rev segs) in
      if String.eqb body "" then
        (if isAbsolute then "/" else if trailingSeparator then "./" else ".")
      else
        let body' := if trailingSeparator then body ++ "/" else body in
        if isAbsolute then "/" ++ body' else body'
  end.

(** [path.join]: the non-empty arguments glued with a slash, then
    normalized. *)
Definition join (parts : list string) : string :=
  let joined := join_with_slash (filter (fun s => negb (String.eqb s "")) parts) in
  if String.eqb joined "" then "." else normalize joined.

End Path.

(** ** The editor's [Uri]

    A model of the editor's [Uri] value class on a POSIX host: the five
    components, [Uri.parse] (non-strict), [Uri.file], [with] and [fsPath].
    Percent-decoding is the identity on the strings considered here (none
    contains a percent sign), and the validation that makes [parse] throw
    on ill-formed components is left out. *)

Module Uri.

Record t : Type := mk {
  scheme : string;
  authority : string;
  path : string;
  query : string;
  fragment : string
}.

Definition eqb (a b : t) : bool :=
  String.eqb (scheme a) (scheme b) && String.eqb (authority a) (authority b)
  && String.eqb (path a) (path b) && String.eqb (query a) (query b)
  && String.eqb (fragment a) (fragment b).

(** [break p l]: the longest prefix without a character satisfying [p], and
    the rest. *)
Fixpoint break (p : ascii -> bool) (l : list ascii) : list ascii * list ascii :=
  match l with
  | [] => ([], [])
  | c :: l' =>
      if p c then ([], l)
      else let (a, b) := break p l' in (c :: a, b)
  end.

Definition one_of (s : string) (c : ascii) : bool :=
  existsb (Ascii.eqb c) (list_ascii_of_string s).

Definition schemeFix (s : string) : string :=
  if String.eqb s "" then "file" else s.

Definition referenceResolution (scheme path : string) : string :=
  if String.eqb scheme "https" || String.eqb scheme "http" || String.eqb scheme "file"
  then match path with
       | EmptyString => "/"
       | String c _ => if Path.is_slash c then path else "/" ++ path
       end
  else path.

(** The constructor applied by [parse], [file] and [with]. *)
Definition make (scheme authority path query fragment : string) : t :=
  let scheme' := schemeFix scheme in
  mk scheme' authority (referenceResolution scheme' path) query fragment.

(** [Uri.parse(value)] splits its argument in five groups: a scheme (a
    non-empty run free of colon, slash, question mark and hash, followed by
    a colon), an authority (after two slashes, up to the next slash,
    question mark or hash), a path (up to the next question mark or hash), a
    query (after a question mark, up to the next hash) and a fragment (after
    a hash).  Every group is optional. *)
Definition parse (value : string) : t :=
  let s := list_ascii_of_string value in
  let (pre, rest) := break (one_of ":/?#") s in
  let (sch, s1) :=
    match pre, rest with
    | _ :: _, c :: r => if Ascii.eqb c ":"%char then (pre, r) else ([], s)
    | _, _ => ([], s)
    end in
  let (auth, s2) :=
    match s1 with
    | c1 :: c2 :: r =>
        if Path.is_slash c1 && Path.is_slash c2 then break (one_of "/?#") r
        else ([], s1)
    | _ => ([], s1)
    end in
  let (pth, s3) := break (one_of "?#") s2 in
  let (qry, s4) :=
    match s3 with
    | c :: r => if Ascii.eqb c "?"%char then break (one_of "#") r else ([], s3)
    | [] => ([], s3)
    end in
  let frg := match s4 with _ :: r => r | [] => [] end in
  make (string_of_list_ascii sch) (string_of_list_ascii auth)
       (string_of_list_ascii pth) (string_of_list_ascii qry)
       (string_of_list_ascii frg).

(** [Uri.file(path)]: a path that starts with two slashes is a UNC path whose
    first segment is the authority. *)
Definition file (p : string) : t :=
  match list_ascii_of_string p with
  | c1 :: c2 :: r =>
      if Path.is_slash c1 && Path.is_slash c2 then
        let (auth, rest) := break Path.is_slash r in
        make "file" (string_of_list_ascii auth)
             (match rest with [] => "/" | _ => string_of_list_ascii rest end) "" ""
      else make "file" "" p "" ""
  | _ => make "file" "" p "" ""
  end.

(** [uri.with({ path })]. *)
Definition with_path (u : t) (p : string) : t :=
  make (scheme u) (authority u) p (query u) (fragment u).

Definition is_letter (c : ascii) : bool :=
  let n := nat_of_ascii c in
  (Nat.leb 65 n && Nat.leb n 90) || (Nat.leb 97 n && Nat.leb n 122).

(** [uri.fsPath] on a POSIX host (no slash is turned into a backslash). *)
Definition fsPath (u : t) : string :=
  if negb (String.eqb (authority u) "") && Nat.ltb 1 (String.length (path u))
     && String.eqb (scheme u) "file"
  then "//" ++ authority u ++ path u
  else
    match list_ascii_of_string (path u) with
    | c0 :: c1 :: c2 :: r =>
        if Path.is_slash c0 && is_letter c1 && Ascii.eqb c2 ":"%char
        then string_of_list_ascii (c1 :: c2 :: r)
        else path u
    | _ => path u
    end.

End Uri.

(** ** Programs that call the outside world

    [prog E R] is a program that returns an [R] and whose calls to the
    outside are the events of [E]: [Vis e k] performs the call [e] and goes
    on with [k] applied to the answer.  Asynchronous code (promises and
    callbacks run in sequence) is written in this monad; a rejected promise
    is a returned [Err]. *)

Inductive prog (E : Type -> Type) (R : Type) : Type :=
| Ret (r : R)
| Vis (X : Type) (e : E X) (k : X -> prog E R).
Arguments Ret {E R} r.
Arguments Vis {E R X} e k.

Fixpoint bind {E A B} (m : prog E A) (f : A -> prog E B) : prog E B :=
  match m with
  | Ret a => f a
  | Vis e k => Vis e (fun x => bind (k x) f)
  end.

Definition call {E X} (e : E X) : prog E X := Vis e (fun x => Ret x).

(** Sequencing of fallible programs: an [Err] skips the rest, as a rejected
    promise skips the [then] callbacks and an exception leaves an [async]
    function. *)
Definition bindR {E Er A B} (m : prog E (result Er A)) (f : A -> prog E (result Er B))
  : prog E (result Er B) :=
  bind m (fun r => match r with Ok a => f a | Err e => Ret (Err e) end).

Declare Scope prog_scope.
Delimit Scope prog_scope with prog.
Notation "x <- m ;; k" := (bind m (fun x => k))
  (at level 61, m at next level, right associativity) : prog_scope.
Notation "x <-? m ;; k" := (bindR m (fun x => k))
  (at level 61, m at next level, right associativity) : prog_scope.

(** A call that was made, with its answer type forgotten. *)
Definition event (E : Type -> Type) : Type := { X : Type & E X }.

Definition ev {E : Type -> Type} {X} (e : E X) : event E := existT (fun X => E X) X e.

(** Running a program against a world [W] that answers the calls: the result,
    the final world and the calls made, in order. *)
Section Run.
Variables (E : Type -> Type) (W : Type).
Variable handler : forall X, E X -> W -> X * W.

Fixpoint run {R} (m : prog E R) (w : W) : R * W * list (event E) :=
  match m with
  | Ret r => (r, w, [])
  | Vis e k =>
      let (x, w') := handler e w in
      let '(r, w'', tr) := run (k x) w' in
      (r, w'', ev e :: tr)
  end.

Definition run_result {R} (m : prog E R) (w : W) : R := fst (fst (run m w)).
Definition run_world {R} (m : prog E R) (w : W) : W := snd (fst (run m w)).
Definition run_trace {R} (m : prog E R) (w : W) : list (event E) := snd (run m w).

End Run.

(** ** [Array.prototype.sort] with a comparison function

    The sort is stable; it is modelled as insertion from the right, which
    gives the specified result for every consistent comparison function.
    For a comparison function that is not consistent the language leaves
    the order to the engine; what is proved below of such a sort (the
    comparison of the file explorer is not consistent for two entries of
    different types of which neither is a directory) is that it rearranges
    and that it puts the directories first.  A comparison result is kept
    as its sign. *)

Module JsArray.

Section Sort.
Variable A : Type.
Variable cmp : A -> A -> comparison.

(** [x] goes before the first element that must come after it. *)
Fixpoint insert (x : A) (l : list A) : list A :=
  match l with
  | [] => [x]
  | y :: l' =>
      match cmp x y with
      | Gt => y :: insert x l'
      | _ => x :: l
      end
  end.

Definition sort (l : list A) : list A := fold_right insert [] l.

End Sort.

End JsArray.

(** ** ftpExplorer: the FTP browser *)

Module Ftp.

Record IEntry : Type := mkIEntry { name : string; type : string }.

Record FtpNode : Type := mkFtpNode { resource : Uri.t; isDirectory : bool }.

(** A connection handle of the [ftp] client library. *)
Definition Client : Type := nat.

(** The calls into the [ftp] client library.  [ClientConnect] stands for
    [new Client()], the registration of the two listeners and
    [client.connect(...)]: its answer is the [ready] event (the client) or
    the [error] event (the message).  [ClientList] and [ClientGet] answer
    with the two arguments of their callback; for [ClientGet] the stream is
    given as the buffers of its [data] events, followed by its [end]. *)
Inductive FtpE : Type -> Type :=
| ClientConnect (host username password : string) : FtpE (result string Client)
| ClientList (c : Client) (path : option string) : FtpE (result string (list IEntry))
| ClientGet (c : Client) (path : string) : FtpE (result string (list (option string)))
| ClientEnd (c : Client) : FtpE unit.

Local Open Scope prog_scope.

Record FtpModel : Type := mkFtpModel { host : string; user : string; password : string }.

Definition connect (this : FtpModel) : prog FtpE (result string Client) :=
  r <- call (ClientConnect (host this) (user this) (password this)) ;;
  match r with
  | Ok client => Ret (Ok client)
  | Err message => Ret (Err ("Error while connecting: " ++ message))
  end.

Section WithLocale.

(** [String.prototype.localeCompare] depends on the host's locale; it is a
    parameter, and its result is kept as its sign. *)
Variable localeCompare : string -> string -> comparison.

(** The comparison function passed to [sort]. *)
Definition sort_compare (n1 n2 : FtpNode) : comparison :=
  if isDirectory n1 && negb (isDirectory n2) then Lt
  else if negb (isDirectory n1) && isDirectory n2 then Gt
  else localeCompare (Path.basename (Uri.fsPath (resource n1)))
                     (Path.basename (Uri.fsPath (resource n2))).

Definition sort (nodes : list FtpNode) : list FtpNode :=
  JsArray.sort sort_compare nodes.

Definition roots (this : FtpModel) : prog FtpE (result string (list FtpNode)) :=
  client <-? connect this ;;
  r <- call (ClientList client None) ;;
  match r with
  | Err err => Ret (Err err)
  | Ok list =>
      _ <- call (ClientEnd client) ;;
      Ret (Ok (sort (map (fun entry =>
                 {| resource := Uri.parse ("ftp://" ++ host this ++ "///" ++ name entry);
                    isDirectory := String.eqb (type entry) "d" |}) list)))
  end.

Definition getChildren (this : FtpModel) (node : FtpNode)
  : prog FtpE (result string (list FtpNode)) :=
  client <-? connect this ;;
  r <- call (ClientList client (Some (Uri.fsPath (resource node)))) ;;
  match r with
  | Err err => Ret (Err err)
  | Ok list =>
      _ <- call (ClientEnd client) ;;
      Ret (Ok (sort (map (fun entry =>
                 {| resource := Uri.parse (Uri.fsPath (resource node) ++ "/" ++ name entry);
                    isDirectory := String.eqb (type entry) "d" |}) list)))
  end.

(** The [data] listener: a falsy buffer is skipped. *)
Definition on_data (acc : string) (buffer : option string) : string :=
  match buffer with
  | Some b => acc ++ b
  | None => acc
  end.

(** [s.substr(2)]. *)
Definition substr2 (s : string) : string :=
  String.substring 2 (String.length s - 2) s.

Definition getContent (this : FtpModel) (resource : Uri.t)
  : prog FtpE (result string string) :=
  client <-? connect this ;;
  r <- call (ClientGet client (substr2 (Uri.path resource))) ;;
  match r with
  | Err err => Ret (Err err)
  | Ok stream =>
      let string := fold_left on_data stream "" in
      _ <- call (ClientEnd client) ;;
      Ret (Ok string)
  end.

(** *** [FtpTreeDataProvider] *)

Inductive TreeItemCollapsibleState : Type :=
| None_ | Collapsed | Expanded.

Record Command : Type := mkCommand {
  command : string;
  arguments : list Uri.t;
  title : string
}.

Record TreeItem : Type := mkTreeItem {
  resourceUri : Uri.t;
  collapsibleState : option TreeItemCollapsibleState;
  item_command : option Command
}.

Definition getTreeItem (element : FtpNode) : TreeItem :=
  {| resourceUri := resource element;
     collapsibleState := if isDirectory element then Some Collapsed else None;
     item_command :=
       if isDirectory element then None
       else Some {| command := "ftpExplorer.openFtpResource";
                    arguments := [resource element];
                    title := "Open FTP Resource" |} |}.

Definition provider_getChildren (model : FtpModel) (element : option FtpNode)
  : prog FtpE (result string (list FtpNode)) :=
  match element with
  | Some element => getChildren model element
  | None => roots model
  end.

Definition getParent (element : FtpNode) : option FtpNode :=
  let parent := Uri.with_path (resource element) (Path.dirname (Uri.path (resource element))) in
  if negb (String.eqb (Uri.path parent) "//")
  then Some {| resource := parent; isDirectory := true |}
  else None.

End WithLocale.

Definition FtpNode_eqb (a b : FtpNode) : bool :=
  Uri.eqb (resource a) (resource b) && Bool.eqb (isDirectory a) (isDirectory b).

(** A listing has its directories first when every node that follows a file
    is a file. *)
Fixpoint directories_first (l : list FtpNode) : bool :=
  match l with
  | [] => true
  | n :: l' =>
      (isDirectory n || forallb (fun m => negb (isDirectory m)) l')
      && directories_first l'
  end.

(** *** Reading a trace *)

Definition is_connect (e : event FtpE) : bool :=
  match projT2 e with ClientConnect _ _ _ => true | _ => false end.

Definition is_end (e : event FtpE) : bool :=
  match projT2 e with ClientEnd _ => true | _ => false end.

Definition connections_opened (tr : list (event FtpE)) : nat :=
  List.length (filter is_connect tr).

Definition connections_closed (tr : list (event FtpE)) : nat :=
  List.length (filter is_end tr).

(** *** A server to run against

    One host with a fixed answer per listed path and per fetched file; every
    connection gets a fresh handle and is remembered until it is ended. *)

Record Server : Type := mkServer {
  reachable : bool;
  listings : list (option string * list IEntry);
  files : list (string * list (option string));
  next_client : Client;
  open_clients : list Client
}.

Fixpoint assoc_opt (k : option string) (l : list (option string * list IEntry))
  : option (list IEntry) :=
  match l with
  | [] => None
  | (k', v) :: l' =>
      match k, k' with
      | None, None => Some v
      | Some a, Some b => if String.eqb a b then Some v else assoc_opt k l'
      | _, _ => assoc_opt k l'
      end
  end.

Definition server (X : Type) (e : FtpE X) (w : Server) : X * Server :=
  match e in FtpE X return X * Server with
  | ClientConnect _ _ _ =>
      if reachable w
      then (Ok (next_client w),
            mkServer (reachable w) (listings w) (files w) (S (next_client w))
                     (next_client w :: open_clients w))
      else (Err "connect ECONNREFUSED", w)
  | ClientList c p =>
      match assoc_opt p (listings w) with
      | Some l => (Ok l, w)
      | None => (Err "No such file or directory", w)
      end
  | ClientGet c p =>
      match Js.get p (files w) with
      | Some bufs => (Ok bufs, w)
      | None => (Err "No such file or directory", w)
      end
  | ClientEnd c =>
      (tt, mkServer (reachable w) (listings w) (files w) (next_client w)
                    (filter (fun c' => negb (Nat.eqb c c')) (open_clients w)))
  end.

End Ftp.

(** ** fileExplorer: the local file-system provider *)

Module FileExplorer.

Local Open Scope prog_scope.

Inductive FileType : Type :=
| Unknown | File | Directory | SymbolicLink.

Definition FileType_eqb (a b : FileType) : bool :=
  match a, b with
  | Unknown, Unknown | File, File | Directory, Directory
  | SymbolicLink, SymbolicLink => true
  | _, _ => false
  end.

(** An error handed to a callback of the [fs] module, with its [code]. *)
Record ErrnoException : Type := mkErrno { code : option string; message : string }.

(** The errors a provider operation can be rejected with: the four
    [FileSystemError]s the provider builds, an [fs] error passed on as it
    is, and a run-time [TypeError]. *)
Inductive Error : Type :=
| FileNotFound
| FileIsADirectory
| FileExists
| NoPermissions
| FsError (e : ErrnoException)
| JsTypeError (msg : string).

(** What [fs.stat] answers with. *)
Record Stats : Type := mkStats {
  stats_isFile : bool;
  stats_isDirectory : bool;
  stats_isSymbolicLink : bool;
  stats_size : nat;
  stats_ctime : nat;
  stats_mtime : nat
}.

(** The calls into [fs], [mkdirp] and [rimraf]; each answers with the
    arguments of its callback. *)
Inductive FsE : Type -> Type :=
| FsReaddir (path : string) : FsE (result ErrnoException (list string))
| FsStat (path : string) : FsE (result ErrnoException Stats)
| FsReadFile (path : string) : FsE (result ErrnoException string)
| FsWriteFile (path content : string) : FsE (result ErrnoException unit)
| FsExists (path : string) : FsE bool
| Rimraf (path : string) : FsE (result ErrnoException unit)
| Mkdirp (path : string) : FsE (result ErrnoException unit)
| FsRename (oldPath newPath : string) : FsE (result ErrnoException unit)
| FsUnlink (path : string) : FsE (result ErrnoException unit).

(** *** namespace [_] *)

Module Utilities.

Definition code_is (e : ErrnoException) (c : string) : bool :=
  match code e with
  | Some c' => String.eqb c' c
  | None => false
  end.

Definition massageError (error : ErrnoException) : Error :=
  if code_is error "ENOENT" then FileNotFound
  else if code_is error "EISDIR" then FileIsADirectory
  else if code_is error "EEXIST" then FileExists
  else if code_is error "EPERM" || code_is error "EACCESS" then NoPermissions
  else FsError error.

Definition handleResult {T} (r : result ErrnoException T) : result Error T :=
  match r with
  | Err error => Err (massageError error)
  | Ok result => Ok result
  end.

(** [normalizeNFC] returns its argument on every platform but [darwin]; the
    host modelled here is not [darwin]. *)
Definition normalizeNFC {T} (items : T) : T := items.

Definition readdir (path : string) : prog FsE (result Error (list string)) :=
  r <- call (FsReaddir path) ;;
  Ret (handleResult (match r with Ok children => Ok (normalizeNFC children) | Err e => Err e end)).

Definition stat (path : string) : prog FsE (result Error Stats) :=
  r <- call (FsStat path) ;; Ret (handleResult r).

Definition readfile (path : string) : prog FsE (result Error string) :=
  r <- call (FsReadFile path) ;; Ret (handleResult r).

Definition writefile (path content : string) : prog FsE (result Error unit) :=
  r <- call (FsWriteFile path content) ;; Ret (handleResult r).

Definition exists_ (path : string) : prog FsE (result Error bool) :=
  b <- call (FsExists path) ;; Ret (handleResult (Ok b)).

Definition rmrf (path : string) : prog FsE (result Error unit) :=
  r <- call (Rimraf path) ;; Ret (handleResult r).

Definition mkdir (path : string) : prog FsE (result Error unit) :=
  r <- call (Mkdirp path) ;; Ret (handleResult r).

Definition rename (oldPath newPath : string) : prog FsE (result Error unit) :=
  r <- call (FsRename oldPath newPath) ;; Ret (handleResult r).

Definition unlink (path : string) : prog FsE (result Error unit) :=
  r <- call (FsUnlink path) ;; Ret (handleResult r).

End Utilities.

(** *** class [FileStat] *)

Definition FileStat_type (fsStat : Stats) : FileType :=
  if stats_isFile fsStat then File
  else if stats_isDirectory fsStat then Directory
  else if stats_isSymbolicLink fsStat then SymbolicLink
  else Unknown.

Record Entry : Type := mkEntry { uri : Uri.t; type : FileType }.

(** *** class [FileSystemProvider] *)

Definition _stat (path : string) : prog FsE (result Error Stats) :=
  Utilities.stat path.

(** The loop of [_readDirectory] over the names still to visit; [res] is the
    array [result] built so far. *)
Fixpoint _readDirectory_loop (dir : string) (children : list string)
  (res : list (string * FileType))
  : prog FsE (result Error (list (string * FileType))) :=
  match children with
  | [] => Ret (Ok res)
  | child :: children' =>
      stat <-? _stat (Path.join [dir; child]) ;;
      _readDirectory_loop dir children' (res ++ [(child, FileStat_type stat)])
  end.

Definition _readDirectory (uri : Uri.t)
  : prog FsE (result Error (list (string * FileType))) :=
  children <-? Utilities.readdir (Uri.fsPath uri) ;;
  _readDirectory_loop (Uri.fsPath uri) children [].

Definition readDirectory (uri : Uri.t) := _readDirectory uri.

Definition createDirectory (uri : Uri.t) : prog FsE (result Error unit) :=
  Utilities.mkdir (Uri.fsPath uri).

Definition readFile (uri : Uri.t) : prog FsE (result Error string) :=
  Utilities.readfile (Uri.fsPath uri).

Record WriteOptions : Type := mkWriteOptions { create : bool; overwrite : bool }.

Definition _writeFile (uri : Uri.t) (content : string) (options : WriteOptions)
  : prog FsE (result Error unit) :=
  exists_ <-? Utilities.exists_ (Uri.fsPath uri) ;;
  _ <-? (if negb exists_ then
           if negb (create options) then Ret (Err FileNotFound)
           else Utilities.mkdir (Path.dirname (Uri.fsPath uri))
         else
           if negb (overwrite options) then Ret (Err FileExists)
           else Ret (Ok tt)) ;;
  Utilities.writefile (Uri.fsPath uri) content.

Definition writeFile (uri : Uri.t) (content : string) (options : WriteOptions) :=
  _writeFile uri content options.

Definition delete (uri : Uri.t) (recursive : bool) : prog FsE (result Error unit) :=
  if recursive then Utilities.rmrf (Uri.fsPath uri)
  else Utilities.unlink (Uri.fsPath uri).

Definition _rename (oldUri newUri : Uri.t) (overwrite : bool)
  : prog FsE (result Error unit) :=
  exists_ <-? Utilities.exists_ (Uri.fsPath newUri) ;;
  _ <-? (if exists_ then
           if negb overwrite then Ret (Err FileExists)
           else Utilities.rmrf (Uri.fsPath newUri)
         else Ret (Ok tt)) ;;
  parentExists <-? Utilities.exists_ (Path.dirname (Uri.fsPath newUri)) ;;
  _ <-? (if negb parentExists
         then Utilities.mkdir (Path.dirname (Uri.fsPath newUri))
         else Ret (Ok tt)) ;;
  Utilities.rename (Uri.fsPath oldUri) (Uri.fsPath newUri).

Definition rename (oldUri newUri : Uri.t) (overwrite : bool) :=
  _rename oldUri newUri overwrite.

Section WithLocale.

Variable localeCompare : string -> string -> comparison.

(** The comparison function that [getChildren] passes to [sort]. *)
Definition children_compare (a b : string * FileType) : comparison :=
  if FileType_eqb (snd a) (snd b) then localeCompare (fst a) (fst b)
  else if FileType_eqb (snd a) Directory then Lt else Gt.

(** [getChildren(element)].  [workspaceFolders] is
    [workspace.workspaceFolders], which is [undefined] when no folder is
    open. *)
Definition getChildren (workspaceFolders : option (list Uri.t)) (element : option Entry)
  : prog FsE (result Error (list Entry)) :=
  match element with
  | Some element =>
      children <-? readDirectory (uri element) ;;
      Ret (Ok (map (fun nt => {| uri := Uri.file (Path.join [Uri.fsPath (uri element); fst nt]);
                                 type := snd nt |}) children))
  | None =>
      match workspaceFolders with
      | None => Ret (Err (JsTypeError "Cannot read properties of undefined (reading 'filter')"))
      | Some folders =>
          match filter (fun folder => String.eqb (Uri.scheme folder) "file") folders with
          | workspaceFolder :: _ =>
              children <-? readDirectory workspaceFolder ;;
              let children := JsArray.sort children_compare children in
              Ret (Ok (map (fun nt =>
                         {| uri := Uri.file (Path.join [Uri.fsPath workspaceFolder; fst nt]);
                            type := snd nt |}) children))
          | [] => Ret (Ok [])
          end
      end
  end.

End WithLocale.

Inductive TreeItemCollapsibleState : Type :=
| None_ | Collapsed | Expanded.

Record Command : Type := mkCommand {
  command : string;
  title : string;
  arguments : list Uri.t
}.

Record TreeItem : Type := mkTreeItem {
  resourceUri : Uri.t;
  collapsibleState : TreeItemCollapsibleState;
  item_command : option Command;
  contextValue : option string
}.

Definition getTreeItem (element : Entry) : TreeItem :=
  let treeItem :=
    {| resourceUri := uri element;
       collapsibleState :=
         if FileType_eqb (type element) Directory then Collapsed else None_;
       item_command := None;
       contextValue := None |} in
  if FileType_eqb (type element) File then
    {| resourceUri := resourceUri treeItem;
       collapsibleState := collapsibleState treeItem;
       item_command := Some {| command := "fileExplorer.openFile";
                               title := "Open File";
                               arguments := [uri element] |};
       contextValue := Some "file" |}
  else treeItem.

(** *** Reading a trace *)

Definition is_write (e : event FsE) : bool :=
  match projT2 e with
  | FsWriteFile _ _ | Rimraf _ | Mkdirp _ | FsRename _ _ | FsUnlink _ => true
  | _ => false
  end.

Definition writes (tr : list (event FsE)) : list (event FsE) := filter is_write tr.

End FileExplorer.

(** *** A file system to run against

    Absolute paths mapped to files and directories.  [fs.readdir] answers
    with the names of a directory sorted by their bytes, as it does on a
    POSIX host, where the names come from [scandir] through a comparison
    with [strcmp]. *)

Module MemFs.

Import FileExplorer.

Inductive Kind : Type :=
| KFile (content : string)
| KDir.

Definition Fs : Type := list (string * Kind).

Definition errno (c : string) : ErrnoException :=
  {| code := Some c; message := c |}.

Definition under (dir p : string) : bool := String.prefix (dir ++ "/") p.

Definition set (p : string) (k : Kind) (fs : Fs) : Fs :=
  match Js.get p fs with
  | Some _ => map (fun e => if String.eqb (fst e) p then (p, k) else e) fs
  | None => (fs ++ [(p, k)])%list
  end.

Definition remove_tree (p : string) (fs : Fs) : Fs :=
  filter (fun e => negb (String.eqb (fst e) p || under p (fst e))) fs.

Fixpoint mkdirp (fuel : nat) (p : string) (fs : Fs) : result ErrnoException unit * Fs :=
  match Js.get p fs with
  | Some KDir => (Ok tt, fs)
  | Some (KFile _) => (Err (errno "EEXIST"), fs)
  | None =>
      match fuel with
      | 0 => (Err (errno "ENOENT"), fs)
      | S fuel' =>
          match mkdirp fuel' (Path.dirname p) fs with
          | (Ok _, fs') => (Ok tt, (fs' ++ [(p, KDir)])%list)
          | (Err e, fs') => (Err e, fs')
          end
      end
  end.

(** The names of a directory in the order of their bytes. *)
Fixpoint insert_name (x : string) (l : list string) : list string :=
  match l with
  | [] => [x]
  | y :: l' => if String.leb x y then x :: l else y :: insert_name x l'
  end.

Definition sort_names (l : list string) : list string := fold_right insert_name [] l.

Definition move (oldPath newPath : string) (e : string * Kind) : string * Kind :=
  if String.eqb (fst e) oldPath then (newPath, snd e)
  else if under oldPath (fst e)
       then (newPath ++ String.substring (String.length oldPath)
                          (String.length (fst e) - String.length oldPath) (fst e), snd e)
       else e.

Definition handle (X : Type) (e : FsE X) (fs : Fs) : X * Fs :=
  match e in FsE X return X * Fs with
  | FsExists p => (match Js.get p fs with Some _ => true | None => false end, fs)
  | FsStat p =>
      match Js.get p fs with
      | Some (KFile c) => (Ok (mkStats true false false (String.length c) 0 0), fs)
      | Some KDir => (Ok (mkStats false true false 0 0 0), fs)
      | None => (Err (errno "ENOENT"), fs)
      end
  | FsReaddir p =>
      match Js.get p fs with
      | Some KDir =>
          (Ok (sort_names
                 (map (fun e => Path.basename (fst e))
                      (filter (fun e => String.eqb (Path.dirname (fst e)) p
                                        && negb (String.eqb (fst e) p)) fs))), fs)
      | Some (KFile _) => (Err (errno "ENOTDIR"), fs)
      | None => (Err (errno "ENOENT"), fs)
      end
  | FsReadFile p =>
      match Js.get p fs with
      | Some (KFile c) => (Ok c, fs)
      | Some KDir => (Err (errno "EISDIR"), fs)
      | None => (Err (errno "ENOENT"), fs)
      end
  | FsWriteFile p c =>
      match Js.get p fs, Js.get (Path.dirname p) fs with
      | Some KDir, _ => (Err (errno "EISDIR"), fs)
      | _, Some KDir => (Ok tt, set p (KFile c) fs)
      | _, _ => (Err (errno "ENOENT"), fs)
      end
  | Rimraf p => (Ok tt, remove_tree p fs)
  | Mkdirp p => mkdirp (S (String.length p)) p fs
  | FsRename oldPath newPath =>
      match Js.get oldPath fs, Js.get (Path.dirname newPath) fs with
      | Some _, Some KDir => (Ok tt, map (move oldPath newPath) (remove_tree newPath fs))
      | _, _ => (Err (errno "ENOENT"), fs)
      end
  | FsUnlink p =>
      match Js.get p fs with
      | Some (KFile _) => (Ok tt, remove_tree p fs)
      | Some KDir => (Err (errno "EISDIR"), fs)
      | None => (Err (errno "ENOENT"), fs)
      end
  end.

End MemFs.

(** ** The [jsonc-parser] library

    A model of the three functions the outline provider imports:
    [parseTree], [getLocation] (its [path] field) and [findNodeAtLocation].
    In the library the first two are visitors over one scan of the text.
    The model follows the library on well-formed JSON texts without
    comments and without escape sequences in strings; a number is kept as
    its literal text.  What the library makes of a text with a syntax
    error (a missing colon or comma, an unknown word) is not modelled.

    A node of the library points to its parent.  Here a node is reached by
    a [NodeRef], the list of child indices that leads to it from the root,
    so that the parent of a node is the reference without its last index. *)

Module Jsonc.

Local Open Scope nat_scope.

Inductive NodeType : Type :=
| TObject | TArray | TProperty | TString | TNumber | TBoolean | TNull.

Definition NodeType_eqb (a b : NodeType) : bool :=
  match a, b with
  | TObject, TObject | TArray, TArray | TProperty, TProperty
  | TString, TString | TNumber, TNumber | TBoolean, TBoolean
  | TNull, TNull => true
  | _, _ => false
  end.

Definition type_name (t : NodeType) : string :=
  match t with
  | TObject => "object" | TArray => "array" | TProperty => "property"
  | TString => "string" | TNumber => "number" | TBoolean => "boolean"
  | TNull => "null"
  end.

(** The [value] of a literal node; a number is kept as its literal text. *)
Inductive Value : Type :=
| VString (s : string)
| VNumber (literal : string)
| VBoolean (b : bool)
| VNull.

Definition Value_eqb (a b : Value) : bool :=
  match a, b with
  | VString x, VString y => String.eqb x y
  | VNumber x, VNumber y => String.eqb x y
  | VBoolean x, VBoolean y => Bool.eqb x y
  | VNull, VNull => true
  | _, _ => false
  end.

Definition getNodeType (v : Value) : NodeType :=
  match v with
  | VString _ => TString
  | VNumber _ => TNumber
  | VBoolean _ => TBoolean
  | VNull => TNull
  end.

(** [value] is [None] where the library leaves the field out (objects,
    arrays, properties); [children] is [None] for a literal. *)
Inductive Node : Type :=
| mkNode (type : NodeType) (value : option Value) (offset length : nat)
         (children : option (list Node)).

Definition type (n : Node) : NodeType := let 'mkNode t _ _ _ _ := n in t.
Definition value (n : Node) : option Value := let 'mkNode _ v _ _ _ := n in v.
Definition offset (n : Node) : nat := let 'mkNode _ _ o _ _ := n in o.
Definition length (n : Node) : nat := let 'mkNode _ _ _ l _ := n in l.
Definition children (n : Node) : option (list Node) := let 'mkNode _ _ _ _ c := n in c.

Definition NodeRef : Type := list nat.

Fixpoint node_at (root : Node) (ref : NodeRef) : option Node :=
  match ref with
  | [] => Some root
  | i :: ref' =>
      match children root with
      | Some cs =>
          match nth_error cs i with
          | Some c => node_at c ref'
          | None => None
          end
      | None => None
      end
  end.

(** [node.parent]: [None] for the root. *)
Definition parent_ref (ref : NodeRef) : option NodeRef :=
  match ref with
  | [] => None
  | _ => Some (removelast ref)
  end.

(** The index of a node among the children of its parent:
    [parent.children.indexOf(node)]. *)
Definition index_in_parent (ref : NodeRef) : nat := last ref 0.

Inductive Segment : Type :=
| SegName (name : string)
| SegIndex (index : nat).

Definition JSONPath : Type := list Segment.

(** *** The scan *)

Inductive TokenKind : Type :=
| OpenBrace | CloseBrace | OpenBracket | CloseBracket | Colon | Comma
| StringLiteral (s : string)
| Word (w : string).

Record Token : Type := mkToken { kind : TokenKind; tok_offset : nat; tok_length : nat }.

Inductive ScanState : Type :=
| Idle
| InString (start : nat) (acc : list ascii)
| InWord (start : nat) (acc : list ascii).

Definition is_space (c : ascii) : bool :=
  Ascii.eqb c " "%char || Ascii.eqb c "009"%char
  || Ascii.eqb c "010"%char || Ascii.eqb c "013"%char.

Definition punctuation (c : ascii) : option TokenKind :=
  if Ascii.eqb c "{"%char then Some OpenBrace
  else if Ascii.eqb c "}"%char then Some CloseBrace
  else if Ascii.eqb c "["%char then Some OpenBracket
  else if Ascii.eqb c "]"%char then Some CloseBracket
  else if Ascii.eqb c ":"%char then Some Colon
  else if Ascii.eqb c ","%char then Some Comma
  else None.

Definition quote : ascii := ascii_of_nat 34.

(** A character met outside a string and outside a word. *)
Definition scan_idle (c : ascii) (off : nat) : list Token * ScanState :=
  if is_space c then ([], Idle)
  else match punctuation c with
       | Some k => ([mkToken k off 1], Idle)
       | None => if Ascii.eqb c quote then ([], InString off [])
                 else ([], InWord off [c])
       end.

Definition word_token (start : nat) (acc : list ascii) : Token :=
  mkToken (Word (string_of_list_ascii (rev acc))) start (List.length acc).

Fixpoint scan (cs : list ascii) (off : nat) (st : ScanState) : list Token :=
  match cs with
  | [] =>
      match st with
      | InWord start acc => [word_token start acc]
      | _ => []
      end
  | c :: cs' =>
      match st with
      | Idle =>
          let (ts, st') := scan_idle c off in (ts ++ scan cs' (S off) st')%list
      | InString start acc =>
          if Ascii.eqb c quote
          then mkToken (StringLiteral (string_of_list_ascii (rev acc))) start (S off - start)
               :: scan cs' (S off) Idle
          else scan cs' (S off) (InString start (c :: acc))
      | InWord start acc =>
          if is_space c || Ascii.eqb c quote
             || match punctuation c with Some _ => true | None => false end
          then let (ts, st') := scan_idle c off in
               (word_token start acc :: ts ++ scan cs' (S off) st')%list
          else scan cs' (S off) (InWord start (c :: acc))
      end
  end.

Definition word_value (w : string) : Value :=
  if String.eqb w "true" then VBoolean true
  else if String.eqb w "false" then VBoolean false
  else if String.eqb w "null" then VNull
  else VNumber w.

(** *** The visitor events *)

Inductive Event : Type :=
| onObjectBegin (offset length : nat)
| onObjectProperty (name : string) (offset length : nat)
| onObjectEnd (offset length : nat)
| onArrayBegin (offset length : nat)
| onArrayEnd (offset length : nat)
| onLiteralValue (value : Value) (offset length : nat)
| onSeparator (sep : string) (offset length : nat).

(** Where the scan is: in an object before a property name, in an object
    after the colon, or in an array. *)
Inductive Context : Type :=
| AtKey | AtValue | InArray.

Fixpoint visit_tokens (ts : list Token) (stack : list Context) : list Event :=
  match ts with
  | [] => []
  | t :: ts' =>
      let o := tok_offset t in
      let l := tok_length t in
      match kind t with
      | OpenBrace => onObjectBegin o l :: visit_tokens ts' (AtKey :: stack)
      | CloseBrace => onObjectEnd o l :: visit_tokens ts' (tl stack)
      | OpenBracket => onArrayBegin o l :: visit_tokens ts' (InArray :: stack)
      | CloseBracket => onArrayEnd o l :: visit_tokens ts' (tl stack)
      | Colon =>
          onSeparator ":" o l ::
          visit_tokens ts' (match stack with AtKey :: s => AtValue :: s | _ => stack end)
      | Comma =>
          onSeparator "," o l ::
          visit_tokens ts' (match stack with AtValue :: s => AtKey :: s | _ => stack end)
      | StringLiteral s =>
          match stack with
          | AtKey :: _ => onObjectProperty s o l :: visit_tokens ts' stack
          | _ => onLiteralValue (VString s) o l :: visit_tokens ts' stack
          end
      | Word w => onLiteralValue (word_value w) o l :: visit_tokens ts' stack
      end
  end.

Definition visit (text : string) : list Event :=
  visit_tokens (scan (list_ascii_of_string text) 0 Idle) [].

(** *** [getLocation(text, position).path]

    [segments] is kept with its last element first.  Every callback returns
    early once the position is reached. *)

Definition set_last (s : Segment) (segments : list Segment) : list Segment :=
  match segments with
  | _ :: segments' => s :: segments'
  | [] => []
  end.

Fixpoint location_path (events : list Event) (position : nat) (segments : list Segment)
  : JSONPath :=
  match events with
  | [] => rev segments
  | e :: events' =>
      match e with
      | onObjectBegin offset _ =>
          if position <=? offset then rev segments
          else location_path events' position (SegName "" :: segments)
      | onObjectProperty name offset length =>
          if position <? offset then rev segments
          else let segments' := set_last (SegName name) segments in
               if position <=? offset + length then rev segments'
               else location_path events' position segments'
      | onObjectEnd offset _ =>
          if position <=? offset then rev segments
          else location_path events' position (tl segments)
      | onArrayBegin offset _ =>
          if position <=? offset then rev segments
          else location_path events' position (SegIndex 0 :: segments)
      | onArrayEnd offset _ =>
          if position <=? offset then rev segments
          else location_path events' position (tl segments)
      | onLiteralValue _ offset length =>
          if position <? offset then rev segments
          else if position <=? offset + length then rev segments
          else location_path events' position segments
      | onSeparator sep offset _ =>
          if position <=? offset then rev segments
          else if String.eqb sep "," then
            match segments with
            | SegIndex last :: segments' =>
                location_path events' position (SegIndex (last + 1) :: segments')
            | _ => location_path events' position (set_last (SegName "") segments)
            end
          else location_path events' position segments
      end
  end.

Definition getLocation (text : string) (position : nat) : JSONPath :=
  location_path (visit text) position [].

(** *** [parseTree(text)]

    A frame is a node under construction: its type, its offset and the
    children it has so far, last one first.  [currentParent] is the top of
    the stack; the artificial root closes the stack. *)

Record Frame : Type := mkFrame {
  f_type : NodeType;
  f_offset : nat;
  f_children : list Node
}.

Definition artificial_root : Frame := mkFrame TArray 0 [].

Definition add_child (n : Node) (f : Frame) : Frame :=
  mkFrame (f_type f) (f_offset f) (n :: f_children f).

(** The current parent is finished at [endOffset] and handed to the frame
    below it. *)
Definition close_top (endOffset : nat) (stack : list Frame) (bottom : Frame)
  : list Frame * Frame :=
  match stack with
  | [] => ([], bottom)
  | f :: stack' =>
      let n := mkNode (f_type f) None (f_offset f) (endOffset - f_offset f)
                      (Some (rev (f_children f))) in
      match stack' with
      | g :: stack'' => (add_child n g :: stack'', bottom)
      | [] => ([], add_child n bottom)
      end
  end.

Definition ensurePropertyComplete (endOffset : nat) (stack : list Frame) (bottom : Frame)
  : list Frame * Frame :=
  match stack with
  | f :: _ => if NodeType_eqb (f_type f) TProperty then close_top endOffset stack bottom
              else (stack, bottom)
  | [] => (stack, bottom)
  end.

Definition onValue (n : Node) (stack : list Frame) (bottom : Frame)
  : list Frame * Frame :=
  match stack with
  | f :: stack' => (add_child n f :: stack', bottom)
  | [] => ([], add_child n bottom)
  end.

Definition tree_step (sb : list Frame * Frame) (e : Event) : list Frame * Frame :=
  let (stack, bottom) := sb in
  match e with
  | onObjectBegin offset _ => (mkFrame TObject offset [] :: stack, bottom)
  | onObjectProperty name offset length =>
      (mkFrame TProperty offset [mkNode TString (Some (VString name)) offset length None]
         :: stack, bottom)
  | onObjectEnd offset length =>
      let (stack1, bottom1) := ensurePropertyComplete (offset + length) stack bottom in
      let (stack2, bottom2) := close_top (offset + length) stack1 bottom1 in
      ensurePropertyComplete (offset + length) stack2 bottom2
  | onArrayBegin offset _ => (mkFrame TArray offset [] :: stack, bottom)
  | onArrayEnd offset length =>
      let (stack1, bottom1) := close_top (offset + length) stack bottom in
      ensurePropertyComplete (offset + length) stack1 bottom1
  | onLiteralValue value offset length =>
      let (stack1, bottom1) :=
        onValue (mkNode (getNodeType value) (Some value) offset length None) stack bottom in
      ensurePropertyComplete (offset + length) stack1 bottom1
  | onSeparator sep offset _ =>
      if String.eqb sep "," then ensurePropertyComplete offset stack bottom
      else (stack, bottom)
  end.

(** Frames left open at the end of the text are closed where they stand. *)
Fixpoint close_all (fuel : nat) (stack : list Frame) (bottom : Frame) : Frame :=
  match fuel, stack with
  | S fuel', f :: _ =>
      let (stack', bottom') := close_top (f_offset f) stack bottom in
      close_all fuel' stack' bottom'
  | _, _ => bottom
  end.

Definition parseTree (text : string) : option Node :=
  let (stack, bottom) := fold_left tree_step (visit text) ([], artificial_root) in
  let root := close_all (List.length stack) stack bottom in
  match rev (f_children root) with
  | result :: _ => Some result
  | [] => None
  end.

(** *** [findNodeAtLocation(root, path)] *)

(** The property of [node] whose key is [segment] and that has a value: its
    index among the children. *)
Fixpoint find_property (segment : string) (props : list Node) (i : nat) : option nat :=
  match props with
  | [] => None
  | propertyNode :: props' =>
      match children propertyNode with
      | Some [k; _] =>
          match value k with
          | Some (VString s) =>
              if String.eqb s segment then Some i else find_property segment props' (S i)
          | _ => find_property segment props' (S i)
          end
      | _ => find_property segment props' (S i)
      end
  end.

Fixpoint find_from (node : Node) (ref : NodeRef) (path : JSONPath) : option NodeRef :=
  match path with
  | [] => Some ref
  | SegName segment :: path' =>
      match type node, children node with
      | TObject, Some cs =>
          match find_property segment cs 0 with
          | Some i =>
              match node_at node [i; 1] with
              | Some v => find_from v (ref ++ [i; 1])%list path'
              | None => None
              end
          | None => None
          end
      | _, _ => None
      end
  | SegIndex index :: path' =>
      match type node, children node with
      | TArray, Some cs =>
          match nth_error cs index with
          | Some c => find_from c (ref ++ [index])%list path'
          | None => None
          end
      | _, _ => None
      end
  end.

Definition findNodeAtLocation (root : option Node) (path : JSONPath) : option NodeRef :=
  match root with
  | None => None
  | Some root => find_from root [] path
  end.

End Jsonc.

(** ** jsonOutline.ts: the JSON outline provider *)

Module JsonOutline.

Import Jsonc.
Local Open Scope nat_scope.

(** *** The editor host

    An editor is known by an id; [editors] gives the document each editor
    shows, so that the provider's [editor] field and the host's
    [activeTextEditor] may refer to the same live document.  Positions of a
    document are kept as offsets. *)

Record TextDocument : Type := mkTextDocument {
  doc_uri : Uri.t;
  languageId : string;
  getText : string
}.

Record Host : Type := mkHost {
  editors : list (nat * TextDocument);
  activeTextEditor : option nat;
  (** [workspace.getConfiguration('jsonOutline').get('autorefresh')] *)
  autorefresh : bool;
  (** the last value given to the context key [jsonOutlineEnabled] *)
  jsonOutlineEnabled : option bool
}.

Fixpoint lookup_editor (id : nat) (l : list (nat * TextDocument)) : option TextDocument :=
  match l with
  | [] => None
  | (id', d) :: l' => if Nat.eqb id id' then Some d else lookup_editor id l'
  end.

(** [editor.document] of an editor reference. *)
Definition document (h : Host) (editor : option nat) : option TextDocument :=
  match editor with
  | Some id => lookup_editor id (editors h)
  | None => None
  end.

(** [document.positionAt(offset)], as an offset: clipped to the text. *)
Definition positionAt (d : TextDocument) (offset : nat) : nat :=
  Nat.min offset (String.length (getText d)).

(** [document.getText(new Range(start, end))]. *)
Definition getText_range (d : TextDocument) (start end_ : nat) : string :=
  String.substring start (end_ - start) (getText d).

(** *** The provider *)

Record Provider : Type := mkProvider {
  tree : option Node;
  text : string;
  editor : option nat;
  autoRefresh : bool;
  (** [context], used for [asAbsolutePath] only *)
  extensionPath : string
}.

(** One delivery of [_onDidChangeTreeData]: the payload, and the host and
    the provider as a listener finds them when it is called. *)
Record Fired : Type := mkFired {
  payload : option nat;
  seen_host : Host;
  seen_this : Provider
}.

Record State : Type := mkState {
  host : Host;
  this : Provider;
  fired : list Fired
}.

Definition fire (p : option nat) (st : State) : State :=
  mkState (host st) (this st) (fired st ++ [mkFired p (host st) (this st)]).

Definition doParseTree (st : State) : State :=
  let p := this st in
  let editor' := activeTextEditor (host st) in
  match document (host st) editor' with
  | Some d =>
      mkState (host st)
              (mkProvider (parseTree (getText d)) (getText d) editor'
                          (autoRefresh p) (extensionPath p))
              (fired st)
  | None =>
      mkState (host st)
              (mkProvider None "" editor' (autoRefresh p) (extensionPath p))
              (fired st)
  end.

(** [refresh(offset)]; [None] is a call without argument. *)
Definition refresh (offset : option nat) (st : State) : State :=
  let st := doParseTree st in
  match offset with
  | Some o => if Js.truthy_nat o then fire (Some o) st else fire None st
  | None => fire None st
  end.

Definition node_of (p : Provider) (ref : NodeRef) : option Node :=
  match tree p with
  | Some root => node_at root ref
  | None => None
  end.

Definition cannot_read (what prop : string) : JsError :=
  TypeError ("Cannot read properties of " ++ what ++ " (reading '" ++ prop ++ "')").

(** [getChildrenOffsets(node)]; the argument is the result of
    [findNodeAtLocation], or the root. *)
Definition getChildrenOffsets (p : Provider) (node : option NodeRef)
  : result JsError (list nat) :=
  match node with
  | None => Err (cannot_read "undefined" "children")
  | Some ref =>
      match node_of p ref with
      | None => Err (cannot_read "undefined" "children")
      | Some n =>
          match children n with
          | None => Err (TypeError "node.children is not iterable")
          | Some cs =>
              Ok (flat_map
                    (fun child =>
                       let childLocation := getLocation (text p) (offset child) in
                       match findNodeAtLocation (tree p) childLocation with
                       | Some childRef =>
                           match node_of p childRef with
                           | Some childNode => [offset childNode]
                           | None => []
                           end
                       | None => []
                       end) cs)
          end
      end
  end.

Definition getChildren (offset : option nat) (st : State) : result JsError (list nat) :=
  let p := this st in
  match offset with
  | Some (S _ as o) =>
      let path := getLocation (text p) o in
      let node := findNodeAtLocation (tree p) path in
      getChildrenOffsets p node
  | _ =>
      match tree p with
      | Some _ => getChildrenOffsets p (Some [])
      | None => Ok []
      end
  end.

Inductive TreeItemCollapsibleState : Type :=
| None_ | Collapsed | Expanded.

Record Command : Type := mkCommand {
  command : string;
  title : string;
  (** the one argument: a range, as its two offsets *)
  arguments : nat * nat
}.

Record Icon : Type := mkIcon { light : string; dark : string }.

Record TreeItem : Type := mkTreeItem {
  label : string;
  collapsibleState : TreeItemCollapsibleState;
  item_command : option Command;
  iconPath : option Icon;
  contextValue : string
}.

(** [context.asAbsolutePath(relativePath)]. *)
Definition asAbsolutePath (p : Provider) (relativePath : string) : string :=
  Path.join [extensionPath p; relativePath].

Definition icon (p : Provider) (file : string) : Icon :=
  {| light := asAbsolutePath p (Path.join ["resources"; "light"; file]);
     dark := asAbsolutePath p (Path.join ["resources"; "dark"; file]) |}.

Definition getIcon (p : Provider) (node : Node) : option Icon :=
  match type node with
  | TBoolean => Some (icon p "boolean.svg")
  | TString => Some (icon p "string.svg")
  | TNumber => Some (icon p "number.svg")
  | _ => None
  end.

Definition nat_toString (n : nat) : string :=
  DecimalString.NilZero.string_of_uint (Nat.to_uint n).

(** [value.toString()].  A number is kept as its literal text, which is what
    JavaScript prints for a literal written the way it prints numbers ([1],
    [-2], [0.5]), not for other literals ([1.0], [1e2]). *)
Definition value_toString (v : option Value) : result JsError string :=
  match v with
  | Some (VString s) => Ok s
  | Some (VNumber literal) => Ok literal
  | Some (VBoolean b) => Ok (if b then "true" else "false")
  | Some VNull => Err (cannot_read "null" "toString")
  | None => Err (cannot_read "undefined" "toString")
  end.

Definition getLabel (st : State) (ref : NodeRef) : result JsError string :=
  let p := this st in
  match node_of p ref, parent_ref ref with
  | Some node, Some pref =>
      match node_of p pref with
      | Some parent =>
          if NodeType_eqb (type parent) TArray then
            let prefix := nat_toString (index_in_parent ref) in
            match type node with
            | TObject => Ok (prefix ++ ":{ }")
            | TArray => Ok (prefix ++ ":[ ]")
            | _ => match value_toString (value node) with
                   | Ok s => Ok (prefix ++ ":" ++ s)
                   | Err e => Err e
                   end
            end
          else
            match children parent with
            | Some (k :: _) =>
                match value_toString (value k) with
                | Err e => Err e
                | Ok property =>
                    match type node with
                    | TObject => Ok ("{ } " ++ property)
                    | TArray => Ok ("[ ] " ++ property)
                    | _ =>
                        match document (host st) (editor p) with
                        | None => Err (cannot_read "null" "document")
                        | Some d =>
                            let value := getText_range d (positionAt d (offset node))
                                           (positionAt d (offset node + length node)) in
                            Ok (property ++ ": " ++ value)
                        end
                    end
                end
            | _ => Err (cannot_read "undefined" "value")
            end
      | None => Err (cannot_read "undefined" "type")
      end
  | _, _ => Err (cannot_read "undefined" "type")
  end.

(** [getTreeItem(offset)]; the returned [null] is [Ok None]. *)
Definition getTreeItem (offset_ : nat) (st : State) : result JsError (option TreeItem) :=
  let p := this st in
  let location := getLocation (text p) offset_ in
  match findNodeAtLocation (tree p) location with
  | Some ref =>
      match node_of p ref with
      | Some valueNode =>
          let hasChildren := NodeType_eqb (type valueNode) TObject
                             || NodeType_eqb (type valueNode) TArray in
          match getLabel st ref with
          | Err e => Err e
          | Ok label_ =>
              match document (host st) (editor p) with
              | None => Err (cannot_read "null" "document")
              | Some d =>
                  Ok (Some
                    {| label := label_;
                       collapsibleState :=
                         if hasChildren
                         then (if NodeType_eqb (type valueNode) TObject
                               then Expanded else Collapsed)
                         else None_;
                       item_command :=
                         Some {| command := "extension.openJsonSelection";
                                 title := "";
                                 arguments :=
                                   (positionAt d (offset valueNode),
                                    positionAt d (offset valueNode + length valueNode)) |};
                       iconPath := getIcon p valueNode;
                       contextValue := type_name (type valueNode) |})
              end
          end
      | None => Ok None
      end
  | None => Ok None
  end.

(** *** Edits and the listeners *)

(** One entry of [contentChanges]: the start of the changed range. *)
Record ContentChange : Type := mkContentChange { range_start : nat }.

Record TextDocumentChangeEvent : Type := mkChangeEvent {
  ev_document : Uri.t;
  contentChanges : list ContentChange
}.

(** The [node] that the body of the loop of [onDocumentChanged] finds before
    it parses again: the node at the location of the change without its
    last segment, none when nothing is left of the path. *)
Definition changed_node (p : Provider) (change : ContentChange) : option Node :=
  let locationPath := removelast (getLocation (text p) (range_start change)) in
  match locationPath with
  | [] => None
  | _ => match findNodeAtLocation (tree p) locationPath with
         | Some ref => node_of p ref
         | None => None
         end
  end.

(** The body of the loop of [onDocumentChanged]. *)
Definition onDocumentChanged_step (st : State) (change : ContentChange) : State :=
  let node := changed_node (this st) change in
  let st := doParseTree st in
  fire (option_map offset node) st.

Definition onDocumentChanged (changeEvent : TextDocumentChangeEvent) (st : State)
  : result JsError unit * State :=
  match editor (this st) with
  | None => (Err (cannot_read "null" "document"), st)
  | Some _ =>
      match document (host st) (editor (this st)) with
      | None => (Err (cannot_read "undefined" "uri"), st)
      | Some d =>
          if autoRefresh (this st) && Uri.eqb (ev_document changeEvent) (doc_uri d)
          then (Ok tt, fold_left onDocumentChanged_step (contentChanges changeEvent) st)
          else (Ok tt, st)
      end
  end.

Definition set_enabled (b : bool) (st : State) : State :=
  mkState (mkHost (editors (host st)) (activeTextEditor (host st))
                  (autorefresh (host st)) (Some b))
          (this st) (fired st).

Definition onActiveEditorChanged (st : State) : State :=
  match activeTextEditor (host st) with
  | Some id =>
      match lookup_editor id (editors (host st)) with
      | Some d =>
          if String.eqb (Uri.scheme (doc_uri d)) "file" then
            let enabled := String.eqb (languageId d) "json"
                           || String.eqb (languageId d) "jsonc" in
            let st := set_enabled enabled st in
            if enabled then refresh None st else st
          else st
      | None => st
      end
  | None => set_enabled false st
  end.

(** The listener of [onDidChangeConfiguration]. *)
Definition onConfigurationChanged (st : State) : State :=
  let p := this st in
  mkState (host st)
          (mkProvider (tree p) (text p) (editor p) (autorefresh (host st)) (extensionPath p))
          (fired st).

(** [new JsonOutlineProvider(context)]. *)
Definition constructor (h : Host) (extensionPath : string) : State :=
  let st := mkState h (mkProvider None "" None true extensionPath) [] in
  let st := doParseTree st in
  let st := onConfigurationChanged st in
  onActiveEditorChanged st.

(** The template literal that puts [value] between two double quotes. *)
Definition quote_string (value : string) : string :=
  String Jsonc.quote (value ++ String Jsonc.quote "").

(** The callback given to [this.editor.edit]: the range it replaces and the
    replacement. *)
Definition rename_edit (st : State) (d : TextDocument) (offset_ : nat) (value : string)
  : result JsError (nat * nat * string) :=
  let p := this st in
  let locationPath := getLocation (text p) offset_ in
  match findNodeAtLocation (tree p) locationPath with
  | None => Err (cannot_read "undefined" "parent")
  | Some ref =>
      match parent_ref ref with
      | None => Err (cannot_read "undefined" "type")
      | Some pref =>
          match node_of p pref with
          | None => Err (cannot_read "undefined" "type")
          | Some parent =>
              let ref' := if negb (NodeType_eqb (type parent) TArray)
                          then (pref ++ [0])%list else ref in
              match node_of p ref' with
              | None => Err (cannot_read "undefined" "offset")
              | Some propertyNode =>
                  Ok (positionAt d (offset propertyNode),
                      positionAt d (offset propertyNode + length propertyNode),
                      quote_string value)
              end
          end
      end
  end.

(** The host applies a replace edit to the document of an editor; every
    editor that shows the document sees the new text. *)
Definition replace_text (start end_ : nat) (s : string) (t : string) : string :=
  String.substring 0 start t ++ s
  ++ String.substring end_ (String.length t - end_) t.

Definition edit_document (u : Uri.t) (start end_ : nat) (s : string) (d : TextDocument)
  : TextDocument :=
  if Uri.eqb (doc_uri d) u
  then mkTextDocument (doc_uri d) (languageId d) (replace_text start end_ s (getText d))
  else d.

Definition apply_edit (u : Uri.t) (start end_ : nat) (s : string) (h : Host) : Host :=
  mkHost (map (fun e => (fst e, edit_document u start end_ s (snd e))) (editors h))
         (activeTextEditor h) (autorefresh h) (jsonOutlineEnabled h).

(** What the host does with the edit that the callback of [editor.edit] has
    built.  The callback arms the timer before the host decides, so the
    timer callback runs in each case: after the edit and the call of the
    document-change listener, before them, or without them when the host
    refuses the edit.  No other event falls between these steps. *)
Inductive EditOutcome : Type :=
| AppliedBeforeTimer
| AppliedAfterTimer
| NotApplied.

(** The host applies the edit to the document [d] and calls the
    document-change listener with the one change; an exception of the
    listener stays with the host. *)
Definition edit_applied (d : TextDocument) (start end_ : nat) (replacement : string)
  (st : State) : State :=
  let st1 := mkState (apply_edit (doc_uri d) start end_ replacement (host st))
                     (this st) (fired st) in
  snd (onDocumentChanged (mkChangeEvent (doc_uri d) [mkContentChange start]) st1).

(** The callback given to [setTimeout]. *)
Definition timer_callback (offset_ : nat) (st : State) : State :=
  refresh (Some offset_) (doParseTree st).

(** [rename(offset)], with the answer of the input box as [value] and with
    what the host does with the edit as [outcome].  An exception in the edit
    callback leaves [rename] before the timer is armed and before any
    edit. *)
Definition rename (offset_ : nat) (value : option string) (outcome : EditOutcome)
  (st : State) : result JsError unit * State :=
  match value with
  | None => (Ok tt, st)
  | Some value =>
      match editor (this st) with
      | None => (Err (cannot_read "null" "edit"), st)
      | Some _ =>
          match document (host st) (editor (this st)) with
          | None => (Err (cannot_read "undefined" "positionAt"), st)
          | Some d =>
              match rename_edit st d offset_ value with
              | Err e => (Err e, st)
              | Ok (start, end_, replacement) =>
                  match outcome with
                  | AppliedBeforeTimer =>
                      (Ok tt, timer_callback offset_
                                (edit_applied d start end_ replacement st))
                  | AppliedAfterTimer =>
                      (Ok tt, edit_applied d start end_ replacement
                                (timer_callback offset_ st))
                  | NotApplied => (Ok tt, timer_callback offset_ st)
                  end
              end
          end
      end
  end.

(** A delivery finds the provider fresh when its text is the text of the
    active editor's document and its tree is the parse of that text (no
    text and no tree without such a document). *)
Definition fresh (f : Fired) : Prop :=
  match document (seen_host f) (activeTextEditor (seen_host f)) with
  | Some d => text (seen_this f) = getText d
              /\ tree (seen_this f) = parseTree (getText d)
  | None => text (seen_this f) = "" /\ tree (seen_this f) = None
  end.

(** The deliveries made on the way from [st] to [st']. *)
Definition published (st st' : State) : list Fired :=
  skipn (List.length (fired st)) (fired st').

(** Single quotes stand for double quotes in the JSON texts written below. *)
Definition json (s : string) : string :=
  string_of_list_ascii
    (map (fun c => if Ascii.eqb c "'"%char then Jsonc.quote else c)
         (list_ascii_of_string s)).

End JsonOutline.

(** ** nodeDependencies: the package-dependency lister *)

Module NodeDependencies.

Local Open Scope prog_scope.

(** What [JSON.parse] gives for a [package.json]: the two fields the
    provider reads, each absent or an object from module names to versions,
    its properties in the order of the text, each name once. *)
Record PackageJson : Type := mkPackageJson {
  dependencies : option (list (string * string));
  devDependencies : option (list (string * string))
}.

(** The calls that leave the provider: [fs.accessSync] (the answer tells
    whether it returned without throwing), the reading and parsing of a
    [package.json] (an [Err] is the exception of [fs.readFileSync] or of
    [JSON.parse]) and [window.showInformationMessage]. *)
Inductive DepE : Type -> Type :=
| AccessSync (p : string) : DepE bool
| ReadPackageJson (p : string) : DepE (result string PackageJson)
| ShowInformationMessage (message : string) : DepE unit.

Inductive TreeItemCollapsibleState : Type :=
| None_ | Collapsed | Expanded.

Record Command : Type := mkCommand {
  command : string;
  title : string;
  arguments : list string
}.

(** class [Dependency]; [filename] is [__filename]. *)
Record Dependency : Type := mkDependency {
  label : string;
  version : string;
  collapsibleState : TreeItemCollapsibleState;
  item_command : option Command;
  tooltip : string;
  description : string;
  iconPath : string * string;
  contextValue : string
}.

Definition new_Dependency (filename : string) (label version : string)
  (collapsibleState : TreeItemCollapsibleState) (command : option Command) : Dependency :=
  {| label := label;
     version := version;
     collapsibleState := collapsibleState;
     item_command := command;
     tooltip := label ++ "-" ++ version;
     description := version;
     iconPath := (Path.join [filename; ".."; ".."; "resources"; "light"; "dependency.svg"],
                  Path.join [filename; ".."; ".."; "resources"; "dark"; "dependency.svg"]);
     contextValue := "dependency" |}.

Definition pathExists (p : string) : prog DepE bool := call (AccessSync p).

(** [list.map(f)] where [f] calls the outside: the calls are made in the
    order of the list. *)
Fixpoint mapM {E A B} (f : A -> prog E B) (l : list A) : prog E (list B) :=
  match l with
  | [] => Ret []
  | x :: l' =>
      y <- f x ;;
      ys <- mapM f l' ;;
      Ret (y :: ys)
  end.

Section Provider.

(** [workspaceRoot] is [workspace.rootPath]: [None] when no folder is
    open. *)
Variable filename : string.
Variable workspaceRoot : option string.

(** The truthy [workspaceRoot], for the places behind the test
    [!this.workspaceRoot]. *)
Definition root_path : string :=
  match workspaceRoot with Some r => r | None => "" end.

Definition toDep (dep : string * string) : prog DepE Dependency :=
  let moduleName := fst dep in
  let version := snd dep in
  e <- pathExists (Path.join [root_path; "node_modules"; moduleName]) ;;
  if e then Ret (new_Dependency filename moduleName version Collapsed None)
  else Ret (new_Dependency filename moduleName version None_
              (Some {| command := "extension.openPackageOnNpm";
                       title := "";
                       arguments := [moduleName] |})).

(** [field ? Object.keys(field).map(dep => toDep(dep, field[dep])) : []]. *)
Definition deps_of (field : option (list (string * string))) : prog DepE (list Dependency) :=
  match field with
  | Some o => mapM toDep (Js.entries o)
  | None => Ret []
  end.

Definition getDepsInPackageJson (packageJsonPath : string)
  : prog DepE (result string (list Dependency)) :=
  e <- pathExists packageJsonPath ;;
  if e then
    packageJson <-? call (ReadPackageJson packageJsonPath) ;;
    deps <- deps_of (dependencies packageJson) ;;
    devDeps <- deps_of (devDependencies packageJson) ;;
    Ret (Ok (deps ++ devDeps)%list)
  else Ret (Ok []).

Definition workspaceRoot_truthy : bool :=
  match workspaceRoot with
  | Some r => Js.truthy_string r
  | None => false
  end.

Definition getChildren (element : option Dependency)
  : prog DepE (result string (list Dependency)) :=
  if negb workspaceRoot_truthy then
    _ <- call (ShowInformationMessage "No dependency in empty workspace") ;;
    Ret (Ok [])
  else
    match element with
    | Some element =>
        getDepsInPackageJson
          (Path.join [root_path; "node_modules"; label element; "package.json"])
    | None =>
        let packageJsonPath := Path.join [root_path; "package.json"] in
        e <- pathExists packageJsonPath ;;
        if e then getDepsInPackageJson packageJsonPath
        else
          _ <- call (ShowInformationMessage "Workspace has no package.json") ;;
          Ret (Ok [])
    end.

Definition getTreeItem (element : Dependency) : Dependency := element.

End Provider.

(** *** Reading a trace *)

Definition is_message (e : event DepE) : bool :=
  match projT2 e with ShowInformationMessage _ => true | _ => false end.

Definition is_read (e : event DepE) : bool :=
  match projT2 e with ReadPackageJson _ => true | _ => false end.

(** *** An installation to run against: the paths that exist, and the parsed
    [package.json] files. *)
Record Installation : Type := mkInstallation {
  existing : list string;
  packages : list (string * PackageJson)
}.

Definition installation (X : Type) (e : DepE X) (w : Installation) : X * Installation :=
  match e in DepE X return X * Installation with
  | AccessSync p => (existsb (String.eqb p) (existing w), w)
  | ReadPackageJson p =>
      match Js.get p (packages w) with
      | Some pj => (Ok pj, w)
      | None => (Err "Unexpected end of JSON input", w)
      end
  | ShowInformationMessage _ => (tt, w)
  end.

End NodeDependencies.

(** ** fileExplorer: the listener that [watch] gives to [fs.watch] *)

Module FileWatcher.

Import FileExplorer.
Local Open Scope prog_scope.

Inductive FileChangeType : Type :=
| Changed | Created | Deleted.

Record FileChangeEvent : Type := mkFileChangeEvent {
  change_type : FileChangeType;
  change_uri : Uri.t
}.

(** The callback of [fs.watch] in [watch(uri, options)]: what it hands to
    [_onDidChangeFile.fire]. *)
Definition watch_listener (uri : Uri.t) (event filename : string)
  : prog FsE (list FileChangeEvent) :=
  let filepath := Path.join [Uri.fsPath uri; Utilities.normalizeNFC filename] in
  if String.eqb event "change" then
    Ret [ {| change_type := Changed; change_uri := Uri.with_path uri filepath |} ]
  else
    r <- Utilities.exists_ filepath ;;
    match r with
    | Ok true => Ret [ {| change_type := Created; change_uri := Uri.with_path uri filepath |} ]
    | _ => Ret [ {| change_type := Deleted; change_uri := Uri.with_path uri filepath |} ]
    end.

(** [_.checkCancellation(token)]. *)
Definition checkCancellation (isCancellationRequested : bool) : result string unit :=
  if isCancellationRequested then Err "Operation cancelled" else Ok tt.

End FileWatcher.

(** * Worlds and inputs of the examples *)

Module Examples.

(** A comparison of strings by character codes, standing for
    [localeCompare] where an example needs one. *)
Definition byCode (a b : string) : comparison := String.compare a b.

(** The FTP model of [FtpExplorer], and a server whose top directory holds
    the file [readme] and the directory [pub], which holds the file [b] and
    the directory [a]. *)
Definition ftpModel : Ftp.FtpModel :=
  Ftp.mkFtpModel "mirror.switch.ch" "anonymous" "anonymous@anonymous.de".

Definition mirror : Ftp.Server :=
  Ftp.mkServer true
    [ (None, [Ftp.mkIEntry "readme" "-"; Ftp.mkIEntry "pub" "d"]);
      (Some "///pub", [Ftp.mkIEntry "b" "-"; Ftp.mkIEntry "a" "d"]) ]
    [ ("/pub/b", [Some "hello "; None; Some "world"]) ]
    0 [].

(** The root node of [pub], as [roots] builds it, and a directory node that
    the server no longer has. *)
Definition pub : Ftp.FtpNode :=
  Ftp.mkFtpNode (Uri.parse "ftp://mirror.switch.ch///pub") true.

Definition gone : Ftp.FtpNode :=
  Ftp.mkFtpNode (Uri.parse "ftp://mirror.switch.ch///gone") true.

(** A workspace folder [/ws] with two files and the directories [src] and
    [n]; [n] holds the file [a.txt] and the directory [b], so that [readdir]
    names the file first. *)
Definition disk : MemFs.Fs :=
  [ ("/", MemFs.KDir); ("/ws", MemFs.KDir);
    ("/ws/z.txt", MemFs.KFile "z"); ("/ws/src", MemFs.KDir);
    ("/ws/src/b.txt", MemFs.KFile "b"); ("/ws/src/a", MemFs.KDir);
    ("/ws/a.txt", MemFs.KFile "a");
    ("/ws/n", MemFs.KDir); ("/ws/n/b", MemFs.KDir); ("/ws/n/a.txt", MemFs.KFile "a") ].

Definition workspaceFolders : option (list Uri.t) := Some [Uri.file "/ws"].

Definition n : FileExplorer.Entry :=
  FileExplorer.mkEntry (Uri.file "/ws/n") FileExplorer.Directory.

(** The document of the scenarios, shown by the one editor of the host. *)
Definition scenario_text : string := JsonOutline.json "{'a': 1, 'b': [2,3]}".

Definition document_with (text : string) : JsonOutline.TextDocument :=
  JsonOutline.mkTextDocument (Uri.file "/ws/data.json") "json" text.

Definition scenario_document : JsonOutline.TextDocument := document_with scenario_text.

Definition host_with (text : string) (autorefresh : bool) : JsonOutline.Host :=
  JsonOutline.mkHost [(0, document_with text)] (Some 0) autorefresh None.

(** The provider right after its construction. *)
Definition outline (text : string) (autorefresh : bool) : JsonOutline.State :=
  JsonOutline.constructor (host_with text autorefresh) "/ext".

(** A host without any editor. *)
Definition no_editor : JsonOutline.Host := JsonOutline.mkHost [] None true None.

End Examples.

(** ** Shapes of names, paths and listings used in the statements *)

Module Shapes.

(** An entry name of a listing, or a host name: non-empty, without slash,
    question mark, hash or percent sign.  (Without a percent sign there is
    no escape for [Uri.parse] to decode.) *)
Definition plain_name (s : string) : bool :=
  negb (String.eqb s "")
  && forallb (fun c => negb (Uri.one_of "/?#%" c)) (list_ascii_of_string s).

(** The path of a directory below the top: a slash, then a character that is
    no slash; no colon, question mark, hash or percent sign anywhere. *)
Definition plain_dir (p : string) : bool :=
  match list_ascii_of_string p with
  | c0 :: c1 :: _ => Path.is_slash c0 && negb (Path.is_slash c1)
  | _ => false
  end
  && forallb (fun c => negb (Uri.one_of ":?#%" c)) (list_ascii_of_string p).

(** A list of names without a repetition. *)
Fixpoint distinct (l : list string) : bool :=
  match l with
  | [] => true
  | x :: l' => negb (existsb (String.eqb x) l') && distinct l'
  end.

(** A field of a [package.json] in which every name stands once and no name
    is an array index. *)
Definition plain_object {A} (field : option (list (string * A))) : bool :=
  match field with
  | Some o => distinct (map fst o)
              && forallb (fun k => negb (Js.is_array_index k)) (map fst o)
  | None => true
  end.

(** The truthy buffers of a stream. *)
Definition truthy_buffers (stream : list (option string)) : list string :=
  flat_map (fun b => match b with Some s => [s] | None => [] end) stream.

(** A file-explorer listing has its directories first when every entry that
    follows an entry of another type is of another type than
    [Directory]. *)
Fixpoint entries_directories_first (l : list FileExplorer.FileType) : bool :=
  match l with
  | [] => true
  | t :: l' =>
      (FileExplorer.FileType_eqb t FileExplorer.Directory
       || forallb (fun t' => negb (FileExplorer.FileType_eqb t' FileExplorer.Directory)) l')
      && entries_directories_first l'
  end.

End Shapes.

(** ** More worlds for the examples *)

Module MoreExamples.

(** The server of [Examples.mirror] when it refuses connections. *)
Definition unreachable : Ftp.Server :=
  Ftp.mkServer false (Ftp.listings Examples.mirror) (Ftp.files Examples.mirror) 0 [].

(** A directory below the top of the FTP tree, as [getChildren] builds
    it. *)
Definition pub_a : Ftp.FtpNode := Ftp.mkFtpNode (Uri.mk "file" "" "/pub/a" "" "") true.

Definition mirror_below : Ftp.Server :=
  Ftp.mkServer true [ (Some "/pub/a", [Ftp.mkIEntry "x.txt" "-"; Ftp.mkIEntry "y" "d"]) ]
               [] 0 [].

(** A directory in which [readdir] lists a name that [stat] does not find
    (a link whose target is gone): a world that answers without changing. *)
Definition dangling (X : Type) (e : FileExplorer.FsE X) (w : unit) : X * unit :=
  match e in FileExplorer.FsE X return X * unit with
  | FileExplorer.FsReaddir _ => (Ok ["good.txt"; "link"; "z.txt"], w)
  | FileExplorer.FsStat p =>
      if String.eqb p "/ws/link" then (Err (MemFs.errno "ENOENT"), w)
      else (Ok (FileExplorer.mkStats true false false 0 0 0), w)
  | FileExplorer.FsReadFile _ => (Err (MemFs.errno "ENOENT"), w)
  | FileExplorer.FsWriteFile _ _ => (Err (MemFs.errno "EROFS"), w)
  | FileExplorer.FsExists _ => (false, w)
  | FileExplorer.Rimraf _ => (Err (MemFs.errno "EROFS"), w)
  | FileExplorer.Mkdirp _ => (Err (MemFs.errno "EROFS"), w)
  | FileExplorer.FsRename _ _ => (Err (MemFs.errno "EROFS"), w)
  | FileExplorer.FsUnlink _ => (Err (MemFs.errno "EROFS"), w)
  end.

(** A workspace [/ws] whose [package.json] names [left-pad] (installed) and
    [rimraf] (not installed) as dependencies and [left-pad] again as a
    development dependency. *)
Definition package : NodeDependencies.PackageJson :=
  NodeDependencies.mkPackageJson
    (Some [("left-pad", "1.3.0"); ("rimraf", "2.6.2")])
    (Some [("left-pad", "1.3.0")]).

(** A [package.json] that declares the dependencies [b], [10] and [7], in
    this order. *)
Definition numbered : NodeDependencies.PackageJson :=
  NodeDependencies.mkPackageJson
    (Some [("b", "1.0.0"); ("10", "3.0.0"); ("7", "2.0.0")]) None.

Definition installed : NodeDependencies.Installation :=
  NodeDependencies.mkInstallation
    ["/ws/package.json"; "/ws/node_modules/left-pad"; "/n/package.json"]
    [("/ws/package.json", package); ("/n/package.json", numbered)].

(** A document in which the property [a] sits in the object of the
    property [o]: the value [1] is at offset 12, the key [a] at offset 7 and
    the inner object at offset 6. *)
Definition nested_text : string := JsonOutline.json "{'o': {'a': 1}}".

(** A host with two editors: editor 0 shows the file of the scenarios,
    editor 1 an untitled document with the text [[7]]. *)
Definition untitled : JsonOutline.TextDocument :=
  JsonOutline.mkTextDocument (Uri.mk "untitled" "" "Untitled-1" "" "") "json" "[7]".

Definition two_editors : JsonOutline.Host :=
  JsonOutline.mkHost [(0, Examples.scenario_document); (1, untitled)] (Some 0) true None.

(** The user moves to the editor [id]. *)
Definition activate (id : nat) (h : JsonOutline.Host) : JsonOutline.Host :=
  JsonOutline.mkHost (JsonOutline.editors h) (Some id) (JsonOutline.autorefresh h)
                     (JsonOutline.jsonOutlineEnabled h).

(** The provider built while editor 0 is active, once the user has moved to
    editor 1 and the listener of the active editor has run: the provider
    still holds the file of editor 0. *)
Definition outline_behind : JsonOutline.State :=
  let st := JsonOutline.constructor two_editors "/ext" in
  JsonOutline.onActiveEditorChanged
    (JsonOutline.mkState (activate 1 (JsonOutline.host st)) (JsonOutline.this st)
                         (JsonOutline.fired st)).

(** A host whose active editor shows a plain-text file. *)
Definition host_plain_text : JsonOutline.Host :=
  JsonOutline.mkHost
    [(0, JsonOutline.mkTextDocument (Uri.file "/ws/notes.txt") "plaintext" "hello")]
    (Some 0) true None.

End MoreExamples.

(** ** Kinds of file-system calls, for reading a trace *)

Module Calls.

(** A call that removes something: [rimraf] or [fs.unlink]. *)
Definition is_removal (e : event FileExplorer.FsE) : bool :=
  match projT2 e with
  | FileExplorer.Rimraf _ | FileExplorer.FsUnlink _ => true
  | _ => false
  end.

Definition is_rename (e : event FileExplorer.FsE) : bool :=
  match projT2 e with
  | FileExplorer.FsRename _ _ => true
  | _ => false
  end.

Definition is_stat (e : event FileExplorer.FsE) : bool :=
  match projT2 e with
  | FileExplorer.FsStat _ => true
  | _ => false
  end.

End Calls.

(** * Properties *)

(** ** [Object.keys] *)

Section ObjectKeys.

Lemma In_insert_index (x y : N * string) (l : list (N * string)) :
  In x (Js.insert_index y l) <-> x = y \/ In x l.
Proof.
  induction l as [|z l IH]; simpl; [intuition congruence|].
  destruct (N.leb (fst y) (fst z)); simpl; [intuition congruence|].
  rewrite IH. intuition congruence.
Qed.

Lemma In_index_keys (k : string) (names : list string) :
  In k (Js.index_keys names) <-> In k names /\ Js.is_array_index k = true.
Proof.
  unfold Js.index_keys, Js.is_array_index. rewrite in_map_iff.
  assert (Hsorted : forall (x : N * string) l,
             In x (fold_right Js.insert_index [] l) <-> In x l).
  { intros x l. induction l as [|y l IH]; simpl; [tauto|].
    rewrite In_insert_index, IH. intuition congruence. }
  split.
  - intros [[n k'] [Hk Hin]]. simpl in Hk. subst k'.
    apply Hsorted, in_flat_map in Hin as [k' [Hk' Hin]].
    destruct (Js.array_index k') as [n'|] eqn:Hi; [|destruct Hin].
    destruct Hin as [[= <- <-]|[]]. now rewrite Hi.
  - intros [Hin Hi]. destruct (Js.array_index k) as [n|] eqn:Hk; [|discriminate].
    exists (n, k). split; [reflexivity|]. apply Hsorted, in_flat_map.
    exists k. split; [exact Hin|]. rewrite Hk. now left.
Qed.

(** [Object.keys] lists the own keys, and nothing else. *)
Lemma In_keys_names {A} (k : string) (o : list (string * A)) :
  In k (Js.keys o) <-> In k (map fst o).
Proof.
  unfold Js.keys. rewrite in_app_iff, In_index_keys, filter_In, negb_true_iff.
  destruct (Js.is_array_index k); intuition congruence.
Qed.

(** Without an array index among the keys, [Object.keys] keeps the order of
    declaration. *)
Lemma keys_plain {A} (o : list (string * A)) :
  forallb (fun k => negb (Js.is_array_index k)) (map fst o) = true ->
  Js.keys o = map fst o.
Proof.
  unfold Js.keys, Js.index_keys, Js.is_array_index. intros H.
  assert (Hnone : flat_map (fun k => match Js.array_index k with
                                     | Some n => [(n, k)]
                                     | None => []
                                     end) (map fst o) = []
                  /\ filter (fun k => negb match Js.array_index k with
                                          | Some _ => true
                                          | None => false
                                          end) (map fst o) = map fst o).
  { induction (map fst o) as [|k names IH]; simpl; [now split|].
    simpl in H. apply andb_true_iff in H as [Hk Hnames].
    destruct (IH Hnames) as [IH1 IH2].
    destruct (Js.array_index k); [discriminate|]. simpl. now rewrite IH1, IH2. }
  destruct Hnone as [-> ->]. reflexivity.
Qed.

Lemma flat_map_agree {A B} (f g : A -> list B) (l : list A) :
  (forall x, In x l -> f x = g x) -> flat_map f l = flat_map g l.
Proof.
  induction l as [|x l IH]; simpl; intros H; [reflexivity|].
  rewrite (H x) by now left. rewrite IH; [reflexivity|].
  intros y Hy. apply H. now right.
Qed.

(** An object in which every name stands once and no name is an array
    index has its properties listed in the order of declaration. *)
Lemma entries_plain {A} (o : list (string * A)) :
  Shapes.plain_object (Some o) = true -> Js.entries o = o.
Proof.
  unfold Shapes.plain_object, Js.entries. intros H.
  apply andb_true_iff in H as [Hd Hp]. rewrite (keys_plain _ Hp). clear Hp.
  induction o as [|[k v] o IH]; [reflexivity|].
  simpl in Hd. apply andb_true_iff in Hd as [Hk Hd]. apply negb_true_iff in Hk.
  cbn [map fst flat_map Js.get]. rewrite String.eqb_refl. cbn [app]. f_equal.
  rewrite <- (IH Hd) at 2. apply flat_map_agree.
  intros k' Hin. destruct (String.eqb_spec k' k) as [->|_]; [|reflexivity].
  exfalso. rewrite <- not_true_iff_false in Hk. apply Hk.
  apply existsb_exists. exists k. split; [exact Hin | apply String.eqb_refl].
Qed.

End ObjectKeys.

(** ** testView *)

Section TestViewFacts.

Import TestView.

Lemma substring0_all (s : string) : Js.substring0 (String.length s) s = s.
Proof.
  unfold Js.substring0. induction s as [|c s IH]; simpl; [reflexivity|].
  now rewrite IH.
Qed.

Lemma truthy_string_false (s : string) : Js.truthy_string s = false <-> s = "".
Proof. destruct s; simpl; split; intros H; congruence. Qed.

Lemma get_In {A} (k : string) (o : list (string * A)) (v : A) :
  Js.get k o = Some v -> In (k, v) o.
Proof.
  induction o as [|[k' v'] o IH]; simpl; [discriminate|].
  destruct (String.eqb_spec k k') as [->|_].
  - intros [= ->]. now left.
  - intros H. right. now apply IH.
Qed.

(** One level of [wf_keys]: what it says of each property. *)
Lemma wf_keys_prop (prefix : string) (t : TreeObj) (k : string) (t' : TreeObj) :
  wf_keys prefix t = true -> In (k, t') (props t) ->
  extends_by_one prefix k = true /\ wf_keys k t' = true.
Proof.
  destruct t as [ps]. simpl. intros Hall Hin.
  rewrite forallb_forall in Hall. specialize (Hall _ Hin). simpl in Hall.
  now apply andb_true_iff in Hall.
Qed.

(** The loop walks down the prefixes of [element]: the object it ends in
    has [element] as the key all its keys extend. *)
Lemma getTreeElement_loop_wf (n : nat) :
  forall (element : string) (i : nat) (parent t' : TreeObj),
    wf_keys (Js.substring0 i element) parent = true ->
    i + n = String.length element ->
    getTreeElement_loop element i n parent = Some t' ->
    wf_keys element t' = true.
Proof.
  induction n as [|n IH]; intros element i parent t' Hwf Hlen; simpl.
  - intros [= <-]. replace i with (String.length element) in Hwf by lia.
    now rewrite substring0_all in Hwf.
  - destruct (Js.get (Js.substring0 (i + 1) element) (props parent)) as [p|] eqn:Hget;
      [|discriminate].
    intros Hloop. apply get_In in Hget.
    destruct (wf_keys_prop _ _ _ _ Hwf Hget) as [_ Hp].
    apply (IH element (i + 1) p t' Hp); [lia | exact Hloop].
Qed.

Lemma tree_wf : wf_keys "" tree = true.
Proof. reflexivity. Qed.

Lemma getTreeElement_wf (element : string) (t' : TreeObj) :
  getTreeElement element = Some t' -> wf_keys element t' = true.
Proof.
  unfold getTreeElement. apply getTreeElement_loop_wf; [|reflexivity].
  replace (Js.substring0 0 element) with "" by (now destruct element).
  exact tree_wf.
Qed.

Lemma In_keys {A} (k : string) (o : list (string * A)) :
  In k (Js.keys o) -> exists v, In (k, v) o.
Proof.
  rewrite In_keys_names, in_map_iff. intros [[k' v] [Hk Hin]]. simpl in Hk. subst.
  now exists v.
Qed.

(** The keys listed under [k] lose their last character to give [k] back. *)
Lemma getChildren_extends (k : option string) (c : string) :
  In c (TestView.getChildren k) ->
  Js.substring0 (String.length c - 1) c
  = match k with Some k => k | None => "" end.
Proof.
  assert (Hroot : In c (Js.keys (props tree)) ->
                  Js.substring0 (String.length c - 1) c = "").
  { intros Hin. apply In_keys in Hin as [v Hin].
    destruct (wf_keys_prop _ _ _ _ tree_wf Hin) as [He _].
    apply andb_true_iff in He as [He _]. now apply String.eqb_eq in He. }
  destruct k as [k|]; simpl; [|exact Hroot].
  destruct (Js.truthy_string k) eqn:Hk; simpl.
  - destruct (getTreeElement k) as [t|] eqn:Ht; [|intros []].
    intros Hin. apply In_keys in Hin as [v Hin].
    destruct (wf_keys_prop _ _ _ _ (getTreeElement_wf _ Ht) Hin) as [He _].
    apply andb_true_iff in He as [He _]. now apply String.eqb_eq in He.
  - apply truthy_string_false in Hk. subst k. exact Hroot.
Qed.

(** The parent/child inverse law of the static view: every element listed
    under [p] has [p] as its parent, and the elements listed at the top
    have none.  (An element with the empty key is never listed.) *)
Lemma TestView_parent_of_child (p : option Key) (c : Key) :
  p <> Some (new_Key "") ->
  In c (Provider.getChildren p) -> Provider.getParent c = p.
Proof.
  intros Hp. unfold Provider.getChildren, getNode. rewrite in_map_iff.
  intros [ck [<- Hin]]. apply getChildren_extends in Hin.
  unfold Provider.getParent. simpl. rewrite Hin.
  destruct p as [[k]|]; simpl; [|reflexivity].
  destruct k; simpl; [now elim Hp | reflexivity].
Qed.

(** An unknown key has no children, and asking is no error. *)
Lemma TestView_unknown_key_no_children (k : string) :
  getTreeElement k = None -> TestView.getChildren (Some k) = [].
Proof.
  intros H. unfold TestView.getChildren. destruct k as [|c k]; simpl.
  - discriminate H.
  - now rewrite H.
Qed.

End TestViewFacts.

(** ** [Array.prototype.sort] keeps the elements *)

Section SortFacts.

Variable A : Type.
Variable cmp : A -> A -> comparison.

Lemma In_insert (x y : A) (l : list A) :
  In x (JsArray.insert cmp y l) <-> x = y \/ In x l.
Proof.
  induction l as [|z l IH]; simpl.
  - intuition congruence.
  - destruct (cmp y z); simpl; rewrite ?IH; intuition congruence.
Qed.

Lemma In_sort (x : A) (l : list A) : In x (JsArray.sort cmp l) <-> In x l.
Proof.
  unfold JsArray.sort. induction l as [|y l IH]; simpl; [tauto|].
  rewrite In_insert, IH. intuition congruence.
Qed.

End SortFacts.

(** ** The [Uri] of a string that starts with a slash *)

Lemma parse_leading_slash (s : string) :
  Path.isAbsolute s = true -> Uri.scheme (Uri.parse s) = "file".
Proof.
  destruct s as [|c s]; simpl; [discriminate|].
  unfold Path.is_slash. intros H. apply Ascii.eqb_eq in H. subst c.
  unfold Uri.parse. simpl.
  repeat match goal with
         | |- context [let (_, _) := ?x in _] => destruct x
         end.
  reflexivity.
Qed.

Lemma with_path_scheme (u : Uri.t) (p : string) :
  Uri.scheme (Uri.with_path u p) = Uri.schemeFix (Uri.scheme u).
Proof. reflexivity. Qed.

(** ** ftpExplorer *)

Section FtpFacts.

Import Ftp.

Variable W : Type.
Variable handler : forall X, FtpE X -> W -> X * W.
Variable localeCompare : string -> string -> comparison.

(** Case analysis on the next answer of the world. *)
Ltac answer :=
  match goal with
  | |- context [handler ?e ?w] =>
      let a := fresh "a" in let w' := fresh "w" in
      destruct (handler e w) as [a w'] eqn:?; try destruct a
  end.

(** Each of the three operations opens one connection, whatever the server
    answers: there is no second attempt. *)
Lemma roots_opens_one (this : FtpModel) (w : W) :
  connections_opened (run_trace handler (roots localeCompare this) w) = 1.
Proof.
  unfold run_trace, roots, connect, bindR, call. simpl.
  repeat (answer; simpl); reflexivity.
Qed.

Lemma getChildren_opens_one (this : FtpModel) (node : FtpNode) (w : W) :
  connections_opened (run_trace handler (getChildren localeCompare this node) w) = 1.
Proof.
  unfold run_trace, getChildren, connect, bindR, call. simpl.
  repeat (answer; simpl); reflexivity.
Qed.

Lemma getContent_opens_one (this : FtpModel) (resource : Uri.t) (w : W) :
  connections_opened (run_trace handler (getContent this resource) w) = 1.
Proof.
  unfold run_trace, getContent, connect, bindR, call. simpl.
  repeat (answer; simpl); reflexivity.
Qed.

(** On the success path the connection is ended before the result is
    given. *)
Lemma getChildren_success_closes (this : FtpModel) (node : FtpNode) (w : W) :
  is_ok (run_result handler (getChildren localeCompare this node) w) = true ->
  connections_closed (run_trace handler (getChildren localeCompare this node) w) = 1.
Proof.
  unfold run_result, run_trace, getChildren, connect, bindR, call. simpl.
  repeat (answer; simpl); intros H; try reflexivity; discriminate H.
Qed.

End FtpFacts.

Section FtpSortFacts.

Import Ftp.

Variable localeCompare : string -> string -> comparison.





End FtpSortFacts.

Section FtpOperations.

Import Ftp.

Variable W : Type.
Variable handler : forall X, FtpE X -> W -> X * W.
Variable localeCompare : string -> string -> comparison.

Ltac answer :=
  match goal with
  | |- context [handler ?e ?w] =>
      let a := fresh "a" in let w' := fresh "w" in
      destruct (handler e w) as [a w'] eqn:?; try destruct a
  end.

(** What [getChildren] resolves with: the listed entries, mapped and
    sorted. *)
Lemma getChildren_result (this : FtpModel) (node : FtpNode) (w : W)
  (children : list FtpNode) :
  run_result handler (getChildren localeCompare this node) w = Ok children ->
  exists list : list IEntry,
    children
    = sort localeCompare
        (map (fun entry =>
                {| resource := Uri.parse (Uri.fsPath (resource node) ++ "/" ++ name entry);
                   isDirectory := String.eqb (type entry) "d" |}) list).
Proof.
  unfold run_result, getChildren, connect, bindR, call. simpl.
  repeat (answer; simpl); intros H; try discriminate H.
  injection H as <-. now eexists.
Qed.

(** C1 (parent/child inverse law, on the FTP explorer).  For a directory
    node [p] with the scheme [ftp] and an absolute [fsPath], as [roots]
    builds them, no node listed under [p] has [p] as its parent: the
    child's resource is parsed from [p]'s [fsPath] alone, so the parent
    computed from it has the scheme [file]. *)
Theorem ftp_child_of_root_has_other_parent
  (this : FtpModel) (p : FtpNode) (w : W) (children : list FtpNode) (c : FtpNode) :
  Uri.scheme (resource p) = "ftp" ->
  Path.isAbsolute (Uri.fsPath (resource p)) = true ->
  run_result handler (getChildren localeCompare this p) w = Ok children ->
  In c children ->
  getParent c <> Some p.
Proof.
  intros Hscheme Habs Hrun Hin.
  apply getChildren_result in Hrun as [list ->].
  apply In_sort in Hin. apply in_map_iff in Hin as [entry [<- _]].
  unfold getParent. simpl.
  destruct (negb _); [|discriminate].
  intros [= Hp]. rewrite <- Hp in Hscheme. simpl in Hscheme.
  rewrite parse_leading_slash in Hscheme; [discriminate|].
  destruct (Uri.fsPath (resource p)); [discriminate | exact Habs].
Qed.

(** C7 (one connection per operation, closed on every path).  When the
    connection is established and the request is then answered with an
    error, each of the three operations is rejected with that error after
    the two calls [connect] and the request: the connection is never
    ended. *)
Theorem ftp_request_error_leaves_connection_open (this : FtpModel) (w : W) :
  (forall c w1 err w2,
      handler (ClientConnect (host this) (user this) (password this)) w = (Ok c, w1) ->
      handler (ClientList c None) w1 = (Err err, w2) ->
      run handler (roots localeCompare this) w
      = (Err err, w2,
         [ev (ClientConnect (host this) (user this) (password this));
          ev (ClientList c None)]))
  /\ (forall node c w1 err w2,
      handler (ClientConnect (host this) (user this) (password this)) w = (Ok c, w1) ->
      handler (ClientList c (Some (Uri.fsPath (resource node)))) w1 = (Err err, w2) ->
      run handler (getChildren localeCompare this node) w
      = (Err err, w2,
         [ev (ClientConnect (host this) (user this) (password this));
          ev (ClientList c (Some (Uri.fsPath (resource node))))]))
  /\ (forall resource c w1 err w2,
      handler (ClientConnect (host this) (user this) (password this)) w = (Ok c, w1) ->
      handler (ClientGet c (substr2 (Uri.path resource))) w1 = (Err err, w2) ->
      run handler (getContent this resource) w
      = (Err err, w2,
         [ev (ClientConnect (host this) (user this) (password this));
          ev (ClientGet c (substr2 (Uri.path resource)))])).
Proof.
  repeat split; intros until w2; intros Hc Hl;
    unfold roots, getChildren, getContent, connect, bindR, call; simpl;
    rewrite Hc; simpl; rewrite Hl; reflexivity.
Qed.

End FtpOperations.

(** On the example server: the directory [a] listed under the root node
    [pub] does not have [pub] as its parent. *)
Lemma ftp_child_of_root_has_other_parent_witness :
  Ftp.getParent (Ftp.mkFtpNode (Uri.parse "///pub/a") true) <> Some Examples.pub.
Proof.
  apply (@ftp_child_of_root_has_other_parent Ftp.Server Ftp.server Examples.byCode
           Examples.ftpModel Examples.pub Examples.mirror
           [Ftp.mkFtpNode (Uri.parse "///pub/a") true;
            Ftp.mkFtpNode (Uri.parse "///pub/b") false]).
  - reflexivity.
  - reflexivity.
  - reflexivity.
  - simpl. left. reflexivity.
Defined.

(** On the example server: listing the directory [gone] is rejected, and the
    connection opened for it is still open afterwards. *)
Lemma ftp_request_error_leaves_connection_open_witness :
  run_result Ftp.server (Ftp.getChildren Examples.byCode Examples.ftpModel Examples.gone)
             Examples.mirror
  = Err "No such file or directory"
  /\ Ftp.open_clients
       (run_world Ftp.server
          (Ftp.getChildren Examples.byCode Examples.ftpModel Examples.gone) Examples.mirror)
     = [0]
  /\ Ftp.connections_closed
       (run_trace Ftp.server
          (Ftp.getChildren Examples.byCode Examples.ftpModel Examples.gone) Examples.mirror)
     = 0.
Proof.
  pose proof (proj1 (proj2 (@ftp_request_error_leaves_connection_open
                              Ftp.Server Ftp.server Examples.byCode
                              Examples.ftpModel Examples.mirror))
                Examples.gone 0
                (Ftp.mkServer true (Ftp.listings Examples.mirror)
                              (Ftp.files Examples.mirror) 1 [0])
                "No such file or directory"
                (Ftp.mkServer true (Ftp.listings Examples.mirror)
                              (Ftp.files Examples.mirror) 1 [0])
                eq_refl eq_refl) as H.
  unfold run_result, run_world, run_trace. rewrite H. simpl.
  repeat split; reflexivity.
Defined.

(** ** fileExplorer *)

Section FileExplorerOperations.

Import FileExplorer.

Variable W : Type.
Variable handler : forall X, FsE X -> W -> X * W.

Lemma run_bind {A B} (m : prog FsE A) (f : A -> prog FsE B) :
  forall w,
    run handler (bind m f) w
    = let '(a, w1, t1) := run handler m w in
      let '(b, w2, t2) := run handler (f a) w1 in
      (b, w2, (t1 ++ t2)%list).
Proof.
  induction m as [a|X e k IH]; intros w; simpl.
  - now destruct (run handler (f a) w) as [[b w2] t2].
  - destruct (handler e w) as [x w']. rewrite IH.
    destruct (run handler (k x) w') as [[a w1] t1].
    now destruct (run handler (f a) w1) as [[b w2] t2].
Qed.

(** Below the workspace folder [getChildren] hands on the entries in the
    order in which [readDirectory] gave them. *)
Lemma getChildren_of_element_keeps_order
  (localeCompare : string -> string -> comparison)
  (workspaceFolders : option (list Uri.t)) (element : Entry) (w : W) :
  run_result handler (getChildren localeCompare workspaceFolders (Some element)) w
  = match run_result handler (readDirectory (uri element)) w with
    | Ok children =>
        Ok (map (fun nt => {| uri := Uri.file (Path.join [Uri.fsPath (uri element); fst nt]);
                              type := snd nt |}) children)
    | Err e => Err e
    end.
Proof.
  unfold run_result, getChildren, bindR. rewrite run_bind.
  destruct (run handler (readDirectory (uri element)) w) as [[[children|e] w1] t1];
    reflexivity.
Qed.

(** C8 (the flags of [writeFile]).  With [p] the path of the target:
    - target absent, [create] off: [FileNotFound] after the one call
      [exists];
    - target present, [overwrite] off: [FileExists] after the one call
      [exists];
    - target present, [overwrite] on: the write is the next call and its
      answer is the result;
    - target absent, [create] on: the parent directory is made first; the
      write follows when that succeeds, and the error of [mkdir] is the
      result, without any write, when it fails. *)
Theorem writeFile_flags (uri : Uri.t) (content : string) (options : WriteOptions) (w : W) :
  let p := Uri.fsPath uri in
  forall (exists_ : bool) (w1 : W),
    handler (FsExists p) w = (exists_, w1) ->
    (exists_ = false -> create options = false ->
     run handler (_writeFile uri content options) w
     = (Err FileNotFound, w1, [ev (FsExists p)]))
    /\ (exists_ = true -> overwrite options = false ->
        run handler (_writeFile uri content options) w
        = (Err FileExists, w1, [ev (FsExists p)]))
    /\ (exists_ = true -> overwrite options = true ->
        forall r w2,
          handler (FsWriteFile p content) w1 = (r, w2) ->
          run handler (_writeFile uri content options) w
          = (Utilities.handleResult r, w2,
             [ev (FsExists p); ev (FsWriteFile p content)]))
    /\ (exists_ = false -> create options = true ->
        forall m w2,
          handler (Mkdirp (Path.dirname p)) w1 = (m, w2) ->
          match m with
          | Ok _ =>
              forall r w3,
                handler (FsWriteFile p content) w2 = (r, w3) ->
                run handler (_writeFile uri content options) w
                = (Utilities.handleResult r, w3,
                   [ev (FsExists p); ev (Mkdirp (Path.dirname p));
                    ev (FsWriteFile p content)])
          | Err e =>
              run handler (_writeFile uri content options) w
              = (Err (Utilities.massageError e), w2,
                 [ev (FsExists p); ev (Mkdirp (Path.dirname p))])
          end).
Proof.
  intros p exists_ w1 Hex.
  unfold _writeFile, Utilities.exists_, Utilities.mkdir, Utilities.writefile,
    bindR, call. simpl. fold p. rewrite Hex.
  repeat split.
  - intros -> ->. reflexivity.
  - intros -> ->. reflexivity.
  - intros -> -> r w2 Hw. simpl. rewrite Hw. reflexivity.
  - intros -> -> m w2 Hm. simpl. rewrite Hm. destruct m as [[]|e]; simpl.
    + intros r w3 Hw. rewrite Hw. reflexivity.
    + reflexivity.
Qed.

(** C5 (no rollback).  A rename onto an existing target without
    [overwrite] is refused after the one call [exists].  With [overwrite],
    once the target is removed and the final move is answered with an
    error, that error is the result and the move is the last call: nothing
    is restored. *)
Theorem rename_failure_is_not_undone (oldUri newUri : Uri.t) (w : W) :
  let old := Uri.fsPath oldUri in
  let new := Uri.fsPath newUri in
  (forall w1,
      handler (FsExists new) w = (true, w1) ->
      run handler (_rename oldUri newUri false) w
      = (Err FileExists, w1, [ev (FsExists new)]))
  /\ (forall w1 w2 w3 e w4,
      handler (FsExists new) w = (true, w1) ->
      handler (Rimraf new) w1 = (Ok tt, w2) ->
      handler (FsExists (Path.dirname new)) w2 = (true, w3) ->
      handler (FsRename old new) w3 = (Err e, w4) ->
      run handler (_rename oldUri newUri true) w
      = (Err (Utilities.massageError e), w4,
         [ev (FsExists new); ev (Rimraf new); ev (FsExists (Path.dirname new));
          ev (FsRename old new)])).
Proof.
  intros old new.
  unfold _rename, Utilities.exists_, Utilities.rmrf, Utilities.mkdir,
    Utilities.rename, bindR, call. simpl. fold old new.
  split.
  - intros w1 H1. rewrite H1. reflexivity.
  - intros w1 w2 w3 e w4 H1 H2 H3 H4.
    rewrite H1. simpl. rewrite H2. simpl. rewrite H3. simpl. rewrite H4. reflexivity.
Qed.

(** C3 (directories first at every level).  For an element, [getChildren]
    does not sort: it resolves with one entry per entry of the listing that
    [readDirectory] gives, of the same type and in the same order.  So a
    listing in which a name that is no directory comes before the name of a
    directory is handed on with its directories not first. *)
Theorem fileExplorer_nested_listing_not_sorted
  (localeCompare : string -> string -> comparison)
  (workspaceFolders : option (list Uri.t)) (element : Entry) (w : W)
  (listing : list (string * FileType)) :
  run_result handler (readDirectory (uri element)) w = Ok listing ->
  Shapes.entries_directories_first (map snd listing) = false ->
  exists children,
    run_result handler (getChildren localeCompare workspaceFolders (Some element)) w
    = Ok children
    /\ children
       = map (fun nt => {| uri := Uri.file (Path.join [Uri.fsPath (uri element); fst nt]);
                           type := snd nt |}) listing
    /\ Shapes.entries_directories_first (map type children) = false.
Proof.
  intros Hread Hfirst. eexists. split; [|split; [reflexivity|]].
  - rewrite getChildren_of_element_keeps_order, Hread. reflexivity.
  - rewrite map_map. exact Hfirst.
Qed.

End FileExplorerOperations.

(** On the example disk, the directory [/ws/n] holds the file [a.txt] and
    the directory [b]; [readdir] names them in this order, and so does
    [getChildren]: the file comes first. *)
Lemma fileExplorer_nested_listing_not_sorted_witness :
  exists children,
    run_result MemFs.handle
      (FileExplorer.getChildren Examples.byCode Examples.workspaceFolders (Some Examples.n))
      Examples.disk
    = Ok children
    /\ children
       = [ FileExplorer.mkEntry (Uri.file "/ws/n/a.txt") FileExplorer.File;
           FileExplorer.mkEntry (Uri.file "/ws/n/b") FileExplorer.Directory ]
    /\ Shapes.entries_directories_first (map FileExplorer.type children) = false.
Proof.
  exact (@fileExplorer_nested_listing_not_sorted MemFs.Fs MemFs.handle Examples.byCode
           Examples.workspaceFolders Examples.n Examples.disk
           [("a.txt", FileExplorer.File); ("b", FileExplorer.Directory)]
           eq_refl eq_refl).
Defined.

(** On the example disk: a write refused by the flags, and the refused and
    the half-done rename. *)
Lemma writeFile_flags_witness :
  run MemFs.handle
      (FileExplorer._writeFile (Uri.file "/ws/z.txt") "new"
         (FileExplorer.mkWriteOptions true false)) Examples.disk
  = (Err FileExplorer.FileExists, Examples.disk, [ev (FileExplorer.FsExists "/ws/z.txt")]).
Proof.
  exact (proj1 (proj2 (@writeFile_flags MemFs.Fs MemFs.handle (Uri.file "/ws/z.txt") "new"
                         (FileExplorer.mkWriteOptions true false) Examples.disk
                         true Examples.disk eq_refl))
               eq_refl eq_refl).
Defined.

Lemma rename_failure_is_not_undone_witness :
  run MemFs.handle
      (FileExplorer._rename (Uri.file "/ws/nothere") (Uri.file "/ws/a.txt") true)
      Examples.disk
  = (Err FileExplorer.FileNotFound,
     MemFs.remove_tree "/ws/a.txt" Examples.disk,
     [ev (FileExplorer.FsExists "/ws/a.txt"); ev (FileExplorer.Rimraf "/ws/a.txt");
      ev (FileExplorer.FsExists "/ws");
      ev (FileExplorer.FsRename "/ws/nothere" "/ws/a.txt")]).
Proof.
  exact (proj2 (@rename_failure_is_not_undone MemFs.Fs MemFs.handle
                  (Uri.file "/ws/nothere") (Uri.file "/ws/a.txt") Examples.disk)
               Examples.disk
               (MemFs.remove_tree "/ws/a.txt" Examples.disk)
               (MemFs.remove_tree "/ws/a.txt" Examples.disk)
               (MemFs.errno "ENOENT")
               (MemFs.remove_tree "/ws/a.txt" Examples.disk)
               eq_refl eq_refl eq_refl eq_refl).
Defined.

(** C8, as stated, fails here: the target [/ws/z.txt/new.txt] does not
    exist and [create] is on, yet no write is made, because making the
    parent directory fails on the file [/ws/z.txt]. *)
Lemma writeFile_create_without_write :
  let m := FileExplorer._writeFile (Uri.file "/ws/z.txt/new.txt") "new"
             (FileExplorer.mkWriteOptions true true) in
  fst (MemFs.handle (FileExplorer.FsExists "/ws/z.txt/new.txt") Examples.disk) = false
  /\ run MemFs.handle m Examples.disk
     = (Err FileExplorer.FileExists, Examples.disk,
        [ev (FileExplorer.FsExists "/ws/z.txt/new.txt");
         ev (FileExplorer.Mkdirp "/ws/z.txt")]).
Proof. split; reflexivity. Qed.

(** C5, as stated, fails here: the rename onto [/ws/a.txt] with [overwrite]
    fails, and the children of the root are not what they were. *)
Lemma rename_overwrite_failure_changes_listing :
  let m := FileExplorer._rename (Uri.file "/ws/nothere") (Uri.file "/ws/a.txt") true in
  let children w :=
    run_result MemFs.handle
      (FileExplorer.getChildren Examples.byCode Examples.workspaceFolders None) w in
  run_result MemFs.handle m Examples.disk = Err FileExplorer.FileNotFound
  /\ children (run_world MemFs.handle m Examples.disk) <> children Examples.disk.
Proof. split; [reflexivity | vm_compute; discriminate]. Qed.

(** ** jsonOutline *)

Section JsonOutlineFacts.

Import Jsonc JsonOutline.
Local Open Scope list_scope.

Lemma skipn_length_app {A} (l new : list A) : skipn (List.length l) (l ++ new) = new.
Proof. induction l as [|x l IH]; simpl; [reflexivity | exact IH]. Qed.

Lemma published_app (st st' : State) (new : list Fired) :
  fired st' = fired st ++ new -> published st st' = new.
Proof. unfold published. intros ->. apply skipn_length_app. Qed.

Lemma doParseTree_fired (st : State) : fired (doParseTree st) = fired st.
Proof. unfold doParseTree. now destruct (document _ _). Qed.

Lemma doParseTree_host (st : State) : host (doParseTree st) = host st.
Proof. unfold doParseTree. now destruct (document _ _). Qed.

Lemma doParseTree_this (st : State) :
  this (doParseTree st)
  = match document (host st) (activeTextEditor (host st)) with
    | Some d => mkProvider (parseTree (getText d)) (getText d) (activeTextEditor (host st))
                           (autoRefresh (this st)) (extensionPath (this st))
    | None => mkProvider None "" (activeTextEditor (host st))
                         (autoRefresh (this st)) (extensionPath (this st))
    end.
Proof. unfold doParseTree. now destruct (document _ _). Qed.

(** What [doParseTree] leaves in the provider depends on the host and on
    the two fields it does not write. *)
Lemma doParseTree_this_agree (s s' : State) :
  host s' = host s ->
  autoRefresh (this s') = autoRefresh (this s) ->
  extensionPath (this s') = extensionPath (this s) ->
  this (doParseTree s') = this (doParseTree s).
Proof. intros Hh Ha He. now rewrite !doParseTree_this, Hh, Ha, He. Qed.

Lemma doParseTree_keeps (st : State) :
  autoRefresh (this (doParseTree st)) = autoRefresh (this st)
  /\ extensionPath (this (doParseTree st)) = extensionPath (this st).
Proof. rewrite doParseTree_this. now destruct (document _ _). Qed.

(** Right after [doParseTree] the provider agrees with the active
    document. *)
Lemma doParseTree_fresh (st : State) (p : option nat) :
  fresh (mkFired p (host (doParseTree st)) (this (doParseTree st))).
Proof.
  unfold fresh, doParseTree. simpl.
  destruct (document (host st) (activeTextEditor (host st))) as [d|] eqn:Hd;
    simpl; rewrite Hd; split; reflexivity.
Qed.

Lemma fire_after_doParseTree (st : State) (p : option nat) :
  fired (fire p (doParseTree st))
  = fired st ++ [mkFired p (host (doParseTree st)) (this (doParseTree st))].
Proof. unfold fire. simpl. now rewrite doParseTree_fired. Qed.

(** [refresh] makes one delivery; its payload is the offset unless the offset
    is falsy. *)
Lemma refresh_fired (offset : option nat) (st : State) :
  fired (refresh offset st)
  = fired st ++ [mkFired (match offset with
                          | Some (S n) => Some (S n)
                          | _ => None
                          end)
                         (host (doParseTree st)) (this (doParseTree st))].
Proof.
  unfold refresh. destruct offset as [[|n]|]; simpl; apply fire_after_doParseTree.
Qed.

Lemma refresh_state (o : option nat) (st : State) :
  host (refresh o st) = host st /\ this (refresh o st) = this (doParseTree st).
Proof.
  unfold refresh. destruct o as [o|]; [destruct (Js.truthy_nat o)|];
    cbn [fire this host]; split; auto using doParseTree_host.
Qed.

Lemma onDocumentChanged_step_fired (st : State) (change : ContentChange) :
  exists f, fired (onDocumentChanged_step st change) = fired st ++ [f] /\ fresh f.
Proof.
  unfold onDocumentChanged_step. eexists. split.
  - apply fire_after_doParseTree.
  - apply doParseTree_fresh.
Qed.

Lemma onDocumentChanged_loop_fired (changes : list ContentChange) :
  forall st, exists new,
    fired (fold_left onDocumentChanged_step changes st) = fired st ++ new
    /\ Forall fresh new /\ List.length new = List.length changes.
Proof.
  induction changes as [|change changes IH]; intros st; simpl.
  - exists []. now rewrite app_nil_r.
  - destruct (onDocumentChanged_step_fired st change) as [f [Hf Hfresh]].
    destruct (IH (onDocumentChanged_step st change)) as [new [Hnew [Hall Hlen]]].
    exists (f :: new). rewrite Hnew, Hf, <- app_assoc. simpl.
    repeat split; [now constructor | now rewrite Hlen].
Qed.

Lemma onDocumentChanged_fired (changeEvent : TextDocumentChangeEvent) (st : State) :
  exists new,
    fired (snd (onDocumentChanged changeEvent st)) = fired st ++ new
    /\ Forall fresh new.
Proof.
  unfold onDocumentChanged.
  destruct (editor (this st)); [|exists []; now rewrite app_nil_r].
  destruct (document _ _); [|exists []; now rewrite app_nil_r].
  destruct (_ && _); simpl; [|exists []; now rewrite app_nil_r].
  destruct (onDocumentChanged_loop_fired (contentChanges changeEvent) st)
    as [new [H1 [H2 _]]].
  now exists new.
Qed.

(** One round of the listener's loop leaves the host as it is and the
    provider as [doParseTree] makes it. *)
Lemma onDocumentChanged_step_state (st : State) (change : ContentChange) :
  host (onDocumentChanged_step st change) = host st
  /\ this (onDocumentChanged_step st change) = this (doParseTree st).
Proof.
  unfold onDocumentChanged_step. cbn [fire host this]. split; [apply doParseTree_host|].
  reflexivity.
Qed.

(** Every delivery of the loop finds the host it started with and the
    provider re-parsed from that host. *)
Lemma onDocumentChanged_loop_deliveries (changes : list ContentChange) :
  forall st, exists new,
    fired (fold_left onDocumentChanged_step changes st) = fired st ++ new
    /\ List.length new = List.length changes
    /\ Forall (fun f => seen_host f = host st /\ seen_this f = this (doParseTree st)) new
    /\ host (fold_left onDocumentChanged_step changes st) = host st.
Proof.
  induction changes as [|change changes IH]; intros st; cbn [fold_left].
  - exists []. rewrite app_nil_r. repeat split. constructor.
  - destruct (onDocumentChanged_step_state st change) as [Hh Ht].
    destruct (IH (onDocumentChanged_step st change)) as [new [Hnew [Hlen [Hall Hhost]]]].
    assert (Hagain : this (doParseTree (onDocumentChanged_step st change))
                     = this (doParseTree st)).
    { apply doParseTree_this_agree; [exact Hh | |]; rewrite Ht; apply doParseTree_keeps. }
    eexists (_ :: new). repeat split.
    + rewrite Hnew. unfold onDocumentChanged_step. rewrite fire_after_doParseTree.
      rewrite <- app_assoc. reflexivity.
    + cbn [List.length]. now rewrite Hlen.
    + constructor.
      * cbn [seen_host seen_this]. split; [apply doParseTree_host | reflexivity].
      * eapply Forall_impl; [|exact Hall]. cbn beta. intros f [H1 H2].
        rewrite H1, H2, Hh, Hagain. split; reflexivity.
    + now rewrite Hhost.
Qed.

(** The listener when its guard lets the event through. *)
Lemma onDocumentChanged_handled (changeEvent : TextDocumentChangeEvent) (st : State)
  (d : TextDocument) :
  document (host st) (editor (this st)) = Some d ->
  autoRefresh (this st) = true ->
  Uri.eqb (ev_document changeEvent) (doc_uri d) = true ->
  onDocumentChanged changeEvent st
  = (Ok tt, fold_left onDocumentChanged_step (contentChanges changeEvent) st).
Proof.
  intros Hd Ha Hu. unfold onDocumentChanged.
  destruct (editor (this st)) as [id|]; [|discriminate Hd].
  now rewrite Hd, Ha, Hu.
Qed.

Lemma Uri_eqb_refl (u : Uri.t) : Uri.eqb u u = true.
Proof. unfold Uri.eqb. now rewrite !String.eqb_refl. Qed.

Lemma lookup_editor_map (g : TextDocument -> TextDocument) (id : nat)
  (l : list (nat * TextDocument)) :
  lookup_editor id (map (fun e => (fst e, g (snd e))) l) = option_map g (lookup_editor id l).
Proof.
  induction l as [|[id' d'] l IH]; simpl; [reflexivity|].
  now destruct (Nat.eqb id id').
Qed.

(** After an edit every editor shows its document as edited. *)
Lemma document_apply_edit (u : Uri.t) (start end_ : nat) (s : string) (h : Host)
  (e : option nat) :
  document (apply_edit u start end_ s h) e
  = option_map (edit_document u start end_ s) (document h e).
Proof. destruct e as [id|]; [apply lookup_editor_map | reflexivity]. Qed.

Lemma edit_document_own (d : TextDocument) (start end_ : nat) (s : string) :
  edit_document (doc_uri d) start end_ s d
  = mkTextDocument (doc_uri d) (languageId d) (replace_text start end_ s (getText d)).
Proof. unfold edit_document. now rewrite Uri_eqb_refl. Qed.

(** The location of offset 0 is the empty path. *)
Lemma getLocation_zero (t : string) : getLocation t 0 = [].
Proof.
  unfold getLocation. destruct (visit t) as [|e events]; [reflexivity|].
  destruct e as [o l|name o l|o l|o l|o l|v o l|sep o l]; simpl; try reflexivity.
  - destruct o; reflexivity.
  - destruct o; reflexivity.
Qed.

(** The edit callback throws for offset 0: its location leads to the root,
    which has no parent, or to no node. *)
Lemma rename_edit_zero (st : State) (d : TextDocument) (value : string) :
  exists e, rename_edit st d 0 value = Err e.
Proof.
  unfold rename_edit. rewrite getLocation_zero. unfold findNodeAtLocation.
  destruct (tree (this st)); eexists; reflexivity.
Qed.

(** The delivery of the timer of [rename] carries the offset. *)
Lemma timer_callback_fired (offset_ : nat) (st : State) :
  offset_ <> 0 ->
  fired (timer_callback offset_ st)
  = fired st ++ [mkFired (Some offset_) (host st) (this (doParseTree st))]
  /\ host (timer_callback offset_ st) = host st
  /\ this (timer_callback offset_ st) = this (doParseTree st).
Proof.
  intros Hnz. unfold timer_callback.
  destruct (refresh_state (Some offset_) (doParseTree st)) as [Hh Ht].
  assert (Hagain : this (doParseTree (doParseTree st)) = this (doParseTree st)).
  { apply doParseTree_this_agree; [apply doParseTree_host | |]; apply doParseTree_keeps. }
  rewrite refresh_fired, doParseTree_fired, Hh, Ht, !doParseTree_host, Hagain.
  destruct offset_ as [|n]; [now elim Hnz|]. repeat split.
Qed.

Lemma doParseTree_text (s : State) (d : TextDocument) :
  document (host s) (activeTextEditor (host s)) = Some d ->
  text (this (doParseTree s)) = getText d
  /\ tree (this (doParseTree s)) = parseTree (getText d).
Proof. intros H. rewrite doParseTree_this, H. split; reflexivity. Qed.

(** What [rename] publishes, and where it leaves the host, when the edit is
    applied and the listener is called before the timer: the delivery of the
    listener when auto-refresh is on, then the delivery of the timer.  Both
    find the edited host, and the provider parsed again from it. *)
Lemma rename_before_timer (st : State) (d : TextDocument) (offset_ : nat) (value : string)
  (start end_ : nat) (replacement : string) :
  document (host st) (editor (this st)) = Some d ->
  rename_edit st d offset_ value = Ok (start, end_, replacement) ->
  let h1 := apply_edit (doc_uri d) start end_ replacement (host st) in
  let p1 := this (doParseTree (mkState h1 (this st) (fired st))) in
  let st' := snd (rename offset_ (Some value) AppliedBeforeTimer st) in
  fst (rename offset_ (Some value) AppliedBeforeTimer st) = Ok tt
  /\ host st' = h1
  /\ fired st'
     = fired st
       ++ (if autoRefresh (this st)
           then [mkFired (option_map offset (changed_node (this st) (mkContentChange start)))
                         h1 p1]
           else [])
       ++ [mkFired (Some offset_) h1 p1].
Proof.
  intros Hd Hedit h1 p1.
  assert (Hnz : offset_ <> 0).
  { intros ->. destruct (rename_edit_zero st d value) as [e He]. congruence. }
  unfold rename.
  destruct (editor (this st)) as [id|] eqn:He; [|discriminate Hd].
  rewrite Hd, Hedit. cbn [fst snd]. split; [reflexivity|].
  set (s1 := mkState h1 (this st) (fired st)).
  assert (Hd1 : document (host s1) (editor (this s1))
                = Some (edit_document (doc_uri d) start end_ replacement d)).
  { cbn [s1 host this]. unfold h1. rewrite He, document_apply_edit, Hd. reflexivity. }
  assert (Hlistener :
            let s2 := edit_applied d start end_ replacement st in
            host s2 = h1
            /\ fired s2
               = fired st
                 ++ (if autoRefresh (this st)
                     then [mkFired (option_map offset
                                      (changed_node (this st) (mkContentChange start)))
                                   h1 p1]
                     else [])
            /\ this (doParseTree s2) = p1).
  { cbn zeta. unfold edit_applied. fold h1. fold s1.
    destruct (autoRefresh (this st)) eqn:Ha.
    - rewrite (@onDocumentChanged_handled _ s1 _ Hd1 Ha)
        by (rewrite edit_document_own; apply Uri_eqb_refl).
      cbn [snd contentChanges fold_left].
      destruct (onDocumentChanged_step_state s1 (mkContentChange start)) as [Hh Ht].
      split; [exact Hh|]. split.
      + unfold onDocumentChanged_step. rewrite fire_after_doParseTree, doParseTree_host.
        reflexivity.
      + apply doParseTree_this_agree; [exact Hh | |]; rewrite Ht; apply doParseTree_keeps.
    - unfold onDocumentChanged. cbn [s1 this host]. fold s1.
      cbn [s1 this host] in Hd1. rewrite He in *. rewrite Hd1, Ha. cbn [andb snd].
      rewrite app_nil_r. repeat split. }
  cbn zeta in Hlistener. destruct Hlistener as [Hh2 [Hf2 Hp2]].
  destruct (@timer_callback_fired offset_ (edit_applied d start end_ replacement st) Hnz)
    as [Hf [Hh Ht]].
  split; [now rewrite Hh|].
  rewrite Hf, Hf2, Hh2, Hp2, <- app_assoc. reflexivity.
Qed.

End JsonOutlineFacts.

Section JsonOutlineNotifier.

Import Jsonc JsonOutline.
Local Open Scope list_scope.

Lemma published_refl (st : State) : published st st = [].
Proof. unfold published. apply skipn_all. Qed.


(** The deliveries of the applied edit: those of the listener, each fresh. *)
Lemma edit_applied_fired (d : TextDocument) (start end_ : nat) (replacement : string)
  (st : State) :
  exists new,
    fired (edit_applied d start end_ replacement st) = fired st ++ new
    /\ Forall fresh new.
Proof.
  unfold edit_applied.
  match goal with
  | |- context [onDocumentChanged ?e ?s] =>
      destruct (onDocumentChanged_fired e s) as [new [Hnew Hall]]
  end.
  now exists new.
Qed.

Lemma timer_callback_fresh (offset_ : nat) (st : State) :
  exists f, fired (timer_callback offset_ st) = fired st ++ [f] /\ fresh f.
Proof.
  unfold timer_callback. eexists. split.
  - rewrite refresh_fired, doParseTree_fired. reflexivity.
  - apply doParseTree_fresh.
Qed.

(** Every delivery that [rename] causes finds the provider fresh. *)
Lemma rename_fresh (offset_ : nat) (value : option string) (outcome : EditOutcome)
  (st : State) :
  Forall fresh (published st (snd (rename offset_ value outcome st))).
Proof.
  unfold rename. destruct value as [value|]; [|rewrite published_refl; constructor].
  destruct (editor (this st)); [|rewrite published_refl; constructor].
  destruct (document _ _) as [d|]; [|rewrite published_refl; constructor].
  destruct (rename_edit st d offset_ value) as [[[start end_] replacement]|];
    [|rewrite published_refl; constructor].
  destruct outcome; cbn [snd].
  - destruct (edit_applied_fired d start end_ replacement st) as [new [Hnew Hall]].
    destruct (timer_callback_fresh offset_ (edit_applied d start end_ replacement st))
      as [f [Hf Hfresh]].
    rewrite Hnew, <- app_assoc in Hf. rewrite (@published_app _ _ _ Hf).
    apply Forall_app. split; [exact Hall | now constructor].
  - destruct (timer_callback_fresh offset_ st) as [f [Hf Hfresh]].
    destruct (edit_applied_fired d start end_ replacement (timer_callback offset_ st))
      as [new [Hnew Hall]].
    rewrite Hf, <- app_assoc in Hnew. rewrite (@published_app _ _ _ Hnew).
    now constructor.
  - destruct (timer_callback_fresh offset_ st) as [f [Hf Hfresh]].
    rewrite (@published_app _ _ _ Hf). now constructor.
Qed.

(** C6 (re-derivation before notification).  The provider parses again
    immediately before every firing, and what it parses is the document of
    the active editor.
    - [refresh] makes one delivery, which finds the provider fresh.
    - When the listener lets a change event through, it makes one delivery
      per content change; each finds the host as the listener found it and
      the provider fresh; when the changed document is the one the active
      editor shows, each finds the provider with the text of that document,
      the new content, and the parse of that text.
    - Every delivery that [rename] causes finds the provider fresh.  When
      the edit is applied and the listener called before the timer, and the
      edited document is the one the active editor shows, [rename] makes two
      deliveries with auto-refresh on and one with auto-refresh off, and
      each finds the provider with the edited text and its parse. *)
Theorem notifier_fires_after_reparse (st : State) :
  (forall o, exists f,
      published st (refresh o st) = [f] /\ seen_host f = host st /\ fresh f)
  /\ (forall changeEvent d,
         document (host st) (editor (this st)) = Some d ->
         autoRefresh (this st) = true ->
         Uri.eqb (ev_document changeEvent) (doc_uri d) = true ->
         let st' := snd (onDocumentChanged changeEvent st) in
         List.length (published st st') = List.length (contentChanges changeEvent)
         /\ Forall (fun f => seen_host f = host st /\ fresh f) (published st st')
         /\ (document (host st) (activeTextEditor (host st)) = Some d ->
             Forall (fun f => text (seen_this f) = getText d
                              /\ tree (seen_this f) = parseTree (getText d))
                    (published st st')))
  /\ (forall offset_ value outcome,
         Forall fresh (published st (snd (rename offset_ value outcome st))))
  /\ (forall offset_ value d start end_ replacement,
         document (host st) (editor (this st)) = Some d ->
         document (host st) (activeTextEditor (host st)) = Some d ->
         rename_edit st d offset_ value = Ok (start, end_, replacement) ->
         let st' := snd (rename offset_ (Some value) AppliedBeforeTimer st) in
         let newText := replace_text start end_ replacement (getText d) in
         List.length (published st st') = (if autoRefresh (this st) then 2 else 1)
         /\ Forall (fun f => text (seen_this f) = newText
                             /\ tree (seen_this f) = parseTree newText)
                   (published st st')).
Proof.
  split; [|split; [|split]].
  - intros o. eexists. split; [apply published_app, refresh_fired|].
    cbn [seen_host]. split; [apply doParseTree_host | apply doParseTree_fresh].
  - intros changeEvent d Hd Ha Hu. cbn zeta.
    rewrite (@onDocumentChanged_handled _ _ _ Hd Ha Hu). cbn [snd].
    destruct (onDocumentChanged_loop_deliveries (contentChanges changeEvent) st)
      as [new [Hnew [Hlen [Hall _]]]].
    rewrite (@published_app _ _ _ Hnew). split; [exact Hlen|]. split.
    + eapply Forall_impl; [|exact Hall]. cbn beta. intros f [H1 H2].
      split; [exact H1|]. pose proof (doParseTree_fresh st None) as Hf.
      unfold fresh in *. cbn [seen_host seen_this] in Hf.
      rewrite doParseTree_host in Hf. now rewrite H1, H2.
    + intros Hactive. eapply Forall_impl; [|exact Hall]. cbn beta. intros f [_ H2].
      rewrite H2. now apply doParseTree_text.
  - intros offset_ value outcome. apply rename_fresh.
  - intros offset_ value d start end_ replacement Hd Hactive Hedit. cbn zeta.
    destruct (@rename_before_timer _ _ _ _ _ _ _ Hd Hedit) as [_ [_ Hf]].
    rewrite (@published_app _ _ _ Hf).
    assert (Hnew : document (apply_edit (doc_uri d) start end_ replacement (host st))
                            (activeTextEditor (host st))
                   = Some (mkTextDocument (doc_uri d) (languageId d)
                             (replace_text start end_ replacement (getText d)))).
    { now rewrite document_apply_edit, Hactive, <- edit_document_own. }
    apply (@doParseTree_text
             (mkState (apply_edit (doc_uri d) start end_ replacement (host st))
                      (this st) (fired st))) in Hnew.
    cbn [getText] in Hnew.
    destruct (autoRefresh (this st)); (split; [reflexivity|]);
      repeat constructor; cbn [seen_this]; apply Hnew.
Qed.

(** C10 ([refresh] with offset 0).  [refresh(0)] does what [refresh()] does:
    its one delivery has no payload; and no delivery of [refresh] has the
    payload 0. *)
Theorem refresh_zero_is_root_changed (st : State) :
  refresh (Some 0) st = refresh None st
  /\ (exists f, published st (refresh (Some 0) st) = [f] /\ payload f = None)
  /\ (forall offset f, In f (published st (refresh offset st)) -> payload f <> Some 0).
Proof.
  repeat split.
  - eexists. split; [apply published_app; apply refresh_fired | reflexivity].
  - intros offset f. rewrite (@published_app _ _ _ (refresh_fired offset st)).
    intros [<-|[]]. simpl. destruct offset as [[|n]|]; discriminate.
Qed.

(** C2 (children of a NodeId that does not resolve).  When the location of
    a non-zero offset leads to no node of the tree, [getChildren] throws a
    [TypeError]: it reads [children] of [undefined]. *)
Theorem outline_getChildren_unresolved_throws (st : State) (offset_ : nat) :
  offset_ <> 0 ->
  findNodeAtLocation (tree (this st)) (getLocation (text (this st)) offset_) = None ->
  JsonOutline.getChildren (Some offset_) st
  = Err (cannot_read "undefined" "children").
Proof.
  intros Hnz Hnone. unfold JsonOutline.getChildren.
  destruct offset_ as [|n]; [now elim Hnz|]. now rewrite Hnone.
Qed.

(** C9 (metadata of a NodeId that does not resolve).  In the outline, an
    offset whose location leads to no node gets [null].  In the static view
    every key gets an item labelled with the key, a leaf when the key is
    unknown; in the file explorer the item is built from the entry alone. *)
Theorem getTreeItem_of_unresolved :
  (forall st offset_,
      findNodeAtLocation (tree (this st)) (getLocation (text (this st)) offset_) = None ->
      JsonOutline.getTreeItem offset_ st = Ok None)
  /\ (forall k,
         TestView.label (TestView.Provider.getTreeItem k) = TestView.key k
         /\ TestView.id (TestView.Provider.getTreeItem k) = Some (TestView.key k)
         /\ (TestView.getTreeElement (TestView.key k) = None ->
             TestView.collapsibleState (TestView.Provider.getTreeItem k)
             = TestView.None_))
  /\ (forall element,
         FileExplorer.resourceUri (FileExplorer.getTreeItem element)
         = FileExplorer.uri element
         /\ FileExplorer.collapsibleState (FileExplorer.getTreeItem element)
            = if FileExplorer.FileType_eqb (FileExplorer.type element)
                                           FileExplorer.Directory
              then FileExplorer.Collapsed else FileExplorer.None_).
Proof.
  repeat split.
  - intros st offset_ H. unfold JsonOutline.getTreeItem. now rewrite H.
  - intros H. simpl. now rewrite H.
  - unfold FileExplorer.getTreeItem. now destruct (FileExplorer.FileType_eqb _ FileExplorer.File).
  - unfold FileExplorer.getTreeItem. now destruct (FileExplorer.FileType_eqb _ FileExplorer.File).
Qed.

End JsonOutlineNotifier.

(** In the scenario, with the one editor active: the rename of the key [a]
    makes two deliveries, and both find the provider with the edited text
    [{"x": 1, "b": [2,3]}]. *)
Lemma notifier_fires_after_reparse_witness :
  let st := Examples.outline Examples.scenario_text true in
  let st' := snd (JsonOutline.rename 6 (Some "x") JsonOutline.AppliedBeforeTimer st) in
  List.length (JsonOutline.published st st') = 2
  /\ Forall (fun f =>
               JsonOutline.text (JsonOutline.seen_this f)
               = JsonOutline.json "{'x': 1, 'b': [2,3]}"
               /\ JsonOutline.tree (JsonOutline.seen_this f)
                  = Jsonc.parseTree (JsonOutline.json "{'x': 1, 'b': [2,3]}"))
            (JsonOutline.published st st').
Proof.
  intros st st'.
  exact (proj2 (proj2 (proj2 (notifier_fires_after_reparse st)))
               6 "x" Examples.scenario_document 1 4 (JsonOutline.quote_string "x")
               eq_refl eq_refl eq_refl).
Defined.

(** C6, as stated, fails here.  The provider holds the file of editor 0
    while the untitled editor 1 is active.  The rename of the key [a] edits
    the file, whose text becomes [{"x": 1, "b": [2,3]}]; the two deliveries
    that follow find the provider with the text [[7]] of the active editor,
    not with the new content of the edited file. *)
Lemma notifier_fires_with_the_active_document :
  let st := MoreExamples.outline_behind in
  let st' := snd (JsonOutline.rename 6 (Some "x") JsonOutline.AppliedBeforeTimer st) in
  JsonOutline.editor (JsonOutline.this st) = Some 0
  /\ JsonOutline.activeTextEditor (JsonOutline.host st) = Some 1
  /\ JsonOutline.text (JsonOutline.this st) = Examples.scenario_text
  /\ fst (JsonOutline.rename 6 (Some "x") JsonOutline.AppliedBeforeTimer st) = Ok tt
  /\ option_map JsonOutline.getText (JsonOutline.document (JsonOutline.host st') (Some 0))
     = Some (JsonOutline.json "{'x': 1, 'b': [2,3]}")
  /\ map (fun f => JsonOutline.text (JsonOutline.seen_this f))
         (JsonOutline.published st st')
     = ["[7]"; "[7]"].
Proof. repeat split. Qed.

(** With no editor open, the children of the stale offset 14 are asked
    for. *)
Lemma outline_getChildren_unresolved_throws_witness :
  JsonOutline.getChildren (Some 14) (JsonOutline.constructor Examples.no_editor "/ext")
  = Err (JsonOutline.cannot_read "undefined" "children").
Proof.
  apply outline_getChildren_unresolved_throws.
  - discriminate.
  - reflexivity.
Defined.

(** In the text with a blank after the opening brace, offset 1 has no node:
    its item is [null]; and the unknown key [zz] of the static view gets a
    leaf item. *)
Lemma getTreeItem_of_unresolved_witness :
  JsonOutline.getTreeItem 1 (Examples.outline (JsonOutline.json "{ 'a': 1}") true)
  = Ok None
  /\ TestView.collapsibleState (TestView.Provider.getTreeItem (TestView.new_Key "zz"))
     = TestView.None_.
Proof.
  split.
  - apply (proj1 getTreeItem_of_unresolved). reflexivity.
  - apply (proj1 (proj2 getTreeItem_of_unresolved)). reflexivity.
Defined.

(** C9, as stated, fails here.  The key [zz] is not in the static tree, and
    its item is an ordinary leaf item, as the one of the known leaf [ab].
    In the document [[null]] the offset 1 is the one child of the root, and
    asking for its item throws. *)
Lemma getTreeItem_not_absent_and_throwing :
  (TestView.getTreeElement "zz" = None
   /\ TestView.Provider.getTreeItem (TestView.new_Key "zz")
      = TestView.mkTreeItem "zz" (Some (0, 1)) "Tooltip for zz" TestView.None_ (Some "zz")
   /\ TestView.Provider.getTreeItem (TestView.new_Key "ab")
      = TestView.mkTreeItem "ab" (Some (0, 1)) "Tooltip for ab" TestView.None_ (Some "ab"))
  /\ (let st := Examples.outline (JsonOutline.json "[null]") true in
      JsonOutline.getChildren None st = Ok [1]
      /\ JsonOutline.getTreeItem 1 st
         = Err (JsonOutline.cannot_read "null" "toString")).
Proof. repeat split. Qed.

Section JsonOutlineRename.

Import Jsonc JsonOutline.
Local Open Scope list_scope.

(** C4 (rename of a property).  [rename] is called with an offset whose
    location leads to a node, the parent of that node is not an array, and
    [keyNode] is the parent's first child, the key token.  The location of
    the key token is [path] followed by one more segment, and [path] leads
    to [object], the node that holds the property.  Then:
    - the edit replaces the key token by the quoted new name;
    - the delivery of the timer of [rename] carries the offset [rename] was
      called with, whatever the host does with the edit, and it is the only
      one when the host refuses the edit;
    - when the edit is applied and the listener called before the timer,
      the document has the key replaced, and with auto-refresh on the
      listener makes one delivery before that of the timer: a root change
      when [path] is empty, the offset of [object] otherwise. *)
Theorem rename_redirects_to_key_and_refreshes_offset
  (st : State) (d : TextDocument) (offset_ : nat) (value : string)
  (ref pref : NodeRef) (parent keyNode object : Node)
  (path : JSONPath) (segment : Segment) :
  document (host st) (editor (this st)) = Some d ->
  findNodeAtLocation (tree (this st)) (getLocation (text (this st)) offset_) = Some ref ->
  parent_ref ref = Some pref ->
  node_of (this st) pref = Some parent ->
  NodeType_eqb (type parent) TArray = false ->
  node_of (this st) (pref ++ [0]) = Some keyNode ->
  getLocation (text (this st)) (positionAt d (offset keyNode)) = path ++ [segment] ->
  findNodeAtLocation (tree (this st)) path = Some (removelast pref) ->
  node_of (this st) (removelast pref) = Some object ->
  let start := positionAt d (offset keyNode) in
  let end_ := positionAt d (offset keyNode + length keyNode) in
  let st' := snd (rename offset_ (Some value) AppliedBeforeTimer st) in
  rename_edit st d offset_ value = Ok (start, end_, quote_string value)
  /\ (forall outcome,
         fst (rename offset_ (Some value) outcome st) = Ok tt
         /\ In (Some offset_)
               (map payload (published st (snd (rename offset_ (Some value) outcome st)))))
  /\ (host (snd (rename offset_ (Some value) NotApplied st)) = host st
      /\ map payload (published st (snd (rename offset_ (Some value) NotApplied st)))
         = [Some offset_])
  /\ option_map getText (document (host st') (editor (this st)))
     = Some (replace_text start end_ (quote_string value) (getText d))
  /\ map payload (published st st')
     = (if autoRefresh (this st)
        then [match path with [] => None | _ :: _ => Some (offset object) end]
        else [])
       ++ [Some offset_].
Proof.
  intros Hd Href Hpref Hparent Htype Hkey Hloc Hfind Hobject start end_ st'.
  assert (Hedit : rename_edit st d offset_ value = Ok (start, end_, quote_string value)).
  { unfold rename_edit. rewrite Href, Hpref, Hparent, Htype. cbn [negb]. now rewrite Hkey. }
  assert (Hnz : offset_ <> 0).
  { intros ->. destruct (rename_edit_zero st d value) as [e He]. congruence. }
  split; [exact Hedit|].
  destruct (@rename_before_timer _ _ _ _ _ _ _ Hd Hedit) as [Hok [Hhost Hfired]].
  fold st' in Hhost, Hfired.
  split; [|split; [|split]].
  - intros outcome. unfold rename.
    destruct (editor (this st)) as [id|] eqn:He; [|discriminate Hd].
    rewrite Hd, Hedit. split; [now destruct outcome|].
    destruct outcome; cbn [snd].
    + destruct (@timer_callback_fired offset_
                  (edit_applied d start end_ (quote_string value) st) Hnz) as [Hf _].
      destruct (edit_applied_fired d start end_ (quote_string value) st)
        as [new [Hnew _]].
      rewrite Hnew, <- app_assoc in Hf. rewrite (@published_app _ _ _ Hf).
      rewrite map_app. apply in_or_app. right. now left.
    + destruct (@timer_callback_fired offset_ st Hnz) as [Hf _].
      destruct (edit_applied_fired d start end_ (quote_string value)
                  (timer_callback offset_ st)) as [new [Hnew _]].
      rewrite Hf, <- app_assoc in Hnew. rewrite (@published_app _ _ _ Hnew).
      now left.
    + destruct (@timer_callback_fired offset_ st Hnz) as [Hf _].
      rewrite (@published_app _ _ _ Hf). now left.
  - unfold rename.
    destruct (editor (this st)) as [id|] eqn:He; [|discriminate Hd].
    rewrite Hd, Hedit. cbn [snd].
    destruct (@timer_callback_fired offset_ st Hnz) as [Hf [Hh _]].
    split; [exact Hh|]. now rewrite (@published_app _ _ _ Hf).
  - rewrite Hhost, document_apply_edit, Hd. cbn [option_map].
    now rewrite edit_document_own.
  - rewrite (@published_app _ _ _ Hfired), map_app.
    assert (Hnode : changed_node (this st) (mkContentChange start)
                    = match path with [] => None | _ :: _ => Some object end).
    { unfold changed_node. cbn [range_start]. unfold start. rewrite Hloc, removelast_last.
      destruct path as [|seg path]; [reflexivity|]. now rewrite Hfind, Hobject. }
    rewrite Hnode. destruct (autoRefresh (this st)); [|reflexivity].
    now destruct path.
Qed.

End JsonOutlineRename.

(** Two renames through the general statement.  In [{"o": {"a": 1}}] the
    rename of the value at offset 12 edits the key token (offsets 7 to 10);
    the listener publishes offset 6, the object that holds the property, and
    the timer then publishes offset 12.  In the scenario the rename at
    offset 6 edits the key token (offsets 1 to 4); the property sits in the
    root, so the listener publishes a root change, and the timer then
    publishes offset 6. *)
Lemma rename_redirects_to_key_and_refreshes_offset_witness :
  (let st := Examples.outline MoreExamples.nested_text true in
   let st' := snd (JsonOutline.rename 12 (Some "x") JsonOutline.AppliedBeforeTimer st) in
   JsonOutline.rename_edit st (Examples.document_with MoreExamples.nested_text) 12 "x"
   = Ok (7, 10, JsonOutline.quote_string "x")
   /\ option_map JsonOutline.getText (JsonOutline.document (JsonOutline.host st') (Some 0))
      = Some (JsonOutline.json "{'o': {'x': 1}}")
   /\ map JsonOutline.payload (JsonOutline.published st st') = [Some 6; Some 12])
  /\ (let st := Examples.outline Examples.scenario_text true in
      let st' := snd (JsonOutline.rename 6 (Some "x") JsonOutline.AppliedBeforeTimer st) in
      JsonOutline.rename_edit st Examples.scenario_document 6 "x"
      = Ok (1, 4, JsonOutline.quote_string "x")
      /\ option_map JsonOutline.getText (JsonOutline.document (JsonOutline.host st') (Some 0))
         = Some (JsonOutline.json "{'x': 1, 'b': [2,3]}")
      /\ map JsonOutline.payload (JsonOutline.published st st') = [None; Some 6]).
Proof.
  split; intros st st'.
  - destruct (@rename_redirects_to_key_and_refreshes_offset
                st (Examples.document_with MoreExamples.nested_text) 12 "x"
                [0; 1; 0; 1] [0; 1; 0]
                (Jsonc.mkNode Jsonc.TProperty None 7 6
                   (Some [Jsonc.mkNode Jsonc.TString (Some (Jsonc.VString "a")) 7 3 None;
                          Jsonc.mkNode Jsonc.TNumber (Some (Jsonc.VNumber "1")) 12 1 None]))
                (Jsonc.mkNode Jsonc.TString (Some (Jsonc.VString "a")) 7 3 None)
                (Jsonc.mkNode Jsonc.TObject None 6 8
                   (Some [Jsonc.mkNode Jsonc.TProperty None 7 6
                      (Some [Jsonc.mkNode Jsonc.TString (Some (Jsonc.VString "a")) 7 3 None;
                             Jsonc.mkNode Jsonc.TNumber (Some (Jsonc.VNumber "1")) 12 1
                               None])]))
                [Jsonc.SegName "o"] (Jsonc.SegName "a")
                eq_refl eq_refl eq_refl eq_refl eq_refl eq_refl eq_refl eq_refl eq_refl)
      as [Hedit [_ [_ [Htext Hpayloads]]]].
    split; [exact Hedit|]. split; [exact Htext | exact Hpayloads].
  - destruct (@rename_redirects_to_key_and_refreshes_offset
                st Examples.scenario_document 6 "x"
                [0; 1] [0]
                (Jsonc.mkNode Jsonc.TProperty None 1 6
                   (Some [Jsonc.mkNode Jsonc.TString (Some (Jsonc.VString "a")) 1 3 None;
                          Jsonc.mkNode Jsonc.TNumber (Some (Jsonc.VNumber "1")) 6 1 None]))
                (Jsonc.mkNode Jsonc.TString (Some (Jsonc.VString "a")) 1 3 None)
                (match JsonOutline.tree (JsonOutline.this st) with
                 | Some root => root
                 | None => Jsonc.mkNode Jsonc.TNull None 0 0 None
                 end)
                [] (Jsonc.SegName "a")
                eq_refl eq_refl eq_refl eq_refl eq_refl eq_refl eq_refl eq_refl eq_refl)
      as [Hedit [_ [_ [Htext Hpayloads]]]].
    split; [exact Hedit|]. split; [exact Htext | exact Hpayloads].
Defined.

(** C4, as stated, fails here.  In the scenario the rename of the key [a]
    turns the text into [{"x": 1, "b": [2,3]}] and publishes a root change
    and then, last, a change for offset 6; offset 6 is the value node [1]
    itself, the second child of the property.  With auto-refresh off that
    delivery is the only one. *)
Lemma rename_publishes_for_the_value_node :
  (let st := Examples.outline Examples.scenario_text true in
   let st' := snd (JsonOutline.rename 6 (Some "x") JsonOutline.AppliedBeforeTimer st) in
   option_map JsonOutline.getText (JsonOutline.document (JsonOutline.host st') (Some 0))
   = Some (JsonOutline.json "{'x': 1, 'b': [2,3]}")
   /\ map JsonOutline.payload (JsonOutline.published st st') = [None; Some 6]
   /\ Jsonc.findNodeAtLocation (JsonOutline.tree (JsonOutline.this st))
        (Jsonc.getLocation (JsonOutline.text (JsonOutline.this st)) 6)
      = Some [0; 1]
   /\ JsonOutline.node_of (JsonOutline.this st) [0; 1]
      = Some (Jsonc.mkNode Jsonc.TNumber (Some (Jsonc.VNumber "1")) 6 1 None))
  /\ (let st := Examples.outline Examples.scenario_text false in
      map JsonOutline.payload
          (JsonOutline.published st
             (snd (JsonOutline.rename 6 (Some "x") JsonOutline.AppliedBeforeTimer st)))
      = [Some 6]).
Proof. repeat split. Qed.

(** * Further properties *)

(** ** testView: what the listed keys look like *)

Section TestViewMore.

Import TestView.
Local Open Scope nat_scope.

(** The object a listed key sits in: the children of [k] are the keys of the
    object [k] resolves to, and the top-level keys those of [tree]. *)
Lemma getChildren_origin (k : option string) (c : string) :
  In c (TestView.getChildren k) ->
  exists (k' : string) (t : TreeObj),
    getTreeElement k' = Some t /\ In c (Js.keys (props t))
    /\ k' = match k with Some k => k | None => "" end.
Proof.
  destruct k as [k|]; simpl.
  - destruct (Js.truthy_string k) eqn:Hk; simpl.
    + destruct (getTreeElement k) as [t|] eqn:Ht; [|intros []].
      intros Hin. now exists k, t.
    + apply truthy_string_false in Hk. subst k. intros Hin. now exists "", tree.
  - intros Hin. now exists "", tree.
Qed.

Lemma getChildren_extends_by_one (k : option string) (c : string) :
  In c (TestView.getChildren k) ->
  extends_by_one (match k with Some k => k | None => "" end) c = true.
Proof.
  intros Hin. destruct (getChildren_origin _ _ Hin) as [k' [t [Ht [Hc ->]]]].
  apply In_keys in Hc as [v Hc].
  now destruct (wf_keys_prop _ _ _ _ (getTreeElement_wf _ Ht) Hc).
Qed.

(** X1.  The static view keeps the parent/child inverse law: an element
    listed under [p] has [p] as its parent and a key one character longer
    than the key of [p]; an element listed at the top has no parent and a
    key of one character.  (No element with the empty key is ever
    listed.) *)
Theorem testView_inverse_law (p : option Key) (c : Key) :
  p <> Some (new_Key "") ->
  In c (Provider.getChildren p) ->
  Provider.getParent c = p
  /\ String.length (key c)
     = S (match p with Some k => String.length (key k) | None => 0 end).
Proof.
  intros Hp Hin. split; [now apply TestView_parent_of_child|].
  unfold Provider.getChildren, getNode in Hin. apply in_map_iff in Hin as [ck [<- Hin]].
  apply getChildren_extends_by_one in Hin. apply andb_true_iff in Hin as [_ Hlen].
  apply Nat.eqb_eq in Hlen. simpl. rewrite Hlen. destruct p as [[k]|]; simpl; lia.
Qed.

(** X2.  The item of a key is collapsible exactly when the key has
    children: [getTreeItem] and [getChildren] agree on which nodes are
    leaves. *)
Theorem testView_collapsible_iff_children (k : Key) :
  collapsibleState (Provider.getTreeItem k) = Collapsed
  <-> Provider.getChildren (Some k) <> [].
Proof.
  destruct k as [s]. unfold Provider.getTreeItem, Provider.getChildren. simpl.
  destruct s as [|a s]; simpl.
  - split; [discriminate | reflexivity].
  - destruct (getTreeElement (String a s)) as [[ps]|]; simpl.
    + destruct (Js.keys ps) as [|k0 l]; simpl; split; congruence.
    + split; [discriminate | congruence].
Qed.

Lemma substring0_substring0 (s : string) :
  forall j n, j <= n -> Js.substring0 j (Js.substring0 n s) = Js.substring0 j s.
Proof.
  unfold Js.substring0. induction s as [|a s IH]; intros j n Hle.
  - destruct j, n; reflexivity.
  - destruct j as [|j]; [now destruct n|].
    destruct n as [|n]; [lia|]. simpl. rewrite IH by lia. reflexivity.
Qed.

(** The loop looks at its argument through its prefixes only. *)
Lemma getTreeElement_loop_agree (n : nat) :
  forall (c k : string) (i : nat) (p : TreeObj),
    (forall j, j <= i + n -> Js.substring0 j c = Js.substring0 j k) ->
    getTreeElement_loop c i n p = getTreeElement_loop k i n p.
Proof.
  induction n as [|n IH]; intros c k i p H; simpl; [reflexivity|].
  rewrite (H (i + 1)) by lia.
  destruct (Js.get _ _) as [q|]; [|reflexivity].
  apply IH. intros j Hj. apply H. lia.
Qed.

(** One more round of the loop is one more lookup. *)
Lemma getTreeElement_loop_snoc (n : nat) :
  forall (c : string) (i : nat) (p : TreeObj),
    getTreeElement_loop c i (S n) p
    = match getTreeElement_loop c i n p with
      | Some t => Js.get (Js.substring0 (i + n + 1) c) (props t)
      | None => None
      end.
Proof.
  induction n as [|n IH]; intros c i p.
  - simpl. rewrite Nat.add_0_r. now destruct (Js.get _ _).
  - change (getTreeElement_loop c i (S (S n)) p)
      with (match Js.get (Js.substring0 (i + 1) c) (props p) with
            | None => None
            | Some q => getTreeElement_loop c (i + 1) (S n) q
            end).
    change (getTreeElement_loop c i (S n) p)
      with (match Js.get (Js.substring0 (i + 1) c) (props p) with
            | None => None
            | Some q => getTreeElement_loop c (i + 1) n q
            end).
    destruct (Js.get (Js.substring0 (i + 1) c) (props p)) as [q|]; [|reflexivity].
    rewrite IH. replace (i + 1 + n + 1) with (i + S n + 1) by lia. reflexivity.
Qed.

Lemma In_keys_get {A} (k : string) (o : list (string * A)) :
  In k (Js.keys o) -> exists v, Js.get k o = Some v.
Proof.
  rewrite In_keys_names.
  induction o as [|[k' v'] o IH]; simpl; [intros []|].
  destruct (String.eqb_spec k k') as [->|Hne].
  - intros _. now exists v'.
  - intros [Heq|Hin]; [congruence | now apply IH].
Qed.

(** X3.  Every element that [getChildren] lists resolves in the tree: the
    view can ask for its item and for its own children. *)
Theorem testView_children_resolve (p : option Key) (c : Key) :
  In c (Provider.getChildren p) -> getTreeElement (key c) <> None.
Proof.
  unfold Provider.getChildren, getNode. rewrite in_map_iff. intros [ck [<- Hin]]. simpl.
  pose proof (getChildren_extends_by_one _ _ Hin) as Hext.
  destruct (getChildren_origin _ _ Hin) as [k [t [Ht [Hc Hk]]]]. rewrite <- Hk in Hext.
  apply andb_true_iff in Hext as [Hpre Hlen].
  apply String.eqb_eq in Hpre. apply Nat.eqb_eq in Hlen.
  unfold getTreeElement. rewrite Hlen, Nat.add_1_r, getTreeElement_loop_snoc.
  rewrite (getTreeElement_loop_agree (String.length k) ck k 0 tree).
  - fold (getTreeElement k). rewrite Ht. simpl.
    replace (String.length k + 1) with (String.length ck) by lia.
    rewrite substring0_all. destruct (In_keys_get _ _ Hc) as [v ->]. discriminate.
  - intros j Hj. rewrite <- Hpre. rewrite substring0_substring0 by lia. reflexivity.
Qed.

End TestViewMore.

Lemma testView_inverse_law_witness :
  TestView.Provider.getParent (TestView.new_Key "ab") = Some (TestView.new_Key "a")
  /\ String.length "ab" = 2.
Proof.
  apply (@testView_inverse_law (Some (TestView.new_Key "a")) (TestView.new_Key "ab")).
  - discriminate.
  - simpl. right. left. reflexivity.
Defined.

Lemma testView_children_resolve_witness :
  TestView.getTreeElement "aaaaaa" <> None.
Proof.
  apply (@testView_children_resolve (Some (TestView.new_Key "aaaaa"))
           (TestView.new_Key "aaaaaa")).
  simpl. left. reflexivity.
Defined.

From Stdlib Require Import Permutation.

(** ** Running sequenced programs, for any kind of call *)

Section RunFacts.

Variables (E : Type -> Type) (W : Type).
Variable handler : forall X, E X -> W -> X * W.

Lemma run_bind_any {A B} (m : prog E A) (f : A -> prog E B) :
  forall w,
    run handler (bind m f) w
    = let '(a, w1, t1) := run handler m w in
      let '(b, w2, t2) := run handler (f a) w1 in
      (b, w2, (t1 ++ t2)%list).
Proof.
  induction m as [a|X e k IH]; intros w; simpl.
  - now destruct (run handler (f a) w) as [[b w2] t2].
  - destruct (handler e w) as [x w']. rewrite IH.
    destruct (run handler (k x) w') as [[a w1] t1].
    now destruct (run handler (f a) w1) as [[b w2] t2].
Qed.

End RunFacts.

(** ** [sort] rearranges *)

Section SortMore.

Variable A : Type.
Variable cmp : A -> A -> comparison.

Lemma insert_Permutation (x : A) (l : list A) :
  Permutation (JsArray.insert cmp x l) (x :: l).
Proof.
  induction l as [|y l IH]; simpl; [reflexivity|].
  destruct (cmp x y); try reflexivity.
  rewrite IH. apply perm_swap.
Qed.

Lemma sort_Permutation (l : list A) : Permutation (JsArray.sort cmp l) l.
Proof.
  unfold JsArray.sort. induction l as [|x l IH]; simpl; [reflexivity|].
  rewrite insert_Permutation. now constructor.
Qed.

End SortMore.

(** ** ftpExplorer: failures, successes and what a listing holds *)

Section FtpMore.

Import Ftp.

Variable W : Type.
Variable handler : forall X, FtpE X -> W -> X * W.
Variable localeCompare : string -> string -> comparison.

(** X4.  When the connection cannot be established, each of the three
    operations is rejected with the message of the failure behind the
    prefix [Error while connecting: ], and the attempt to connect is its
    only call: no request is sent and no second attempt is made. *)
Theorem ftp_connect_failure_is_immediate (this : FtpModel) (w w1 : W) (message : string) :
  handler (ClientConnect (host this) (user this) (password this)) w = (Err message, w1) ->
  let failure := ("Error while connecting: " ++ message)%string in
  let attempt := [ev (ClientConnect (host this) (user this) (password this))] in
  run handler (roots localeCompare this) w = (Err failure, w1, attempt)
  /\ (forall node,
         run handler (getChildren localeCompare this node) w = (Err failure, w1, attempt))
  /\ (forall resource,
         run handler (getContent this resource) w = (Err failure, w1, attempt)).
Proof.
  intros Hc failure attempt.
  repeat split; intros;
    unfold roots, getChildren, getContent, connect, bindR, call; simpl;
    rewrite Hc; reflexivity.
Qed.

(** X5.  When the connection is established and the listing is answered,
    [roots] and [getChildren] make three calls, connect, list and end, in
    this order: the connection is ended before the nodes are handed out.
    The nodes are the listed entries, each a directory exactly when its
    type is [d], sorted. *)
Theorem ftp_listing_success (this : FtpModel) (w w1 w2 w3 : W) (c : Client)
  (path : option string) (list : list IEntry) :
  handler (ClientConnect (host this) (user this) (password this)) w = (Ok c, w1) ->
  handler (ClientList c path) w1 = (Ok list, w2) ->
  handler (ClientEnd c) w2 = (tt, w3) ->
  let calls := [ev (ClientConnect (host this) (user this) (password this));
                ev (ClientList c path); ev (ClientEnd c)] in
  (path = None ->
   run handler (roots localeCompare this) w
   = (Ok (sort localeCompare
            (map (fun entry =>
                    {| resource := Uri.parse ("ftp://" ++ host this ++ "///" ++ name entry);
                       isDirectory := String.eqb (type entry) "d" |}) list)),
      w3, calls))
  /\ (forall node,
         path = Some (Uri.fsPath (resource node)) ->
         run handler (getChildren localeCompare this node) w
         = (Ok (sort localeCompare
                  (map (fun entry =>
                          {| resource := Uri.parse (Uri.fsPath (resource node) ++ "/"
                                                    ++ name entry);
                             isDirectory := String.eqb (type entry) "d" |}) list)),
            w3, calls)).
Proof.
  intros Hc Hl He calls. split.
  - intros ->. unfold roots, connect, bindR, call. simpl.
    rewrite Hc. simpl. rewrite Hl. simpl. rewrite He. reflexivity.
  - intros node ->. unfold getChildren, connect, bindR, call. simpl.
    rewrite Hc. simpl. rewrite Hl. simpl. rewrite He. reflexivity.
Qed.



Lemma fold_on_data (stream : list (option string)) :
  forall acc,
    fold_left on_data stream acc
    = (acc ++ String.concat "" (Shapes.truthy_buffers stream))%string.
Proof.
  assert (Happ : forall a b c : string, ((a ++ b) ++ c = a ++ (b ++ c))%string).
  { induction a as [|x a IH]; intros b c; simpl; [reflexivity | now rewrite IH]. }
  assert (Hnil : forall a : string, (a ++ "" = a)%string).
  { induction a as [|x a IH]; simpl; [reflexivity | now rewrite IH]. }
  assert (Hcons : forall (b : string) l,
             String.concat "" (b :: l) = (b ++ String.concat "" l)%string).
  { intros b [|b' l]; simpl; [now rewrite Hnil | reflexivity]. }
  induction stream as [|b stream IH]; intros acc.
  - simpl. now rewrite Hnil.
  - cbn [fold_left]. rewrite IH. destruct b as [b|]; cbn [on_data].
    + change (Shapes.truthy_buffers (Some b :: stream))
        with (b :: Shapes.truthy_buffers stream).
      now rewrite Hcons, Happ.
    + reflexivity.
Qed.

(** X7.  When the connection is established and the file is answered with a
    stream, [getContent] resolves with the truthy buffers of the stream
    joined in their order, after three calls, connect, get and end: the
    connection is ended before the content is handed out. *)
Theorem ftp_getContent_joins_buffers (this : FtpModel) (resource : Uri.t)
  (w w1 w2 w3 : W) (c : Client) (stream : list (option string)) :
  handler (ClientConnect (host this) (user this) (password this)) w = (Ok c, w1) ->
  handler (ClientGet c (substr2 (Uri.path resource))) w1 = (Ok stream, w2) ->
  handler (ClientEnd c) w2 = (tt, w3) ->
  run handler (getContent this resource) w
  = (Ok (String.concat "" (Shapes.truthy_buffers stream)), w3,
     [ev (ClientConnect (host this) (user this) (password this));
      ev (ClientGet c (substr2 (Uri.path resource))); ev (ClientEnd c)]).
Proof.
  intros Hc Hg He. unfold getContent, connect, bindR, call. simpl.
  rewrite Hc. simpl. rewrite Hg. simpl. rewrite He. now rewrite fold_on_data.
Qed.

End FtpMore.

Lemma ftp_connect_failure_is_immediate_witness :
  run_result Ftp.server (Ftp.roots Examples.byCode Examples.ftpModel) MoreExamples.unreachable
  = Err "Error while connecting: connect ECONNREFUSED"
  /\ run_trace Ftp.server (Ftp.getContent Examples.ftpModel (Uri.parse "ftp://mirror.switch.ch///pub/b"))
               MoreExamples.unreachable
     = [ev (Ftp.ClientConnect "mirror.switch.ch" "anonymous" "anonymous@anonymous.de")].
Proof.
  pose proof (@ftp_connect_failure_is_immediate Ftp.Server Ftp.server Examples.byCode
                Examples.ftpModel MoreExamples.unreachable MoreExamples.unreachable
                "connect ECONNREFUSED" eq_refl) as [Hr [_ Hc]].
  unfold run_result, run_trace. rewrite Hr, Hc. split; reflexivity.
Defined.

Lemma ftp_listing_success_witness :
  run_trace Ftp.server (Ftp.getChildren Examples.byCode Examples.ftpModel Examples.pub)
            Examples.mirror
  = [ev (Ftp.ClientConnect "mirror.switch.ch" "anonymous" "anonymous@anonymous.de");
     ev (Ftp.ClientList 0 (Some "///pub")); ev (Ftp.ClientEnd 0)].
Proof.
  pose proof (proj2 (@ftp_listing_success Ftp.Server Ftp.server Examples.byCode
                       Examples.ftpModel Examples.mirror _ _ _ 0 (Some "///pub") _
                       eq_refl eq_refl eq_refl) Examples.pub eq_refl) as H.
  unfold run_trace. rewrite H. reflexivity.
Defined.


Lemma ftp_getContent_joins_buffers_witness :
  run_result Ftp.server
    (Ftp.getContent Examples.ftpModel (Uri.parse "ftp://mirror.switch.ch///pub/b"))
    Examples.mirror
  = Ok "hello world".
Proof.
  pose proof (@ftp_getContent_joins_buffers Ftp.Server Ftp.server Examples.ftpModel
                (Uri.parse "ftp://mirror.switch.ch///pub/b") Examples.mirror _ _ _ 0 _
                eq_refl eq_refl eq_refl) as H.
  unfold run_result. rewrite H. reflexivity.
Defined.

(** ** ftpExplorer: the parent of a node *)

Section FtpParentFacts.

Import Ftp.

Lemma list_ascii_of_string_app (a b : string) :
  list_ascii_of_string (a ++ b) = (list_ascii_of_string a ++ list_ascii_of_string b)%list.
Proof. induction a as [|x a IH]; simpl; [reflexivity | now rewrite IH]. Qed.

Lemma break_all (p : ascii -> bool) (l : list ascii) :
  forallb (fun c => negb (p c)) l = true -> Uri.break p l = (l, []).
Proof.
  induction l as [|c l IH]; simpl; [reflexivity|].
  intros H. apply andb_true_iff in H as [Hc Hl]. apply negb_true_iff in Hc.
  rewrite Hc, (IH Hl). reflexivity.
Qed.

Lemma break_app (p : ascii -> bool) (l : list ascii) (c : ascii) (r : list ascii) :
  forallb (fun c => negb (p c)) l = true -> p c = true ->
  Uri.break p (l ++ c :: r)%list = (l, c :: r).
Proof.
  induction l as [|x l IH]; simpl; intros Hl Hc.
  - now rewrite Hc.
  - apply andb_true_iff in Hl as [Hx Hl]. apply negb_true_iff in Hx.
    rewrite Hx, (IH Hl Hc). reflexivity.
Qed.


Lemma referenceResolution_absolute (sch s : string) :
  Path.isAbsolute s = true -> Uri.referenceResolution sch s = s.
Proof.
  unfold Uri.referenceResolution. destruct s as [|c s]; [discriminate|]. simpl.
  intros ->. now destruct (_ || _).
Qed.

Lemma isAbsolute_of_list (s : string) (l : list ascii) :
  list_ascii_of_string s = ("/"%char :: l)%list -> Path.isAbsolute s = true.
Proof. destruct s as [|c s]; simpl; [discriminate|]. now intros [= -> _]. Qed.

Lemma parse_plain_path (s : string) (c1 : ascii) (r : list ascii) :
  list_ascii_of_string s = ("/"%char :: c1 :: r)%list ->
  Path.is_slash c1 = false ->
  forallb (fun c => negb (Uri.one_of "?#" c)) (list_ascii_of_string s) = true ->
  Uri.parse s = Uri.mk "file" "" s "" "".
Proof.
  intros Hs Hc1 Hplain. unfold Uri.parse. rewrite Hs.
  cbn [Uri.break]. change (Uri.one_of ":/?#" "/"%char) with true. cbn iota.
  change (Path.is_slash "/"%char) with true. rewrite Hc1. cbn [andb]. cbn iota.
  rewrite <- Hs. rewrite (@break_all _ _ Hplain).
  cbn. rewrite string_of_list_ascii_of_string.
  unfold Uri.make. change (Uri.schemeFix "") with "file".
  now rewrite (@referenceResolution_absolute _ _ (@isAbsolute_of_list _ _ Hs)).
Qed.

Lemma dropWhile_app_all {A} (f : A -> bool) (l m : list A) :
  forallb f l = true -> Path.dropWhile f (l ++ m)%list = Path.dropWhile f m.
Proof.
  induction l as [|x l IH]; simpl; [reflexivity|].
  intros H. apply andb_true_iff in H as [Hx Hl]. now rewrite Hx, IH.
Qed.

Lemma forallb_rev {A} (f : A -> bool) (l : list A) :
  forallb f (rev l) = forallb f l.
Proof.
  induction l as [|x l IH]; simpl; [reflexivity|].
  rewrite forallb_app, IH. simpl. rewrite andb_true_r. apply andb_comm.
Qed.

(** The directory of [t/name], for a name without slash: the part before the
    last slash. *)
Lemma dirname_append (c0 : ascii) (t name : list ascii) :
  name <> [] ->
  forallb (fun c => negb (Path.is_slash c)) name = true ->
  Path.dirname (string_of_list_ascii (c0 :: t ++ "/"%char :: name)%list)
  = match t with
    | [] => if Path.is_slash c0 then "//" else string_of_list_ascii [c0]
    | _ => string_of_list_ascii (c0 :: t)
    end.
Proof.
  intros Hne Hplain. unfold Path.dirname.
  rewrite list_ascii_of_string_of_list_ascii.
  rewrite rev_app_distr. cbn [rev]. rewrite <- app_assoc. cbn [app].
  assert (Hrev : forallb (fun c => negb (Path.is_slash c)) (rev name) = true)
    by now rewrite forallb_rev.
  destruct (rev name) as [|x rn] eqn:Hrn.
  { apply (f_equal (@rev ascii)) in Hrn. rewrite rev_involutive in Hrn. now elim Hne. }
  cbn [app Path.dropWhile].
  simpl in Hrev. apply andb_true_iff in Hrev as [Hx Hrn'].
  apply negb_true_iff in Hx. rewrite Hx. cbn [negb].
  change (x :: rn ++ "/"%char :: rev t)%list with ((x :: rn) ++ "/"%char :: rev t)%list.
  rewrite dropWhile_app_all by (simpl; now rewrite Hx, Hrn').
  cbn [Path.dropWhile]. change (Path.is_slash "/"%char) with true. cbn [negb].
  rewrite rev_involutive. cbn [List.length].
  destruct t as [|y t]; simpl.
  - destruct (Path.is_slash c0); reflexivity.
  - rewrite length_app. simpl. rewrite Nat.add_1_r. simpl.
    now rewrite andb_false_r.
Qed.


Lemma one_of_in (chars : string) (c : ascii) :
  Uri.one_of chars c = true <-> In c (list_ascii_of_string chars).
Proof.
  unfold Uri.one_of. rewrite existsb_exists. split.
  - intros [x [Hin Heq]]. apply Ascii.eqb_eq in Heq. now subst.
  - intros Hin. exists c. split; [exact Hin | apply Ascii.eqb_refl].
Qed.

(** A list free of the characters of [big] is free of those of [small] when
    every character of [small] is one of [big]. *)
Lemma free_of_subset (big small : string) (l : list ascii) :
  (forall c, Uri.one_of small c = true -> Uri.one_of big c = true) ->
  forallb (fun c => negb (Uri.one_of big c)) l = true ->
  forallb (fun c => negb (Uri.one_of small c)) l = true.
Proof.
  intros Hsub Hall. rewrite forallb_forall in *. intros c Hc. specialize (Hall c Hc).
  apply negb_true_iff in Hall. apply negb_true_iff.
  destruct (Uri.one_of small c) eqn:Hs; [|reflexivity].
  apply Hsub in Hs. congruence.
Qed.

Lemma subset_by_list (big small : string) :
  forallb (fun c => Uri.one_of big c) (list_ascii_of_string small) = true ->
  forall c, Uri.one_of small c = true -> Uri.one_of big c = true.
Proof.
  intros Hall c Hc. apply one_of_in in Hc. rewrite forallb_forall in Hall. now apply Hall.
Qed.

Lemma plain_name_list (name : string) :
  Shapes.plain_name name = true ->
  list_ascii_of_string name <> []
  /\ forallb (fun c => negb (Path.is_slash c)) (list_ascii_of_string name) = true
  /\ forallb (fun c => negb (Uri.one_of "?#" c)) (list_ascii_of_string name) = true.
Proof.
  unfold Shapes.plain_name. intros H. apply andb_true_iff in H as [Hne Hall].
  repeat split.
  - destruct name; [discriminate|]. discriminate.
  - rewrite forallb_forall in *. intros c Hc. specialize (Hall c Hc).
    apply negb_true_iff in Hall. apply negb_true_iff.
    unfold Uri.one_of in Hall. simpl in Hall. apply orb_false_iff in Hall as [H1 _].
    exact H1.
  - apply (@free_of_subset "/?#%" "?#"); [|exact Hall].
    apply subset_by_list. reflexivity.
Qed.

Lemma getParent_of_path (u : Uri.t) (d : bool) (parentPath : string) :
  Path.dirname (Uri.path u) = parentPath ->
  Path.isAbsolute parentPath = true ->
  getParent {| resource := u; isDirectory := d |}
  = if String.eqb parentPath "//" then None
    else Some {| resource := Uri.mk (Uri.schemeFix (Uri.scheme u)) (Uri.authority u)
                               parentPath (Uri.query u) (Uri.fragment u);
                 isDirectory := true |}.
Proof.
  intros Hd Habs. unfold getParent. simpl. rewrite Hd.
  unfold Uri.with_path, Uri.make. simpl.
  rewrite (@referenceResolution_absolute _ _ Habs).
  now destruct (String.eqb parentPath "//").
Qed.

Lemma ftp_root_node_has_no_parent (u : Uri.t) (name : string) (d : bool) :
  Uri.path u = "///" ++ name ->
  Shapes.plain_name name = true ->
  getParent {| resource := u; isDirectory := d |} = None.
Proof.
  intros Hp Hname. destruct (@plain_name_list _ Hname) as [Hne [Hslash _]].
  rewrite (@getParent_of_path u d "//"); [reflexivity | | reflexivity].
  rewrite Hp. rewrite <- (string_of_list_ascii_of_string ("///" ++ name)).
  rewrite list_ascii_of_string_app. 
  change (list_ascii_of_string "///") with ["/"%char; "/"%char; "/"%char].
  change (["/"%char; "/"%char; "/"%char] ++ list_ascii_of_string name)%list
    with ("/"%char :: ["/"%char] ++ "/"%char :: list_ascii_of_string name)%list.
  rewrite (@dirname_append "/"%char ["/"%char] _ Hne Hslash). reflexivity.
Qed.

Lemma plain_dir_list (dir : string) :
  Shapes.plain_dir dir = true ->
  exists c1 r,
    list_ascii_of_string dir = ("/"%char :: c1 :: r)%list
    /\ Path.is_slash c1 = false
    /\ forallb (fun c => negb (Uri.one_of ":?#" c)) (list_ascii_of_string dir) = true.
Proof.
  unfold Shapes.plain_dir. intros H. apply andb_true_iff in H as [Hhead Hall].
  apply (@free_of_subset ":?#%" ":?#") in Hall; [|apply subset_by_list; reflexivity].
  destruct (list_ascii_of_string dir) as [|c0 [|c1 r]]; try discriminate.
  apply andb_true_iff in Hhead as [H0 H1]. apply negb_true_iff in H1.
  unfold Path.is_slash in H0. apply Ascii.eqb_eq in H0. subst c0.
  now exists c1, r.
Qed.

Lemma fsPath_plain_dir (dir : string) :
  Shapes.plain_dir dir = true -> Uri.fsPath (Uri.mk "file" "" dir "" "") = dir.
Proof.
  intros H. destruct (@plain_dir_list _ H) as [c1 [r [Hl [_ Hall]]]].
  unfold Uri.fsPath. simpl. rewrite Hl. destruct r as [|c2 r]; [reflexivity|].
  rewrite Hl, forallb_forall in Hall.
  assert (H2 : negb (Uri.one_of ":?#" c2) = true) by (apply Hall; simpl; tauto).
  apply negb_true_iff in H2.
  unfold Uri.one_of in H2. simpl in H2. apply orb_false_iff in H2 as [H2 _].
  rewrite H2. now rewrite andb_false_r.
Qed.

(** The node that [getChildren] builds for the entry [name] of the directory
    [dir], and its parent. *)
Lemma child_below_the_roots (dir name : string) (d : bool) :
  Shapes.plain_dir dir = true -> Shapes.plain_name name = true ->
  Uri.parse (Uri.fsPath (Uri.mk "file" "" dir "" "") ++ "/" ++ name)
  = Uri.mk "file" "" (dir ++ "/" ++ name) "" ""
  /\ getParent {| resource := Uri.mk "file" "" (dir ++ "/" ++ name) "" "";
                  isDirectory := d |}
     = Some {| resource := Uri.mk "file" "" dir "" ""; isDirectory := true |}.
Proof.
  intros Hdir Hname. rewrite (@fsPath_plain_dir _ Hdir).
  destruct (@plain_dir_list _ Hdir) as [c1 [r [Hl [Hc1 Hall]]]].
  destruct (@plain_name_list _ Hname) as [Hne [Hslash Hq]].
  assert (Hlist : list_ascii_of_string (dir ++ "/" ++ name)
                  = ("/"%char :: (c1 :: r) ++ "/"%char :: list_ascii_of_string name)%list).
  { rewrite list_ascii_of_string_app, Hl. reflexivity. }
  split.
  - apply (@parse_plain_path _ c1 (r ++ "/"%char :: list_ascii_of_string name)%list).
    + rewrite Hlist. reflexivity.
    + exact Hc1.
    + rewrite list_ascii_of_string_app, forallb_app. apply andb_true_iff. split.
      * apply (@free_of_subset ":?#" "?#"); [|exact Hall].
        apply subset_by_list. reflexivity.
      * simpl. exact Hq.
  - rewrite (@getParent_of_path _ d dir).
    + simpl. destruct (String.eqb_spec dir "//") as [->|_]; [|reflexivity].
      simpl in Hl. injection Hl as <- _. discriminate Hc1.
    + cbn [Uri.path]. rewrite <- (string_of_list_ascii_of_string (dir ++ "/" ++ name)), Hlist.
      rewrite (@dirname_append "/"%char (c1 :: r) _ Hne Hslash).
      rewrite <- Hl. apply string_of_list_ascii_of_string.
    + now apply (@isAbsolute_of_list _ (c1 :: r)).
Qed.

Lemma parse_ftp_root (host name : string) :
  Shapes.plain_name host = true -> Shapes.plain_name name = true ->
  Uri.parse ("ftp://" ++ host ++ "///" ++ name) = Uri.mk "ftp" host ("///" ++ name) "" "".
Proof.
  intros Hhost Hname. unfold Shapes.plain_name in Hhost.
  apply andb_true_iff in Hhost as [_ Hhost].
  apply (@free_of_subset "/?#%" "/?#") in Hhost; [|apply subset_by_list; reflexivity].
  destruct (@plain_name_list _ Hname) as [_ [_ Hq]].
  unfold Uri.parse.
  change (list_ascii_of_string ("ftp://" ++ host ++ "///" ++ name))
    with ("f"%char :: "t"%char :: "p"%char :: ":"%char :: "/"%char :: "/"%char
          :: list_ascii_of_string (host ++ "///" ++ name))%list.
  cbn [Uri.break].
  change (Uri.one_of ":/?#" "f"%char) with false.
  change (Uri.one_of ":/?#" "t"%char) with false.
  change (Uri.one_of ":/?#" "p"%char) with false.
  change (Uri.one_of ":/?#" ":"%char) with true. cbn iota.
  change (Ascii.eqb ":"%char ":"%char) with true. cbn iota.
  change (Path.is_slash "/"%char) with true. cbn [andb]. cbn iota.
  rewrite list_ascii_of_string_app.
  change (list_ascii_of_string ("///" ++ name))
    with ("/"%char :: "/"%char :: "/"%char :: list_ascii_of_string name)%list.
  rewrite (@break_app (Uri.one_of "/?#") _ "/"%char _ Hhost eq_refl).
  rewrite (@break_all (Uri.one_of "?#")
             ("/"%char :: "/"%char :: "/"%char :: list_ascii_of_string name)%list)
    by (simpl; exact Hq).
  cbn [string_of_list_ascii]. rewrite !string_of_list_ascii_of_string.
  reflexivity.
Qed.

Section FtpParents.

Variable W : Type.
Variable handler : forall X, FtpE X -> W -> X * W.
Variable localeCompare : string -> string -> comparison.

Lemma roots_answered (this : FtpModel) (w w1 w2 : W) (c : Client) (entries : list IEntry) :
  handler (ClientConnect (host this) (user this) (password this)) w = (Ok c, w1) ->
  handler (ClientList c None) w1 = (Ok entries, w2) ->
  run_result handler (roots localeCompare this) w
  = Ok (sort localeCompare
          (map (fun entry =>
                  {| resource := Uri.parse ("ftp://" ++ host this ++ "///" ++ name entry);
                     isDirectory := String.eqb (type entry) "d" |}) entries)).
Proof.
  intros Hc Hl. unfold run_result, roots, connect, bindR, call. simpl.
  rewrite Hc. simpl. rewrite Hl. simpl. now destruct (handler (ClientEnd c) w2) as [[] w3].
Qed.

Lemma getChildren_answered (this : FtpModel) (node : FtpNode) (w w1 w2 : W) (c : Client)
  (entries : list IEntry) :
  handler (ClientConnect (host this) (user this) (password this)) w = (Ok c, w1) ->
  handler (ClientList c (Some (Uri.fsPath (resource node)))) w1 = (Ok entries, w2) ->
  run_result handler (getChildren localeCompare this node) w
  = Ok (sort localeCompare
          (map (fun entry =>
                  {| resource := Uri.parse (Uri.fsPath (resource node) ++ "/" ++ name entry);
                     isDirectory := String.eqb (type entry) "d" |}) entries)).
Proof.
  intros Hc Hl. unfold run_result, getChildren, connect, bindR, call. simpl.
  rewrite Hc. simpl. rewrite Hl. simpl. now destruct (handler (ClientEnd c) w2) as [[] w3].
Qed.

(** X8.  The nodes that [roots] hands out have no parent: for a host and
    entry names without slash, question mark, hash or percent sign,
    [getParent] answers [null] for every node of the top listing. *)
Theorem ftp_roots_have_no_parent (this : FtpModel) (w w1 w2 : W) (c : Client)
  (entries : list IEntry) (children : list FtpNode) (child : FtpNode) :
  Shapes.plain_name (host this) = true ->
  handler (ClientConnect (host this) (user this) (password this)) w = (Ok c, w1) ->
  handler (ClientList c None) w1 = (Ok entries, w2) ->
  forallb (fun entry => Shapes.plain_name (name entry)) entries = true ->
  run_result handler (roots localeCompare this) w = Ok children ->
  In child children ->
  getParent child = None.
Proof.
  intros Hhost Hc Hl Hnames Hrun Hin.
  rewrite (roots_answered this Hc Hl) in Hrun.
  injection Hrun as <-. apply In_sort in Hin. apply in_map_iff in Hin as [entry [<- Hentry]].
  rewrite forallb_forall in Hnames. specialize (Hnames _ Hentry).
  change (getParent {| resource := Uri.parse ("ftp://" ++ host this ++ "///" ++ name entry);
                       isDirectory := String.eqb (type entry) "d" |} = None).
  rewrite (@parse_ftp_root _ _ Hhost Hnames).
  now apply (@ftp_root_node_has_no_parent _ (name entry)).
Qed.

(** X9.  Below the top listing the parent/child inverse law holds.  For a
    directory node [p] as [getChildren] builds them (scheme [file], no
    authority, a path that starts with one slash and has no colon, question
    mark, hash or percent sign) and entry names without slash, question
    mark, hash or percent sign, every node listed under [p] has [p] as its
    parent, and its resource is the path of [p] extended by a slash and the
    entry's name. *)
Theorem ftp_inverse_law_below_the_roots (this : FtpModel) (p : FtpNode) (dir : string)
  (w w1 w2 : W) (c : Client) (entries : list IEntry)
  (children : list FtpNode) (child : FtpNode) :
  p = {| resource := Uri.mk "file" "" dir "" ""; isDirectory := true |} ->
  Shapes.plain_dir dir = true ->
  handler (ClientConnect (host this) (user this) (password this)) w = (Ok c, w1) ->
  handler (ClientList c (Some dir)) w1 = (Ok entries, w2) ->
  forallb (fun entry => Shapes.plain_name (name entry)) entries = true ->
  run_result handler (getChildren localeCompare this p) w = Ok children ->
  In child children ->
  getParent child = Some p
  /\ exists entry, In entry entries
                   /\ resource child = Uri.mk "file" "" (dir ++ "/" ++ name entry) "" "".
Proof.
  intros -> Hdir Hc Hl Hnames Hrun Hin.
  rewrite <- (@fsPath_plain_dir _ Hdir) in Hl at 1.
  rewrite (getChildren_answered this
             {| resource := Uri.mk "file" "" dir "" ""; isDirectory := true |} Hc Hl) in Hrun.
  injection Hrun as <-. apply In_sort in Hin. apply in_map_iff in Hin as [entry [<- Hentry]].
  rewrite forallb_forall in Hnames. specialize (Hnames _ Hentry).
  destruct (@child_below_the_roots dir (name entry) (String.eqb (type entry) "d")
              Hdir Hnames) as [Hparse Hparent].
  change (getParent {| resource := Uri.parse (Uri.fsPath (Uri.mk "file" "" dir "" "")
                                             ++ "/" ++ name entry);
                       isDirectory := String.eqb (type entry) "d" |}
          = Some {| resource := Uri.mk "file" "" dir "" ""; isDirectory := true |}
          /\ exists entry0, In entry0 entries
                /\ Uri.parse (Uri.fsPath (Uri.mk "file" "" dir "" "") ++ "/" ++ name entry)
                   = Uri.mk "file" "" (dir ++ "/" ++ name entry0) "" "").
  rewrite Hparse. split; [exact Hparent | now exists entry].
Qed.

End FtpParents.

End FtpParentFacts.

Lemma ftp_roots_have_no_parent_witness : Ftp.getParent Examples.pub = None.
Proof.
  apply (@ftp_roots_have_no_parent Ftp.Server Ftp.server Examples.byCode
           Examples.ftpModel Examples.mirror _ _ 0 _ _ Examples.pub
           eq_refl eq_refl eq_refl eq_refl eq_refl).
  simpl. left. reflexivity.
Defined.

Lemma ftp_inverse_law_below_the_roots_witness :
  Ftp.getParent (Ftp.mkFtpNode (Uri.mk "file" "" "/pub/a/x.txt" "" "") false)
  = Some MoreExamples.pub_a.
Proof.
  apply (@ftp_inverse_law_below_the_roots Ftp.Server Ftp.server Examples.byCode
           Examples.ftpModel MoreExamples.pub_a "/pub/a" MoreExamples.mirror_below
           _ _ 0 _ _ (Ftp.mkFtpNode (Uri.mk "file" "" "/pub/a/x.txt" "" "") false)
           eq_refl eq_refl eq_refl eq_refl eq_refl eq_refl).
  simpl. right. left. reflexivity.
Defined.

(** ** nodeDependencies *)

Section NodeDependenciesFacts.

Import NodeDependencies.

Variable W : Type.
Variable handler : forall X, DepE X -> W -> X * W.
Variable filename : string.
Variable workspaceRoot : option string.

(** Name and version of a dependency item. *)
Let named (d : Dependency) : string * string := (label d, version d).

Lemma toDep_named (dep : string * string) (w : W) :
  named (run_result handler (toDep filename workspaceRoot dep) w) = dep.
Proof.
  unfold run_result, toDep, pathExists, call. simpl.
  destruct (handler _ w) as [[|] w']; destruct dep; reflexivity.
Qed.

Lemma mapM_toDep_named (l : list (string * string)) :
  forall w, map named (run_result handler (mapM (toDep filename workspaceRoot) l) w) = l.
Proof.
  induction l as [|dep l IH]; intros w; [reflexivity|].
  unfold run_result. cbn [mapM]. rewrite run_bind_any.
  pose proof (toDep_named dep w) as Hd. unfold run_result in Hd.
  destruct (run handler (toDep filename workspaceRoot dep) w) as [[d w1] t1].
  rewrite run_bind_any.
  pose proof (IH w1) as Hl. unfold run_result in Hl.
  destruct (run handler (mapM (toDep filename workspaceRoot) l) w1) as [[ds w2] t2].
  simpl in *. now rewrite Hd, Hl.
Qed.

Lemma deps_of_named (field : option (list (string * string))) (w : W) :
  map named (run_result handler (deps_of filename workspaceRoot field) w)
  = match field with Some o => Js.entries o | None => [] end.
Proof. destruct field as [o|]; [apply mapM_toDep_named | reflexivity]. Qed.

(** X10.  Without a workspace root (none, or the empty string) [getChildren]
    answers the empty list for every element after one call, the message
    [No dependency in empty workspace]: the file system is not touched. *)
Theorem dependencies_of_empty_workspace (element : option Dependency) (w : W) :
  workspaceRoot_truthy workspaceRoot = false ->
  run_result handler (getChildren filename workspaceRoot element) w = Ok []
  /\ run_trace handler (getChildren filename workspaceRoot element) w
     = [ev (ShowInformationMessage "No dependency in empty workspace")].
Proof.
  intros H. unfold run_result, run_trace, getChildren, call. rewrite H. simpl.
  now destruct (handler _ w) as [[] w'].
Qed.

(** X11.  When the [package.json] exists and is read, [getDepsInPackageJson]
    lists one item per property of [dependencies], then one per property of
    [devDependencies], each with the name and the version of its property,
    in the order of [Object.keys]: names that are array indices first, in
    ascending order, then the other names in the order of declaration.  So
    when no name of the two fields is an array index, the items stand in
    the order of declaration.  A module named in both fields is listed
    twice. *)
Theorem dependencies_in_declaration_order (packageJsonPath : string) (w w1 w2 : W)
  (packageJson : PackageJson) :
  handler (AccessSync packageJsonPath) w = (true, w1) ->
  handler (ReadPackageJson packageJsonPath) w1 = (Ok packageJson, w2) ->
  exists deps,
    run_result handler (getDepsInPackageJson filename workspaceRoot packageJsonPath) w
    = Ok deps
    /\ map named deps
       = (match dependencies packageJson with Some o => Js.entries o | None => [] end
          ++ match devDependencies packageJson with Some o => Js.entries o | None => [] end)%list
    /\ (Shapes.plain_object (dependencies packageJson) = true ->
        Shapes.plain_object (devDependencies packageJson) = true ->
        map named deps
        = (match dependencies packageJson with Some o => o | None => [] end
           ++ match devDependencies packageJson with Some o => o | None => [] end)%list).
Proof.
  intros Ha Hr. unfold run_result, getDepsInPackageJson, pathExists, bindR, call.
  simpl. rewrite Ha. simpl. rewrite Hr. simpl.
  rewrite run_bind_any.
  pose proof (deps_of_named (dependencies packageJson) w2) as H1. unfold run_result in H1.
  destruct (run handler (deps_of filename workspaceRoot (dependencies packageJson)) w2)
    as [[deps w3] t1].
  rewrite run_bind_any.
  pose proof (deps_of_named (devDependencies packageJson) w3) as H2.
  unfold run_result in H2.
  destruct (run handler (deps_of filename workspaceRoot (devDependencies packageJson)) w3)
    as [[devDeps w4] t2].
  simpl in *. eexists. split; [reflexivity|].
  rewrite map_app, H1, H2. split; [reflexivity|].
  intros Hp1 Hp2.
  destruct (dependencies packageJson) as [o1|], (devDependencies packageJson) as [o2|];
    rewrite ?(entries_plain _ Hp1), ?(entries_plain _ Hp2); reflexivity.
Qed.

(** X13.  A missing or unreadable [package.json].  At the top, when the
    workspace has none, the answer is the empty list after the existence
    test and the message [Workspace has no package.json]; no file is read.
    For a module without one the answer is the empty list without any
    message.  When the file exists and reading or parsing it throws,
    [getDepsInPackageJson] throws that exception. *)
Theorem dependencies_without_package_json (w w1 : W) :
  workspaceRoot_truthy workspaceRoot = true ->
  (handler (AccessSync (Path.join [root_path workspaceRoot; "package.json"])) w
   = (false, w1) ->
   run_result handler (getChildren filename workspaceRoot None) w = Ok []
   /\ run_trace handler (getChildren filename workspaceRoot None) w
      = [ev (AccessSync (Path.join [root_path workspaceRoot; "package.json"]));
         ev (ShowInformationMessage "Workspace has no package.json")])
  /\ (forall element,
         handler (AccessSync (Path.join [root_path workspaceRoot; "node_modules";
                                         label element; "package.json"])) w
         = (false, w1) ->
         run handler (getChildren filename workspaceRoot (Some element)) w
         = (Ok [], w1,
            [ev (AccessSync (Path.join [root_path workspaceRoot; "node_modules";
                                        label element; "package.json"]))]))
  /\ (forall packageJsonPath e w2,
         handler (AccessSync packageJsonPath) w = (true, w1) ->
         handler (ReadPackageJson packageJsonPath) w1 = (Err e, w2) ->
         run handler (getDepsInPackageJson filename workspaceRoot packageJsonPath) w
         = (Err e, w2,
            [ev (AccessSync packageJsonPath); ev (ReadPackageJson packageJsonPath)])).
Proof.
  intros Hroot. repeat split.
  - unfold run_result, getChildren, pathExists, call. rewrite Hroot. simpl.
    rewrite H. simpl. now destruct (handler _ w1) as [[] w2].
  - unfold run_trace, getChildren, pathExists, call. rewrite Hroot. simpl.
    rewrite H. simpl. now destruct (handler _ w1) as [[] w2].
  - intros element Ha. unfold getChildren, getDepsInPackageJson, pathExists, call.
    rewrite Hroot. simpl. now rewrite Ha.
  - intros packageJsonPath e w2 Ha Hr.
    unfold getDepsInPackageJson, pathExists, bindR, call. simpl.
    rewrite Ha. simpl. now rewrite Hr.
Qed.

(** What [toDep] answers in a world that its calls do not change. *)
Hypothesis read_only : forall X (e : DepE X) w, snd (handler e w) = w.

Lemma toDep_read_only (dep : string * string) (w : W) :
  run_world handler (toDep filename workspaceRoot dep) w = w
  /\ let d := run_result handler (toDep filename workspaceRoot dep) w in
     let installed :=
       fst (handler (AccessSync (Path.join [root_path workspaceRoot; "node_modules";
                                            label d])) w) in
     collapsibleState d = (if installed then Collapsed else None_)
     /\ item_command d
        = (if installed then None
           else Some {| command := "extension.openPackageOnNpm";
                        title := "";
                        arguments := [label d] |}).
Proof.
  unfold run_world, run_result, toDep, pathExists, call. simpl.
  pose proof (read_only (AccessSync (Path.join [root_path workspaceRoot; "node_modules";
                                                fst dep])) w) as Hw.
  destruct (handler _ w) as [[|] w'] eqn:Ha; simpl in *; subst w';
    rewrite Ha; simpl; repeat split.
Qed.

Lemma mapM_toDep_read_only (l : list (string * string)) (w : W) :
  run_world handler (mapM (toDep filename workspaceRoot) l) w = w
  /\ Forall (fun d =>
               let installed :=
                 fst (handler (AccessSync (Path.join [root_path workspaceRoot;
                                                      "node_modules"; label d])) w) in
               collapsibleState d = (if installed then Collapsed else None_)
               /\ item_command d
                  = (if installed then None
                     else Some {| command := "extension.openPackageOnNpm";
                                  title := "";
                                  arguments := [label d] |}))
            (run_result handler (mapM (toDep filename workspaceRoot) l) w).
Proof.
  induction l as [|dep l IH]; [split; [reflexivity | constructor]|].
  unfold run_world, run_result in *. cbn [mapM]. rewrite run_bind_any.
  destruct (toDep_read_only dep w) as [Hw Hd]. unfold run_world, run_result in Hw, Hd.
  destruct (run handler (toDep filename workspaceRoot dep) w) as [[d w1] t1].
  simpl in Hw, Hd. subst w1. rewrite run_bind_any.
  destruct IH as [Hw' Hl].
  destruct (run handler (mapM (toDep filename workspaceRoot) l) w) as [[ds w2] t2].
  simpl in *. split; [exact Hw' | now constructor].
Qed.

(** X12.  In a world that the provider's calls do not change, every item
    that [getDepsInPackageJson] lists is collapsible exactly when the folder
    of its module exists under [node_modules], and carries the command
    [extension.openPackageOnNpm], with the module name as argument,
    exactly when it does not. *)
Theorem dependency_collapsible_iff_installed (packageJsonPath : string) (w : W)
  (deps : list Dependency) (d : Dependency) :
  run_result handler (getDepsInPackageJson filename workspaceRoot packageJsonPath) w
  = Ok deps ->
  In d deps ->
  let installed :=
    fst (handler (AccessSync (Path.join [root_path workspaceRoot; "node_modules";
                                         label d])) w) in
  collapsibleState d = (if installed then Collapsed else None_)
  /\ item_command d
     = (if installed then None
        else Some {| command := "extension.openPackageOnNpm";
                     title := "";
                     arguments := [label d] |}).
Proof.
  unfold run_result, getDepsInPackageJson, pathExists, bindR, call. simpl.
  pose proof (read_only (AccessSync packageJsonPath) w) as Hw0.
  destruct (handler (AccessSync packageJsonPath) w) as [[|] w0]; simpl in *; subst w0;
    [|intros [= <-] []].
  pose proof (read_only (ReadPackageJson packageJsonPath) w) as Hw1.
  destruct (handler (ReadPackageJson packageJsonPath) w) as [[packageJson|e] w1];
    simpl in *; subst w1; [|discriminate].
  rewrite run_bind_any.
  assert (Hdeps : forall field,
             run_world handler (deps_of filename workspaceRoot field) w = w
             /\ Forall (fun d =>
                  let installed :=
                    fst (handler (AccessSync (Path.join [root_path workspaceRoot;
                                                         "node_modules"; label d])) w) in
                  collapsibleState d = (if installed then Collapsed else None_)
                  /\ item_command d
                     = (if installed then None
                        else Some {| command := "extension.openPackageOnNpm";
                                     title := "";
                                     arguments := [label d] |}))
                  (run_result handler (deps_of filename workspaceRoot field) w)).
  { intros [o|]; [apply mapM_toDep_read_only | split; [reflexivity | constructor]]. }
  destruct (Hdeps (dependencies packageJson)) as [Hw2 H1].
  destruct (Hdeps (devDependencies packageJson)) as [Hw3 H2].
  unfold run_world, run_result in *.
  destruct (run handler (deps_of filename workspaceRoot (dependencies packageJson)) w)
    as [[ds w2] t1]. simpl in Hw2, H1. subst w2.
  rewrite run_bind_any.
  destruct (run handler (deps_of filename workspaceRoot (devDependencies packageJson)) w)
    as [[dds w3] t2]. simpl in Hw3, H2. simpl.
  intros [= <-] Hin. apply in_app_or in Hin.
  rewrite Forall_forall in H1, H2. destruct Hin as [Hin|Hin]; [now apply H1 | now apply H2].
Qed.

End NodeDependenciesFacts.

Lemma dependencies_of_empty_workspace_witness :
  run_trace NodeDependencies.installation
            (NodeDependencies.getChildren "/ext/out/nodeDependencies.js" None None)
            MoreExamples.installed
  = [ev (NodeDependencies.ShowInformationMessage "No dependency in empty workspace")].
Proof.
  exact (proj2 (@dependencies_of_empty_workspace NodeDependencies.Installation
                  NodeDependencies.installation "/ext/out/nodeDependencies.js" None None
                  MoreExamples.installed eq_refl)).
Defined.

Lemma dependencies_in_declaration_order_witness :
  exists deps,
    run_result NodeDependencies.installation
      (NodeDependencies.getDepsInPackageJson "/ext/out/nodeDependencies.js" (Some "/ws")
         "/ws/package.json") MoreExamples.installed
    = Ok deps
    /\ map (fun d => (NodeDependencies.label d, NodeDependencies.version d)) deps
       = [("left-pad", "1.3.0"); ("rimraf", "2.6.2"); ("left-pad", "1.3.0")].
Proof.
  destruct (@dependencies_in_declaration_order NodeDependencies.Installation
              NodeDependencies.installation "/ext/out/nodeDependencies.js" (Some "/ws")
              "/ws/package.json" MoreExamples.installed MoreExamples.installed
              MoreExamples.installed MoreExamples.package eq_refl eq_refl)
    as [deps [Hrun [_ Hplain]]].
  exists deps. split; [exact Hrun | exact (Hplain eq_refl eq_refl)].
Defined.

(** A [package.json] whose dependencies are declared as [b], [10], [7]: the
    items stand in the order [7], [10], [b]. *)
Lemma dependencies_array_index_names_first :
  option_map
    (map (fun d => (NodeDependencies.label d, NodeDependencies.version d)))
    (match run_result NodeDependencies.installation
             (NodeDependencies.getDepsInPackageJson "/ext/out/nodeDependencies.js"
                (Some "/n") "/n/package.json") MoreExamples.installed with
     | Ok deps => Some deps
     | Err _ => None
     end)
  = Some [("7", "2.0.0"); ("10", "3.0.0"); ("b", "1.0.0")].
Proof. reflexivity. Qed.

Lemma dependencies_without_package_json_witness :
  run NodeDependencies.installation
      (NodeDependencies.getChildren "/ext/out/nodeDependencies.js" (Some "/ws")
         (Some (NodeDependencies.new_Dependency "/ext/out/nodeDependencies.js"
                  "rimraf" "2.6.2" NodeDependencies.None_ None)))
      MoreExamples.installed
  = (Ok [], MoreExamples.installed,
     [ev (NodeDependencies.AccessSync "/ws/node_modules/rimraf/package.json")]).
Proof.
  exact (proj1 (proj2 (@dependencies_without_package_json NodeDependencies.Installation
                         NodeDependencies.installation "/ext/out/nodeDependencies.js"
                         (Some "/ws") MoreExamples.installed MoreExamples.installed
                         eq_refl))
               (NodeDependencies.new_Dependency "/ext/out/nodeDependencies.js"
                  "rimraf" "2.6.2" NodeDependencies.None_ None)
               eq_refl).
Defined.

Lemma dependency_collapsible_iff_installed_witness :
  let d := NodeDependencies.new_Dependency "/ext/out/nodeDependencies.js"
             "left-pad" "1.3.0" NodeDependencies.Collapsed None in
  NodeDependencies.collapsibleState d = NodeDependencies.Collapsed
  /\ NodeDependencies.item_command d = None.
Proof.
  intros d.
  apply (@dependency_collapsible_iff_installed NodeDependencies.Installation
           NodeDependencies.installation "/ext/out/nodeDependencies.js" (Some "/ws")
           (fun X e w => match e with
                         | NodeDependencies.AccessSync _ => eq_refl
                         | NodeDependencies.ReadPackageJson p =>
                             match Js.get p (NodeDependencies.packages w) as o
                               return snd (match o with
                                           | Some pj => (Ok pj, w)
                                           | None => (Err "Unexpected end of JSON input", w)
                                           end) = w
                             with Some _ => eq_refl | None => eq_refl end
                         | NodeDependencies.ShowInformationMessage _ => eq_refl
                         end)
           "/ws/package.json" MoreExamples.installed
           [d;
            NodeDependencies.new_Dependency "/ext/out/nodeDependencies.js" "rimraf" "2.6.2"
              NodeDependencies.None_
              (Some (NodeDependencies.mkCommand "extension.openPackageOnNpm" "" ["rimraf"]));
            d]
           d).
  - reflexivity.
  - simpl. left. reflexivity.
Defined.

(** ** fileExplorer: listings, refusals and the watcher *)

Section FileExplorerMore.

Import FileExplorer.

Variable W : Type.
Variable handler : forall X, FsE X -> W -> X * W.

Ltac answer :=
  match goal with
  | |- context [handler ?e ?w] =>
      let a := fresh "a" in let w' := fresh "w" in
      destruct (handler e w) as [a w'] eqn:?; try destruct a
  end.

(** The loop of [_readDirectory] adds one entry per name, in order, and one
    [stat] call per name. *)
Lemma _readDirectory_loop_names (dir : string) (children : list string) :
  forall (res : list (string * FileType)) (w : W) (entries : list (string * FileType)),
    run_result handler (_readDirectory_loop dir children res) w = Ok entries ->
    map fst entries = (map fst res ++ children)%list
    /\ List.length (filter Calls.is_stat
                      (run_trace handler (_readDirectory_loop dir children res) w))
       = List.length children.
Proof.
  induction children as [|child children IH]; intros res w entries.
  - unfold run_result, run_trace. simpl. intros [= <-]. now rewrite app_nil_r.
  - unfold run_result, run_trace. cbn [_readDirectory_loop]. unfold bindR.
    rewrite run_bind_any. unfold _stat, Utilities.stat, call. simpl.
    destruct (handler (FsStat (Path.join [dir; child])) w) as [[stat|e] w1]; simpl.
    + specialize (IH (res ++ [(child, FileStat_type stat)])%list w1 entries).
      unfold run_result, run_trace in IH.
      destruct (run handler _ w1) as [[r w2] t2]. simpl in *.
      intros H. destruct (IH H) as [Hn Hs]. split; [|now rewrite Hs].
      rewrite Hn, map_app, <- app_assoc. reflexivity.
    + discriminate.
Qed.

(** X14.  When [readdir] answers with the names of a directory and every
    [stat] succeeds, [readDirectory] lists exactly these names, in the order
    of [readdir], each with a type, after one [stat] call per name. *)
Theorem readDirectory_keeps_names (uri : Uri.t) (w w1 : W) (children : list string)
  (entries : list (string * FileType)) :
  handler (FsReaddir (Uri.fsPath uri)) w = (Ok children, w1) ->
  run_result handler (readDirectory uri) w = Ok entries ->
  map fst entries = children
  /\ List.length (filter Calls.is_stat (run_trace handler (readDirectory uri) w))
     = List.length children.
Proof.
  intros Hr. unfold run_result, run_trace, readDirectory, _readDirectory, bindR.
  rewrite run_bind_any. unfold Utilities.readdir, call. simpl. rewrite Hr. simpl.
  pose proof (@_readDirectory_loop_names (Uri.fsPath uri) children [] w1 entries) as H.
  unfold run_result, run_trace in H.
  destruct (run handler _ w1) as [[r w2] t2]. simpl in *. exact H.
Qed.

(** X17.  At the top, [getChildren] makes no call at all when no workspace
    folder has the scheme [file], and answers the empty list; when no
    folder is open ([workspaceFolders] is [undefined]) it is rejected with a
    [TypeError]. *)
Theorem getChildren_without_file_folder
  (localeCompare : string -> string -> comparison) (w : W) :
  (forall folders,
      filter (fun folder => String.eqb (Uri.scheme folder) "file") folders = [] ->
      run handler (getChildren localeCompare (Some folders) None) w = (Ok [], w, []))
  /\ (exists msg,
         run handler (getChildren localeCompare None None) w
         = (Err (JsTypeError msg), w, [])).
Proof.
  split.
  - intros folders H. unfold getChildren. now rewrite H.
  - eexists. reflexivity.
Qed.

(** X18.  Neither operation removes more than it was asked to.  [_writeFile]
    never calls [rimraf], [unlink] or [rename]; [_rename] without
    [overwrite] never calls [rimraf] or [unlink], and with [overwrite] the
    only removal it can make is the [rimraf] of its target. *)
Theorem write_and_rename_never_remove_more (w : W) :
  (forall uri content options,
      Forall (fun e => Calls.is_removal e = false /\ Calls.is_rename e = false)
             (run_trace handler (_writeFile uri content options) w))
  /\ (forall oldUri newUri,
         Forall (fun e => Calls.is_removal e = false)
                (run_trace handler (_rename oldUri newUri false) w))
  /\ (forall oldUri newUri e,
         In e (run_trace handler (_rename oldUri newUri true) w) ->
         Calls.is_removal e = true -> e = ev (Rimraf (Uri.fsPath newUri))).
Proof.
  repeat split.
  - intros uri content options.
    unfold run_trace, _writeFile, Utilities.exists_, Utilities.mkdir, Utilities.writefile,
      bindR, call. simpl.
    destruct options as [[|] [|]]; simpl;
      repeat (answer; simpl); repeat constructor.
  - intros oldUri newUri.
    unfold run_trace, _rename, Utilities.exists_, Utilities.mkdir, Utilities.rmrf,
      Utilities.rename, bindR, call. simpl.
    repeat (answer; simpl); repeat constructor.
  - intros oldUri newUri e.
    unfold run_trace, _rename, Utilities.exists_, Utilities.mkdir, Utilities.rmrf,
      Utilities.rename, bindR, call. simpl.
    repeat (answer; simpl); intros Hin Hrem;
      repeat (destruct Hin as [<-|Hin]; [try discriminate Hrem; try reflexivity|]);
      destruct Hin.
Qed.

(** X19.  [massageError] turns an error into [NoPermissions] exactly when
    its code is [EPERM] or [EACCESS]; an error with any other code that is
    not [ENOENT], [EISDIR] or [EEXIST], such as [EACCES], is passed on as
    it is. *)
Theorem massageError_permissions (error : ErrnoException) :
  (Utilities.massageError error = NoPermissions
   <-> code error = Some "EPERM" \/ code error = Some "EACCESS")
  /\ (code error <> Some "ENOENT" -> code error <> Some "EISDIR" ->
      code error <> Some "EEXIST" -> code error <> Some "EPERM" ->
      code error <> Some "EACCESS" ->
      Utilities.massageError error = FsError error).
Proof.
  unfold Utilities.massageError, Utilities.code_is.
  destruct (code error) as [c|]; simpl.
  - destruct (String.eqb_spec c "ENOENT") as [->|H1];
      [split; [split; [discriminate | intros [[=]|[=]]] | congruence]|].
    destruct (String.eqb_spec c "EISDIR") as [->|H2];
      [split; [split; [discriminate | intros [[=]|[=]]] | congruence]|].
    destruct (String.eqb_spec c "EEXIST") as [->|H3];
      [split; [split; [discriminate | intros [[=]|[=]]] | congruence]|].
    destruct (String.eqb_spec c "EPERM") as [->|H4];
      [split; [split; [now left | reflexivity] | congruence]|].
    destruct (String.eqb_spec c "EACCESS") as [->|H5];
      [split; [split; [now right | reflexivity] | congruence]|].
    simpl. split; [split; [discriminate | intros [[=]|[=]]; congruence] | reflexivity].
  - split; [split; [discriminate | intros [[=]|[=]]] | reflexivity].
Qed.

End FileExplorerMore.

Section FileExplorerListing.

Import FileExplorer.

Variable W : Type.
Variable handler : forall X, FsE X -> W -> X * W.
Variable localeCompare : string -> string -> comparison.

Let not_directories (l : list (string * FileType)) : bool :=
  forallb (fun e => negb (FileType_eqb (snd e) Directory)) l.

Let directories_first (l : list (string * FileType)) : bool :=
  Shapes.entries_directories_first (map snd l).

Lemma not_directories_insert (x : string * FileType) (l : list (string * FileType)) :
  not_directories (JsArray.insert (children_compare localeCompare) x l)
  = negb (FileType_eqb (snd x) Directory) && not_directories l.
Proof.
  induction l as [|y l IH]; simpl; [reflexivity|].
  destruct (children_compare localeCompare x y); simpl; try reflexivity.
  fold (not_directories (JsArray.insert (children_compare localeCompare) x l)).
  rewrite IH. fold (not_directories l).
  destruct (FileType_eqb (snd x) Directory), (FileType_eqb (snd y) Directory); reflexivity.
Qed.

Lemma FileType_eqb_eq (a b : FileType) : FileType_eqb a b = true <-> a = b.
Proof. destruct a, b; simpl; split; congruence. Qed.

(** What the comparison says of a directory and an entry of another type. *)
Lemma children_compare_directory (x y : string * FileType) :
  (FileType_eqb (snd x) Directory = true -> FileType_eqb (snd y) Directory = false ->
   children_compare localeCompare x y = Lt)
  /\ (FileType_eqb (snd x) Directory = false -> FileType_eqb (snd y) Directory = true ->
      children_compare localeCompare x y = Gt).
Proof.
  unfold children_compare. split; intros Hx Hy.
  - apply FileType_eqb_eq in Hx. rewrite Hx in *.
    destruct (snd y); simpl in *; congruence.
  - apply FileType_eqb_eq in Hy. rewrite Hy in *.
    destruct (snd x); simpl in *; congruence.
Qed.

Lemma insert_entries_directories_first (x : string * FileType)
  (l : list (string * FileType)) :
  directories_first l = true ->
  directories_first (JsArray.insert (children_compare localeCompare) x l) = true.
Proof.
  unfold directories_first.
  induction l as [|y l IH]; simpl; intros H.
  - now rewrite orb_true_r.
  - apply andb_true_iff in H as [Hy Hl].
    assert (Hmap : forall l', forallb (fun t' => negb (FileType_eqb t' Directory))
                                      (map snd l') = not_directories l').
    { intros l'. unfold not_directories.
      induction l' as [|z l' IHl']; simpl; [reflexivity | now rewrite IHl']. }
    rewrite Hmap in Hy.
    destruct (children_compare_directory x y) as [Hlt Hgt].
    destruct (children_compare localeCompare x y) eqn:Hc; simpl.
    + rewrite Hmap. simpl. fold (not_directories l). rewrite Hy, Hl. simpl.
      rewrite andb_true_r.
      destruct (FileType_eqb (snd x) Directory) eqn:Hx; [reflexivity|].
      destruct (FileType_eqb (snd y) Directory) eqn:Hy'; simpl in *;
        [specialize (Hgt eq_refl eq_refl); congruence | exact Hy].
    + rewrite Hmap. simpl. fold (not_directories l). rewrite Hy, Hl. simpl.
      rewrite andb_true_r.
      destruct (FileType_eqb (snd x) Directory) eqn:Hx; [reflexivity|].
      destruct (FileType_eqb (snd y) Directory) eqn:Hy'; simpl in *;
        [specialize (Hgt eq_refl eq_refl); congruence | exact Hy].
    + rewrite (IH Hl), andb_true_r, Hmap, not_directories_insert.
      destruct (FileType_eqb (snd y) Directory) eqn:Hy'; [reflexivity|]. simpl in *.
      rewrite Hy, andb_true_r.
      destruct (FileType_eqb (snd x) Directory) eqn:Hx; [|reflexivity].
      specialize (Hlt eq_refl eq_refl). congruence.
Qed.

Lemma sort_entries_directories_first (l : list (string * FileType)) :
  directories_first (JsArray.sort (children_compare localeCompare) l) = true.
Proof.
  unfold JsArray.sort. induction l as [|x l IH]; simpl; [reflexivity|].
  now apply insert_entries_directories_first.
Qed.

(** X16.  At the top, a listing that [getChildren] resolves with has its
    directories before all other entries, and it is a rearrangement of the
    entries built from what [readDirectory] gives for the first workspace
    folder with the scheme [file]: one entry per listed name, whose resource
    is the folder's path joined with the name and whose type is the type
    found for that name. *)
Theorem getChildren_top_directories_first (workspaceFolders : option (list Uri.t))
  (w : W) (entries : list Entry) :
  run_result handler (getChildren localeCompare workspaceFolders None) w = Ok entries ->
  Shapes.entries_directories_first (map type entries) = true
  /\ (forall folders workspaceFolder rest children,
         workspaceFolders = Some folders ->
         filter (fun folder => String.eqb (Uri.scheme folder) "file") folders
         = workspaceFolder :: rest ->
         run_result handler (readDirectory workspaceFolder) w = Ok children ->
         Permutation entries
           (map (fun nt => {| uri := Uri.file (Path.join [Uri.fsPath workspaceFolder; fst nt]);
                              type := snd nt |}) children)).
Proof.
  unfold run_result, getChildren.
  destruct workspaceFolders as [folders|]; [|discriminate].
  destruct (filter _ folders) as [|workspaceFolder rest] eqn:Hf.
  - simpl. intros [= <-]. split; [reflexivity|]. intros ? ? ? ? [= <-]. congruence.
  - unfold bindR. rewrite run_bind_any.
    destruct (run handler (readDirectory workspaceFolder) w) as [[[children|e] w1] t1]
      eqn:Hrd; cbn [run fst snd]; [|discriminate].
    intros [= <-]. split.
    + rewrite map_map. cbn [type]. apply sort_entries_directories_first.
    + intros folders' wf' rest' children' [= <-]. rewrite Hf. intros [= <- <-].
      rewrite Hrd. cbn [fst]. intros [= <-].
      apply Permutation_map, sort_Permutation.
Qed.

(** The watcher's listener makes at most the one call [exists]. *)
Lemma watch_listener_run (uri : Uri.t) (event filename : string) (w : W) :
  let filepath := Path.join [Uri.fsPath uri; filename] in
  run handler (FileWatcher.watch_listener uri event filename) w
  = if String.eqb event "change"
    then ([ FileWatcher.mkFileChangeEvent FileWatcher.Changed (Uri.with_path uri filepath) ],
          w, [])
    else let (e, w1) := handler (FsExists filepath) w in
         ([ FileWatcher.mkFileChangeEvent
              (if e then FileWatcher.Created else FileWatcher.Deleted)
              (Uri.with_path uri filepath) ],
          w1, [ev (FsExists filepath)]).
Proof.
  intros filepath. unfold FileWatcher.watch_listener, Utilities.exists_,
    Utilities.normalizeNFC, call. fold filepath.
  destruct (String.eqb event "change"); [reflexivity|]. simpl.
  now destruct (handler (FsExists filepath) w) as [[|] w1].
Qed.

(** X20.  For every event of [fs.watch] the listener of [watch] fires
    exactly one change, for the watched path joined with the file name.  The
    change is [Changed] exactly for the event [change]; for any other event
    it is [Created] when the path exists at that moment and [Deleted] when
    it does not.  The listener writes nothing. *)
Theorem watch_listener_fires_one_change (uri : Uri.t) (event filename : string) (w : W) :
  let filepath := Path.join [Uri.fsPath uri; filename] in
  exists t,
    run_result handler (FileWatcher.watch_listener uri event filename) w
    = [ FileWatcher.mkFileChangeEvent t (Uri.with_path uri filepath) ]
    /\ (t = FileWatcher.Changed <-> event = "change")
    /\ (event <> "change" ->
        (t = FileWatcher.Created <-> fst (handler (FsExists filepath) w) = true)
        /\ (t = FileWatcher.Deleted <-> fst (handler (FsExists filepath) w) = false))
    /\ writes (run_trace handler (FileWatcher.watch_listener uri event filename) w) = [].
Proof.
  intros filepath. unfold run_result, run_trace. rewrite watch_listener_run. fold filepath.
  destruct (String.eqb_spec event "change") as [->|Hne].
  - exists FileWatcher.Changed. simpl. repeat split; congruence.
  - destruct (handler (FsExists filepath) w) as [[|] w1]; simpl.
    + exists FileWatcher.Created. repeat split; congruence.
    + exists FileWatcher.Deleted. repeat split; congruence.
Qed.

(** In a world that reading does not change, a name that [stat] does not
    find stops the loop of [_readDirectory]. *)
Hypothesis read_only : forall X (e : FsE X) w, snd (handler e w) = w.

Lemma _readDirectory_loop_fails (dir child : string) (e : ErrnoException)
  (children : list string) (w : W) :
  In child children ->
  fst (handler (FsStat (Path.join [dir; child])) w) = Err e ->
  forall res, is_ok (run_result handler (_readDirectory_loop dir children res) w) = false.
Proof.
  intros Hin Hstat. induction children as [|c children IH]; [destruct Hin|]. intros res.
  unfold run_result. cbn [_readDirectory_loop]. unfold bindR. rewrite run_bind_any.
  unfold _stat, Utilities.stat, call. simpl.
  pose proof (read_only (FsStat (Path.join [dir; c])) w) as Hw.
  destruct (handler (FsStat (Path.join [dir; c])) w) as [[stat|e'] w1] eqn:Hc;
    simpl in *; subst w1; [|reflexivity].
  destruct Hin as [->|Hin]; [rewrite Hc in Hstat; discriminate|].
  specialize (IH Hin (res ++ [(c, FileStat_type stat)])%list). unfold run_result in IH.
  now destruct (run handler _ w) as [[r w2] t2].
Qed.

(** X15.  In a world that reading does not change, one listed name that
    [stat] does not find (a link whose target is gone) makes the whole
    listing fail: [readDirectory] is rejected, and so is [getChildren] for
    an element with that directory. *)
Theorem readDirectory_fails_on_one_bad_entry (element : Entry) (w : W)
  (children : list string) (child : string) (e : ErrnoException)
  (workspaceFolders : option (list Uri.t)) :
  fst (handler (FsReaddir (Uri.fsPath (uri element))) w) = Ok children ->
  In child children ->
  fst (handler (FsStat (Path.join [Uri.fsPath (uri element); child])) w) = Err e ->
  is_ok (run_result handler (readDirectory (uri element)) w) = false
  /\ is_ok (run_result handler (getChildren localeCompare workspaceFolders (Some element)) w)
     = false.
Proof.
  intros Hr Hin Hstat.
  assert (H : is_ok (run_result handler (readDirectory (uri element)) w) = false).
  { unfold run_result, readDirectory, _readDirectory, bindR. rewrite run_bind_any.
    unfold Utilities.readdir, call. simpl.
    pose proof (read_only (FsReaddir (Uri.fsPath (uri element))) w) as Hw.
    destruct (handler (FsReaddir (Uri.fsPath (uri element))) w) as [r w1].
    simpl in *. subst w1 r. simpl.
    pose proof (@_readDirectory_loop_fails (Uri.fsPath (uri element)) child e children w
                  Hin Hstat []) as Hl.
    unfold run_result in Hl. now destruct (run handler _ w) as [[r w2] t2]. }
  split; [exact H|].
  unfold run_result in *. unfold getChildren, bindR. rewrite run_bind_any.
  destruct (run handler (readDirectory (uri element)) w) as [[[r|e'] w1] t1];
    simpl in *; [discriminate | reflexivity].
Qed.

End FileExplorerListing.

Lemma readDirectory_keeps_names_witness :
  map fst [("a.txt", FileExplorer.File); ("b", FileExplorer.Directory)] = ["a.txt"; "b"]
  /\ List.length
       (filter Calls.is_stat
          (run_trace MemFs.handle (FileExplorer.readDirectory (Uri.file "/ws/n"))
                     Examples.disk))
     = 2.
Proof.
  exact (@readDirectory_keeps_names MemFs.Fs MemFs.handle (Uri.file "/ws/n")
           Examples.disk Examples.disk ["a.txt"; "b"]
           [("a.txt", FileExplorer.File); ("b", FileExplorer.Directory)]
           eq_refl eq_refl).
Defined.

(** The workspace folder of the example disk: [readdir] names [a.txt], [n],
    [src] and [z.txt], and [getChildren] lists the two directories first. *)
Lemma getChildren_top_directories_first_witness :
  Permutation
    [ FileExplorer.mkEntry (Uri.file "/ws/n") FileExplorer.Directory;
      FileExplorer.mkEntry (Uri.file "/ws/src") FileExplorer.Directory;
      FileExplorer.mkEntry (Uri.file "/ws/a.txt") FileExplorer.File;
      FileExplorer.mkEntry (Uri.file "/ws/z.txt") FileExplorer.File ]
    [ FileExplorer.mkEntry (Uri.file "/ws/a.txt") FileExplorer.File;
      FileExplorer.mkEntry (Uri.file "/ws/n") FileExplorer.Directory;
      FileExplorer.mkEntry (Uri.file "/ws/src") FileExplorer.Directory;
      FileExplorer.mkEntry (Uri.file "/ws/z.txt") FileExplorer.File ].
Proof.
  exact (proj2 (@getChildren_top_directories_first MemFs.Fs MemFs.handle Examples.byCode
                  Examples.workspaceFolders Examples.disk
                  [ FileExplorer.mkEntry (Uri.file "/ws/n") FileExplorer.Directory;
                    FileExplorer.mkEntry (Uri.file "/ws/src") FileExplorer.Directory;
                    FileExplorer.mkEntry (Uri.file "/ws/a.txt") FileExplorer.File;
                    FileExplorer.mkEntry (Uri.file "/ws/z.txt") FileExplorer.File ]
                  eq_refl)
               [Uri.file "/ws"] (Uri.file "/ws") []
               [ ("a.txt", FileExplorer.File); ("n", FileExplorer.Directory);
                 ("src", FileExplorer.Directory); ("z.txt", FileExplorer.File) ]
               eq_refl eq_refl eq_refl).
Defined.

Lemma readDirectory_fails_on_one_bad_entry_witness :
  is_ok (run_result MoreExamples.dangling (FileExplorer.readDirectory (Uri.file "/ws")) tt)
  = false.
Proof.
  exact (proj1 (@readDirectory_fails_on_one_bad_entry unit MoreExamples.dangling
                  Examples.byCode
                  (fun X e w => match w with tt =>
                                  match snd (MoreExamples.dangling e tt) as u
                                    return u = tt with tt => eq_refl end end)
                  (FileExplorer.mkEntry (Uri.file "/ws") FileExplorer.Directory) tt
                  ["good.txt"; "link"; "z.txt"] "link" (MemFs.errno "ENOENT") None
                  eq_refl (or_intror (or_introl eq_refl)) eq_refl)).
Defined.

(** ** jsonOutline: when the provider parses and notifies *)

Section JsonOutlineMore.

Import Jsonc JsonOutline.
Local Open Scope list_scope.

(** X21.  [doParseTree] is idempotent, and so is [refresh] on the provider:
    parsing again without a change of the host gives the same text, tree
    and editor.  Neither changes the host. *)
Theorem doParseTree_idempotent (st : State) :
  doParseTree (doParseTree st) = doParseTree st
  /\ host (doParseTree st) = host st
  /\ (forall o : option nat,
         this (refresh o (refresh o st)) = this (refresh o st)
         /\ host (refresh o st) = host st).
Proof.
  assert (Hid : forall s, doParseTree (doParseTree s) = doParseTree s).
  { intros s. unfold doParseTree.
    destruct (document (host s) (activeTextEditor (host s))) as [d|] eqn:Hd;
      simpl; now rewrite Hd. }
  assert (Hr : forall o s, this (refresh o s) = this (doParseTree s)
                           /\ host (refresh o s) = host s).
  { intros o s. unfold refresh.
    destruct o as [o|]; [destruct (Js.truthy_nat o)|]; cbn [fire this host];
      split; auto using doParseTree_host. }
  repeat split.
  - apply Hid.
  - apply doParseTree_host.
  - destruct (Hr o (refresh o st)) as [-> _].
    destruct (Hr o st) as [E1 E2].
    rewrite doParseTree_this, E2, E1. rewrite (doParseTree_this st).
    now destruct (document (host st) (activeTextEditor (host st))).
  - apply Hr.
Qed.

(** X22.  The document-change listener acts only when auto-refresh is on and
    the changed document is the one of the provider's editor: otherwise the
    provider is left as it is and nothing is published.  When it acts, it
    publishes one delivery per content change. *)
Theorem onDocumentChanged_only_when_watching (changeEvent : TextDocumentChangeEvent)
  (st : State) (d : TextDocument) :
  document (host st) (editor (this st)) = Some d ->
  (autoRefresh (this st) && Uri.eqb (ev_document changeEvent) (doc_uri d) = false ->
   onDocumentChanged changeEvent st = (Ok tt, st))
  /\ (autoRefresh (this st) && Uri.eqb (ev_document changeEvent) (doc_uri d) = true ->
      fst (onDocumentChanged changeEvent st) = Ok tt
      /\ List.length (published st (snd (onDocumentChanged changeEvent st)))
         = List.length (contentChanges changeEvent)).
Proof.
  intros Hd. unfold onDocumentChanged.
  destruct (editor (this st)) as [id|] eqn:He; [|discriminate Hd].
  rewrite Hd. split; intros ->; [reflexivity|]. simpl. split; [reflexivity|].
  destruct (onDocumentChanged_loop_fired (contentChanges changeEvent) st)
    as [new [Hnew [_ Hlen]]].
  now rewrite (@published_app _ _ _ Hnew).
Qed.

Lemma set_enabled_document (b : bool) (st : State) (e : option nat) :
  document (host (set_enabled b st)) e = document (host st) e.
Proof. reflexivity. Qed.

(** X23.  A change of the active editor re-parses and notifies only for a
    [file] document in the language [json] or [jsonc], with one root-changed
    delivery.  For any other [file] document, and without an active editor,
    the provider keeps the text and the tree it had and publishes nothing;
    only the context key is set to false.  For a document with another
    scheme nothing changes at all. *)
Theorem onActiveEditorChanged_cases (st : State) :
  (activeTextEditor (host st) = None ->
   this (onActiveEditorChanged st) = this st
   /\ fired (onActiveEditorChanged st) = fired st
   /\ jsonOutlineEnabled (host (onActiveEditorChanged st)) = Some false)
  /\ (forall d,
         document (host st) (activeTextEditor (host st)) = Some d ->
         (String.eqb (Uri.scheme (doc_uri d)) "file" = false ->
          onActiveEditorChanged st = st)
         /\ (String.eqb (Uri.scheme (doc_uri d)) "file" = true ->
             String.eqb (languageId d) "json" || String.eqb (languageId d) "jsonc" = false ->
             this (onActiveEditorChanged st) = this st
             /\ fired (onActiveEditorChanged st) = fired st
             /\ jsonOutlineEnabled (host (onActiveEditorChanged st)) = Some false)
         /\ (String.eqb (Uri.scheme (doc_uri d)) "file" = true ->
             String.eqb (languageId d) "json" || String.eqb (languageId d) "jsonc" = true ->
             text (this (onActiveEditorChanged st)) = getText d
             /\ tree (this (onActiveEditorChanged st)) = parseTree (getText d)
             /\ map payload (published st (onActiveEditorChanged st)) = [None]
             /\ jsonOutlineEnabled (host (onActiveEditorChanged st)) = Some true)).
Proof.
  split.
  - intros H. unfold onActiveEditorChanged. rewrite H. repeat split.
  - intros d Hd. unfold onActiveEditorChanged.
    destruct (activeTextEditor (host st)) as [id|] eqn:Ha; [|discriminate Hd].
    simpl in Hd. rewrite Hd. split; [|split].
    + now intros ->.
    + intros -> ->. now cbn.
    + intros -> ->. cbn [orb].
      assert (Hdoc : document (host (set_enabled true st))
                              (activeTextEditor (host (set_enabled true st))) = Some d).
      { cbn [host set_enabled activeTextEditor]. rewrite Ha. exact Hd. }
      assert (Hthis : this (refresh None (set_enabled true st))
                      = this (doParseTree (set_enabled true st))) by reflexivity.
      rewrite Hthis, doParseTree_this, Hdoc. cbn [text tree].
      split; [reflexivity|]. split; [reflexivity|]. split.
      * assert (Hf := refresh_fired None (set_enabled true st)).
        change (fired (set_enabled true st)) with (fired st) in Hf.
        now rewrite (@published_app st _ _ Hf).
      * unfold refresh. cbn [host fire]. now rewrite doParseTree_host.
Qed.

(** X24.  Right after its construction the provider agrees with the host: its
    editor is the active editor, its text and its tree are those of the
    active document (none without one), and its auto-refresh flag is the
    configured one.  It has published at most one delivery, a root change
    that found the provider in this same agreement. *)
Theorem constructor_agrees_with_host (h : Host) (extensionPath_ : string) :
  let st := constructor h extensionPath_ in
  editor (this st) = activeTextEditor h
  /\ autoRefresh (this st) = autorefresh h
  /\ fresh (mkFired None (host st) (this st))
  /\ List.length (fired st) <= 1
  /\ Forall (fun f => payload f = None /\ fresh f) (fired st).
Proof.
  intros st. subst st. unfold constructor.
  set (s2 := onConfigurationChanged
               (doParseTree (mkState h (mkProvider None "" None true extensionPath_) []))).
  assert (H2h : host s2 = h)
    by (unfold s2, onConfigurationChanged; cbn [host]; apply doParseTree_host).
  assert (H2f : fired s2 = [])
    by (unfold s2, onConfigurationChanged; cbn [fired]; apply doParseTree_fired).
  assert (H2t : this s2
                = match document h (activeTextEditor h) with
                  | Some d => mkProvider (parseTree (getText d)) (getText d)
                                         (activeTextEditor h) (autorefresh h) extensionPath_
                  | None => mkProvider None "" (activeTextEditor h) (autorefresh h)
                                       extensionPath_
                  end).
  { unfold s2, onConfigurationChanged. cbn [this].
    rewrite doParseTree_host, doParseTree_this. cbn [host this autoRefresh extensionPath].
    now destruct (document h _). }
  clearbody s2. destruct s2 as [h2 p2 f2]. cbn [host this fired] in H2h, H2f, H2t.
  subst h2 f2 p2.
  unfold onActiveEditorChanged, fresh. cbn [host seen_host seen_this].
  destruct (activeTextEditor h) as [id|] eqn:Ha; cbn [document].
  - destruct (lookup_editor id (editors h)) as [d|] eqn:Hl.
    + destruct (String.eqb (Uri.scheme (doc_uri d)) "file");
        [destruct (String.eqb (languageId d) "json" || String.eqb (languageId d) "jsonc")|];
        unfold refresh, doParseTree, fire, set_enabled, fresh;
        repeat (cbn [host this fired activeTextEditor editors document seen_host seen_this
                     editor autoRefresh text tree extensionPath app List.length];
                rewrite ?Ha, ?Hl);
        repeat split; auto; repeat constructor;
        repeat (cbn [host this fired activeTextEditor editors document seen_host seen_this
                     editor autoRefresh text tree extensionPath payload];
                rewrite ?Ha, ?Hl); auto.
    + cbn [host this fired editor autoRefresh text tree]. rewrite Ha. cbn [document].
      rewrite Hl. repeat split; auto.
  - unfold set_enabled.
    cbn [host this fired editor autoRefresh text tree activeTextEditor List.length].
    rewrite Ha. cbn [document]. repeat split; auto.
Qed.


End JsonOutlineMore.

Lemma onDocumentChanged_only_when_watching_witness :
  let st := Examples.outline Examples.scenario_text false in
  JsonOutline.onDocumentChanged
    (JsonOutline.mkChangeEvent (Uri.file "/ws/data.json") [JsonOutline.mkContentChange 1]) st
  = (Ok tt, st).
Proof.
  intros st.
  exact (proj1 (@onDocumentChanged_only_when_watching
                  (JsonOutline.mkChangeEvent (Uri.file "/ws/data.json")
                     [JsonOutline.mkContentChange 1])
                  st Examples.scenario_document eq_refl) eq_refl).
Defined.

Lemma onActiveEditorChanged_cases_witness :
  let st := JsonOutline.constructor (Examples.host_with Examples.scenario_text true) "/ext" in
  let st1 := JsonOutline.mkState MoreExamples.host_plain_text (JsonOutline.this st)
                                 (JsonOutline.fired st) in
  JsonOutline.text (JsonOutline.this (JsonOutline.onActiveEditorChanged st1))
  = Examples.scenario_text
  /\ JsonOutline.fired (JsonOutline.onActiveEditorChanged st1) = JsonOutline.fired st1.
Proof.
  intros st st1.
  destruct (proj1 (proj2 (proj2 (@onActiveEditorChanged_cases st1) _ eq_refl))
              eq_refl eq_refl) as [Hthis [Hfired _]].
  rewrite Hthis, Hfired. split; reflexivity.
Defined.

